(** * Data Drop Inspector: profiling, cleaning and rule engine

    A shallow embedding of [inspector/cleaning.py], [inspector/profiling.py],
    [inspector/rules.py] and of the report assembly in [app.py], together
    with the parts of Python and pandas these functions rest on.

    Conventions.
    - A Python [str] is its UTF-8 encoding, a [string] of bytes: substring
      search, replacement, suffix tests and regular expressions whose
      classes are ASCII agree with the code-point versions on UTF-8 text.
    - A Python [float] is an IEEE binary64 number, [spec_float] at
      precision 53, with the operations of [SpecFloat].
    - Exceptions are an outcome [Raise], the process-wide random generator
      of numpy is a field of the [World] that every computation threads. *)

From Stdlib Require Import ZArith QArith Bool List Ascii String Lia.
From Stdlib Require Import DecimalString Floats.SpecFloat.
Import ListNotations.

Set Implicit Arguments.
Local Open Scope string_scope.
Local Open Scope Z_scope.

(** ** Python strings *)

Module PyStr.

Definition code (c : ascii) : N := N_of_ascii c.

(** [str.isspace] for a code point below 128. *)
Definition ws1 (a : ascii) : bool :=
  let n := code a in
  ((9 <=? n) && (n <=? 13) || (28 <=? n) && (n <=? 32))%N.

(** U+0085 and U+00A0. *)
Definition ws2 (a b : ascii) : bool :=
  ((code a =? 194) && ((code b =? 133) || (code b =? 160)))%N.

(** U+1680, U+2000..U+200A, U+2028, U+2029, U+202F, U+205F, U+3000. *)
Definition ws3 (a b c : ascii) : bool :=
  let x := code a in let y := code b in let z := code c in
  ((x =? 225) && (y =? 154) && (z =? 128)
   || (x =? 226) && (y =? 128)
      && ((128 <=? z) && (z <=? 138) || (z =? 168) || (z =? 169) || (z =? 175))
   || (x =? 226) && (y =? 129) && (z =? 159)
   || (x =? 227) && (y =? 128) && (z =? 128))%N.

(** Drop the white space at the front of [l]. With [back] the list is a
    reversed string, and the bytes of a code point come last byte first. *)
Fixpoint drop_ws (back : bool) (l : list ascii) : list ascii :=
  match l with
  | [] => []
  | a :: l1 =>
      if ws1 a then drop_ws back l1
      else match l1 with
           | [] => l
           | b :: l2 =>
               if (if back then ws2 b a else ws2 a b) then drop_ws back l2
               else match l2 with
                    | [] => l
                    | c :: l3 =>
                        if (if back then ws3 c b a else ws3 a b c)
                        then drop_ws back l3
                        else l
                    end
           end
  end.

(** [s.strip()] *)
Definition strip (s : string) : string :=
  string_of_list_ascii
    (rev (drop_ws true (rev (drop_ws false (list_ascii_of_string s))))).

(** [sub in s] *)
Fixpoint contains (sub s : string) : bool :=
  prefix sub s
  || match s with
     | EmptyString => false
     | String _ s' => contains sub s'
     end.

(** [s.endswith(suf)] *)
Fixpoint endswith (s suf : string) : bool :=
  String.eqb s suf
  || match s with
     | EmptyString => false
     | String _ s' => endswith s' suf
     end.

(** [s.replace(old, "")] for a non-empty [old]: every occurrence, found
    from the left, is removed; [skip] counts the bytes of the occurrence
    being removed that are still ahead. *)
Fixpoint remove_from (old s : string) (skip : nat) : string :=
  match s with
  | EmptyString => EmptyString
  | String c s' =>
      match skip with
      | S k => remove_from old s' k
      | O =>
          if prefix old s
          then remove_from old s' (String.length old - 1)
          else String c (remove_from old s' 0)
      end
  end.

Definition remove_all (old s : string) : string := remove_from old s 0.

(** [s.replace(a, b)] for single bytes. *)
Fixpoint replace_char (a b : ascii) (s : string) : string :=
  match s with
  | EmptyString => EmptyString
  | String c s' =>
      String (if Ascii.eqb c a then b else c) (replace_char a b s')
  end.

(** [sep.join(xs)] *)
Fixpoint join (sep : string) (xs : list string) : string :=
  match xs with
  | [] => ""
  | [x] => x
  | x :: xs' => x ++ sep ++ join sep xs'
  end.

(** [str(n)] for an [int]. *)
Definition of_Z (z : Z) : string := NilZero.string_of_int (Z.to_int z).
Definition of_nat (n : nat) : string := of_Z (Z.of_nat n).

(** [s.lower()] on text whose letters are ASCII. *)
Definition ascii_lower_char (c : ascii) : ascii :=
  let n := code c in
  if ((65 <=? n) && (n <=? 90))%N then ascii_of_N (n + 32) else c.

Fixpoint ascii_lower (s : string) : string :=
  match s with
  | EmptyString => EmptyString
  | String c s' => String (ascii_lower_char c) (ascii_lower s')
  end.

End PyStr.

(** ** Regular expressions of [re], over bytes *)

Module Re.

Inductive cls_item : Type :=
| Rng (lo hi : ascii)
| Chr (c : ascii).

Definition in_item (a : ascii) (i : cls_item) : bool :=
  match i with
  | Rng lo hi =>
      ((N_of_ascii lo <=? N_of_ascii a) && (N_of_ascii a <=? N_of_ascii hi))%N
  | Chr c => Ascii.eqb a c
  end.

Definition in_cls (a : ascii) (c : list cls_item) : bool :=
  existsb (in_item a) c.

Inductive regex : Type :=
| Void
| Eps
| Class (c : list cls_item)
| Seq (r1 r2 : regex)
| Alt (r1 r2 : regex)
| Star (r : regex).

(** [r+] and [r{n,}] *)
Definition Plus (r : regex) : regex := Seq r (Star r).

Fixpoint AtLeast (n : nat) (r : regex) : regex :=
  match n with
  | O => Star r
  | S n' => Seq r (AtLeast n' r)
  end.

Fixpoint nullable (r : regex) : bool :=
  match r with
  | Void => false
  | Eps => true
  | Class _ => false
  | Seq r1 r2 => nullable r1 && nullable r2
  | Alt r1 r2 => nullable r1 || nullable r2
  | Star _ => true
  end.

Definition mk_seq (r1 r2 : regex) : regex :=
  match r1, r2 with
  | Void, _ => Void
  | _, Void => Void
  | Eps, _ => r2
  | _, _ => Seq r1 r2
  end.

Definition mk_alt (r1 r2 : regex) : regex :=
  match r1, r2 with
  | Void, _ => r2
  | _, Void => r1
  | _, _ => Alt r1 r2
  end.

Fixpoint deriv (a : ascii) (r : regex) : regex :=
  match r with
  | Void => Void
  | Eps => Void
  | Class c => if in_cls a c then Eps else Void
  | Seq r1 r2 =>
      if nullable r1
      then mk_alt (mk_seq (deriv a r1) r2) (deriv a r2)
      else mk_seq (deriv a r1) r2
  | Alt r1 r2 => mk_alt (deriv a r1) (deriv a r2)
  | Star r1 => mk_seq (deriv a r1) (Star r1)
  end.

(** [re.fullmatch(r, s) is not None] *)
Fixpoint fullmatch (r : regex) (s : string) : bool :=
  match s with
  | EmptyString => nullable r
  | String a s' => fullmatch (deriv a r) s'
  end.

Definition newline : ascii := ascii_of_N 10.

Fixpoint chop_newline (s : string) : option string :=
  match s with
  | EmptyString => None
  | String a EmptyString =>
      if Ascii.eqb a newline then Some EmptyString else None
  | String a s' => option_map (String a) (chop_newline s')
  end.

(** [re.match(p, s) is not None] for the pattern [^r$]: [^] is the start
    of the string, [$] is its end or the place before a newline that
    ends it. *)
Definition match_anchored (r : regex) (s : string) : bool :=
  fullmatch r s
  || match chop_newline s with
     | Some s' => fullmatch r s'
     | None => false
     end.

Definition any_byte : regex := Class [Rng (ascii_of_N 0) (ascii_of_N 255)].

(** [re.search(r, s) is not None] for a pattern without anchors. *)
Definition search (r : regex) (s : string) : bool :=
  fullmatch (Seq (Star any_byte) (Seq r (Star any_byte))) s.

(** The language of a regular expression. *)
Inductive Matches : regex -> string -> Prop :=
| MEps : Matches Eps ""
| MClass c a : in_cls a c = true -> Matches (Class c) (String a "")
| MSeq r1 r2 s1 s2 :
    Matches r1 s1 -> Matches r2 s2 -> Matches (Seq r1 r2) (s1 ++ s2)
| MAltL r1 r2 s : Matches r1 s -> Matches (Alt r1 r2) s
| MAltR r1 r2 s : Matches r2 s -> Matches (Alt r1 r2) s
| MStar0 r : Matches (Star r) ""
| MStarS r a s1 s2 :
    Matches r (String a s1) -> Matches (Star r) s2 ->
    Matches (Star r) (String a s1 ++ s2).

End Re.

(** ** Python floats *)

Module Float.

Definition float : Type := spec_float.
Definition prec : Z := 53.
Definition emax : Z := 1024.

(** [float(z)] for an integer below 2^53 in size, nearest otherwise. *)
Definition of_Z (z : Z) : float := binary_normalize prec emax z 0 false.
Definition of_nat (n : nat) : float := of_Z (Z.of_nat n).

Definition div : float -> float -> float := SFdiv prec emax.
Definition mul : float -> float -> float := SFmul prec emax.
Definition leb : float -> float -> bool := SFleb.
Definition ltb : float -> float -> bool := SFltb.
Definition nan : float := S754_nan.

(** The literal [n / 10^k] of the source text, as the nearest float. *)
Definition lit (n : Z) (k : Z) : float := div (of_Z n) (of_Z (10 ^ k)).

(** [num / den] rounded to the nearest integer, ties to even. *)
Definition round_half_even (num den : Z) : Z :=
  let q := num / den in
  let r := num mod den in
  match 2 * r ?= den with
  | Lt => q
  | Gt => q + 1
  | Eq => if Z.even q then q else q + 1
  end.

(** The exact value [m * 2^e * 10^nd] rounded to an integer. *)
Definition scaled_int (m : positive) (e : Z) (nd : Z) : Z :=
  if 0 <=? e then Z.pos m * 2 ^ e * 10 ^ nd
  else round_half_even (Z.pos m * 10 ^ nd) (2 ^ (- e)).

(** [round(x, nd)]: the exact value of [x] is rounded to [nd] decimals,
    ties to even, and the decimal is converted to the nearest float. *)
Definition py_round (x : float) (nd : Z) : float :=
  match x with
  | S754_finite s m e =>
      let k := scaled_int m e nd in
      div (of_Z (if s then - k else k)) (of_Z (10 ^ nd))
  | _ => x
  end.

Definition digit (z : Z) : string := PyStr.of_Z (z mod 10).

(** [repr(x)] for the result of [round(_, 2)]. *)
Definition repr2 (x : float) : string :=
  match x with
  | S754_nan => "nan"
  | S754_infinity s => if s then "-inf" else "inf"
  | S754_zero s => if s then "-0.0" else "0.0"
  | S754_finite s m e =>
      let k := scaled_int m e 2 in
      let frac :=
        if k mod 10 =? 0 then digit (k / 10)
        else String.append (digit (k / 10)) (digit k) in
      String.append (if s then "-" else "")
        (String.append (PyStr.of_Z (k / 100)) (String.append "." frac))
  end.

End Float.

(** ** The Python run time: exceptions, library functions, the monad *)

Module Py.

Inductive exn : Type :=
| AttributeError
| TypeError
| ValueError
| IndexError.

Inductive outcome (A : Type) : Type :=
| Ok (a : A)
| Raise (e : exn).
Arguments Ok {A} a.
Arguments Raise {A} e.

(** What the code takes from Python, numpy and pandas as given.
    - [str_lower] is [str.lower], [float_str] and [timestamp_str] are
      [str] of a float and of a time stamp;
    - [rng_seed z] is [numpy.random.RandomState(z)] and
      [rng_permutation g n] is [g.permutation(n)] with the generator it
      leaves behind;
    - [to_datetime_isna xs] marks the entries of
      [pandas.to_datetime(xs, errors="coerce", infer_datetime_format=True,
      dayfirst=True)] that are [NaT];
    - [to_numeric_notna x] tells that [pandas.to_numeric(x,
      errors="coerce")] is a number;
    - [re_search p x] is [re.search(p, x) is not None] for a pattern
      given by its text (used for the patterns with [\d], which ranges
      over all decimal digits of Unicode). *)
Class Runtime : Type := {
  str_lower : string -> string;
  float_str : Q -> string;
  timestamp_str : Z -> string;
  rng : Type;
  rng_seed : Z -> rng;
  rng_permutation : rng -> nat -> list nat * rng;
  to_datetime_isna : list (option string) -> list bool;
  to_numeric_notna : option string -> bool;
  re_search : string -> string -> bool
}.

(** A run time for concrete runs: ASCII lower-casing, the permutation
    that leaves every position in place, strings of digits as the only
    numbers, texts with a digit at both ends as the only dates. *)
Definition is_digit (a : ascii) : bool :=
  ((48 <=? N_of_ascii a) && (N_of_ascii a <=? 57))%N.

Fixpoint all_digits (s : string) : bool :=
  match s with
  | EmptyString => true
  | String a s' => is_digit a && all_digits s'
  end.

Definition digits_only (s : string) : bool :=
  negb (String.eqb s "") && all_digits s.

Fixpoint last_byte (s : string) (d : ascii) : ascii :=
  match s with
  | EmptyString => d
  | String a s' => last_byte s' a
  end.

Definition digit_ends (s : string) : bool :=
  match s with
  | EmptyString => false
  | String a s' => is_digit a && is_digit (last_byte s' a)
  end.

Definition ref_runtime : Runtime := {|
  str_lower := PyStr.ascii_lower;
  float_str := fun q => PyStr.of_Z (Qnum q / Z.pos (Qden q));
  timestamp_str := PyStr.of_Z;
  rng := nat;
  rng_seed := fun z => Z.to_nat z;
  rng_permutation := fun g n => (seq 0 n, S g);
  to_datetime_isna :=
    map (fun x => match x with Some t => negb (digit_ends t) | None => true end);
  to_numeric_notna :=
    fun x => match x with Some t => digits_only t | None => false end;
  re_search := fun _ _ => false
|}.

Section Monad.
Context {RT : Runtime}.

(** One call of [sample]: the seed, the size of the population and the
    size of the sample asked for. *)
Record Draw : Type :=
  mkDraw { draw_seed : option Z; population : nat; draw_size : nat }.

(** The state outside the arguments: numpy's global generator, and the
    calls of [sample] so far, kept to state what the code draws. *)
Record World : Type := mkWorld { np_random : rng; draws : list Draw }.

Definition M (A : Type) : Type := World -> outcome A * World.

Definition ret {A} (a : A) : M A := fun w => (Ok a, w).

Definition raise {A} (e : exn) : M A := fun w => (Raise e, w).

Definition bind {A B} (m : M A) (k : A -> M B) : M B :=
  fun w =>
    match m w with
    | (Ok a, w') => k a w'
    | (Raise e, w') => (Raise e, w')
    end.

(** [try: m  except Exception: h] *)
Definition try_except {A} (m : M A) (h : M A) : M A :=
  fun w =>
    match m w with
    | (Ok a, w') => (Ok a, w')
    | (Raise _, w') => h w'
    end.

Definition lift {A} (o : outcome A) : M A := fun w => (o, w).

(** [for x in xs: acc = body(acc, x)] *)
Fixpoint for_each {A B} (xs : list A) (acc : B) (body : B -> A -> M B)
  : M B :=
  match xs with
  | [] => ret acc
  | x :: xs' => bind (body acc x) (fun acc' => for_each xs' acc' body)
  end.

Fixpoint take_positions {A} (xs : list A) (ps : list nat)
  : option (list A) :=
  match ps with
  | [] => Some []
  | p :: ps' =>
      match nth_error xs p, take_positions xs ps' with
      | Some x, Some ys => Some (x :: ys)
      | _, _ => None
      end
  end.

(** [xs.sample(n, random_state=rs)]: the first [n] entries of a
    permutation of the positions, drawn from a generator seeded with
    [rs], or from the global one when [rs] is [None]. *)
Definition sample {A} (xs : list A) (n : nat) (random_state : option Z)
  : M (list A) :=
  fun w =>
    let log := (draws w ++ [mkDraw random_state (List.length xs) n])%list in
    if (List.length xs <? n)%nat
    then (Raise ValueError, mkWorld (np_random w) log)
    else
      let '(perm, g) :=
        match random_state with
        | Some z =>
            (fst (rng_permutation (rng_seed z) (List.length xs)),
             np_random w)
        | None => rng_permutation (np_random w) (List.length xs)
        end in
      match take_positions xs (firstn n perm) with
      | Some ys => (Ok ys, mkWorld g log)
      | None => (Raise IndexError, mkWorld g log)
      end.
End Monad.

Declare Scope py_scope.
Notation "x <- m ;; k" := (bind m (fun x => k))
  (at level 61, m at next level, right associativity) : py_scope.

End Py.

(** ** pandas: cells, series, frames *)

Module Pandas.
Import Py.

(** A non-null cell. A float is finite and stands for its exact value. *)
Inductive value : Type :=
| VInt (z : Z)
| VFloat (q : Q)
| VBool (b : bool)
| VStr (s : string)
| VDate (t : Z).

(** [None] is the null marker: [NaN], [None], [NaT] or [pd.NA]. A
    column holds one kind of null, as in a table read from a file or
    cleaned; columns that mix the kinds are not told apart. *)
Definition cell : Type := option value.

Inductive Dtype : Type :=
| int64 | float64 | bool_ | datetime64 | object_ | string_.

Record Series : Type := mkSeries { dtype : Dtype; values : list cell }.

(** Columns in order, with their labels; [nrows] is the length of the
    index. *)
Record DataFrame : Type :=
  mkFrame { nrows : nat; columns : list (string * Series) }.

(** Every column has one cell per row. *)
Definition well_formed (df : DataFrame) : Prop :=
  Forall (fun c => List.length (values (snd c)) = nrows df) (columns df).

Definition labels (df : DataFrame) : list string := map fst (columns df).

(** [str(s.dtype)] *)
Definition dtype_name (d : Dtype) : string :=
  match d with
  | int64 => "int64"
  | float64 => "float64"
  | bool_ => "bool"
  | datetime64 => "datetime64[ns]"
  | object_ => "object"
  | string_ => "string"
  end.

(** [type(x).__name__] *)
Definition type_name (v : value) : string :=
  match v with
  | VInt _ => "int"
  | VFloat _ => "float"
  | VBool _ => "bool"
  | VStr _ => "str"
  | VDate _ => "Timestamp"
  end.

Definition isna (c : cell) : bool :=
  match c with None => true | Some _ => false end.

Definition notna (c : cell) : bool := negb (isna c).

(** [df[label]] is a series when the label names one column, and a frame
    of all the columns of that name otherwise. *)
Inductive selection : Type :=
| SelSeries (s : Series)
| SelFrame (n : nat) (cols : list Series).

Definition getitem (df : DataFrame) (label : string) : selection :=
  match filter (fun c => String.eqb (fst c) label) (columns df) with
  | [c] => SelSeries (snd c)
  | cs => SelFrame (nrows df) (map snd cs)
  end.

(** [df[label] = s] for a label that names one column. *)
Definition setitem (df : DataFrame) (label : string) (s : Series)
  : DataFrame :=
  mkFrame (nrows df)
    (map (fun c => if String.eqb (fst c) label then (fst c, s) else c)
         (columns df)).

(** [df.columns = new_labels] *)
Definition set_labels (df : DataFrame) (f : string -> string) : DataFrame :=
  mkFrame (nrows df) (map (fun c => (f (fst c), snd c)) (columns df)).

Definition row (cols : list Series) (i : nat) : list cell :=
  map (fun s => nth i (values s) None) cols.

Definition rows_of (n : nat) (cols : list Series) : list (list cell) :=
  map (row cols) (seq 0 n).

Definition rows (df : DataFrame) : list (list cell) :=
  rows_of (nrows df) (map snd (columns df)).

(** [s.dropna()] for a series and for a frame (a row goes when one of its
    cells is null). *)
Definition dropna (s : Series) : Series :=
  mkSeries (dtype s) (filter notna (values s)).

Definition frame_dropna (n : nat) (cols : list Series)
  : list (list cell) :=
  filter (forallb notna) (rows_of n cols).

(** The values of the cells that are not null. *)
Definition present (cs : list cell) : list value :=
  flat_map (fun c => match c with Some v => [v] | None => [] end) cs.

(** Equality of cells as the hash tables of pandas see it: numbers by
    value across [int], [float] and [bool], nulls equal to each other
    (the nulls of a column being of one kind). *)
Definition num_of (v : value) : option Q :=
  match v with
  | VInt z => Some (inject_Z z)
  | VFloat q => Some q
  | VBool b => Some (inject_Z (if b then 1 else 0))
  | VStr _ | VDate _ => None
  end.

Definition py_eq (v w : value) : bool :=
  match num_of v, num_of w with
  | Some a, Some b => Qeq_bool a b
  | None, None =>
      match v, w with
      | VStr a, VStr b => String.eqb a b
      | VDate a, VDate b => Z.eqb a b
      | _, _ => false
      end
  | _, _ => false
  end.

Definition cell_eq (c d : cell) : bool :=
  match c, d with
  | None, None => true
  | Some v, Some w => py_eq v w
  | _, _ => false
  end.

Fixpoint row_eq (r s : list cell) : bool :=
  match r, s with
  | [], [] => true
  | c :: r', d :: s' => cell_eq c d && row_eq r' s'
  | _, _ => false
  end.

(** [df.empty] *)
Definition empty (df : DataFrame) : bool :=
  (nrows df =? 0)%nat || (List.length (columns df) =? 0)%nat.

(** Marks every row that equals a row before it. *)
Fixpoint dup_mask (seen rs : list (list cell)) : list bool :=
  match rs with
  | [] => []
  | r :: rs' => existsb (row_eq r) seen :: dup_mask (seen ++ [r])%list rs'
  end.

(** [df.duplicated()] *)
Definition duplicated (df : DataFrame) : list bool :=
  if empty df then [] else dup_mask [] (rows df).

Definition count_true (bs : list bool) : nat :=
  List.length (filter (fun b => b) bs).

(** The positions a boolean mask selects. *)
Definition positions (mask : list bool) : list nat :=
  map fst
    (filter (fun p => snd p) (combine (seq 0 (List.length mask)) mask)).

(** [df[mask]]: the rows at the selected positions, in order. *)
Definition take_rows (df : DataFrame) (ps : list nat) : DataFrame :=
  mkFrame (List.length ps)
    (map (fun c =>
            (fst c,
             mkSeries (dtype (snd c))
                      (map (fun i => nth i (values (snd c)) None) ps)))
         (columns df)).

(** [df.drop_duplicates()] *)
Definition drop_duplicates (df : DataFrame) : DataFrame :=
  if empty df then df
  else take_rows df (positions (map negb (duplicated df))).

(** [s.nunique(dropna=True)] *)
Fixpoint distinct (seen vs : list value) : list value :=
  match vs with
  | [] => seen
  | v :: vs' =>
      if existsb (py_eq v) seen then distinct seen vs'
      else distinct (seen ++ [v])%list vs'
  end.

Definition nunique (s : Series) : nat :=
  List.length (distinct [] (present (values s))).

(** [float(bs.mean())] of a boolean series: [nan] when it is empty. *)
Definition mean (bs : list bool) : Float.float :=
  Float.div (Float.of_nat (count_true bs)) (Float.of_nat (List.length bs)).

(** Predicates of [pd.api.types]; a frame is of none of these types. *)
Definition is_object_dtype (x : selection) : bool :=
  match x with
  | SelSeries s => match dtype s with object_ => true | _ => false end
  | SelFrame _ _ => false
  end.

Definition is_str_cell (c : cell) : bool :=
  match c with Some (VStr _) => true | _ => false end.

Definition is_string_dtype (x : selection) : bool :=
  match x with
  | SelSeries s =>
      match dtype s with
      | string_ => true
      | object_ => forallb is_str_cell (values s)
      | _ => false
      end
  | SelFrame _ _ => false
  end.

Definition is_numeric_dtype (x : selection) : bool :=
  match x with
  | SelSeries s =>
      match dtype s with
      | int64 | float64 | bool_ => true
      | _ => false
      end
  | SelFrame _ _ => false
  end.

Definition is_datetime64_any_dtype (x : selection) : bool :=
  match x with
  | SelSeries s => match dtype s with datetime64 => true | _ => false end
  | SelFrame _ _ => false
  end.

(** Order of the values of a numeric or datetime column. *)
Definition value_leb (v w : value) : bool :=
  match num_of v, num_of w with
  | Some a, Some b => Qle_bool a b
  | _, _ =>
      match v, w with
      | VDate a, VDate b => (a <=? b)%Z
      | _, _ => false
      end
  end.

(** [s.min(skipna=True)] and [s.max(skipna=True)]; null on an empty or
    all-null column. *)
Definition series_min (s : Series) : cell :=
  match present (values s) with
  | [] => None
  | v :: vs =>
      Some (fold_left (fun m x => if value_leb m x then m else x) vs v)
  end.

Definition series_max (s : Series) : cell :=
  match present (values s) with
  | [] => None
  | v :: vs =>
      Some (fold_left (fun m x => if value_leb x m then m else x) vs v)
  end.

(** A series of dtype [string]: text or [pd.NA]. *)
Definition StringSeries : Type := list (option string).

Definition of_strings (xs : StringSeries) : Series :=
  mkSeries string_ (map (option_map VStr) xs).

Section WithRuntime.
Context {RT : Runtime}.

(** [str(x)] *)
Definition str_of_value (v : value) : string :=
  match v with
  | VInt z => PyStr.of_Z z
  | VFloat q => float_str q
  | VBool b => if b then "True" else "False"
  | VStr s => s
  | VDate t => timestamp_str t
  end.

(** [s.astype("string")] *)
Definition astype_string (vs : list cell) : StringSeries :=
  map (option_map str_of_value) vs.
End WithRuntime.

(** [s.str.strip()] *)
Definition str_strip (xs : StringSeries) : StringSeries :=
  map (option_map PyStr.strip) xs.

(** [s.replace({k: pd.NA for k in keys})] *)
Definition replace_with_na (keys : list string) (xs : StringSeries)
  : StringSeries :=
  map (fun x =>
         match x with
         | Some t => if existsb (String.eqb t) keys then None else Some t
         | None => None
         end) xs.

(** [s.fillna(d)] *)
Definition fillna (d : string) (xs : StringSeries) : list string :=
  map (fun x => match x with Some t => t | None => d end) xs.

End Pandas.

(** ** inspector/cleaning.py *)

Module Cleaning.
Import Py Pandas.

Section WithRuntime.
Context {RT : Runtime}.

(** The keys of the replacement table of [safe_clean_dataframe]. *)
Definition NA_KEYS : list string := [""; "na"; "n/a"; "null"; "none"].

(** What the three assignments to [out[col]] leave in the column:
    [astype("string")], then [str.strip()], then [replace]. *)
Definition clean_column (s : Series) : Series :=
  of_strings
    (replace_with_na NA_KEYS (str_strip (astype_string (values s)))).

(** The body of the loop over [out.columns]. *)
Definition clean_step (out : DataFrame) (col : string) : DataFrame :=
  if is_object_dtype (getitem out col) || is_string_dtype (getitem out col)
  then match getitem out col with
       | SelSeries s => setitem out col (clean_column s)
       | SelFrame _ _ => out
       end
  else out.

Definition safe_clean_dataframe (df : DataFrame)
           (drop_exact_duplicates : bool) : DataFrame :=
  let out := set_labels df PyStr.strip in
  let out := fold_left clean_step (labels out) out in
  if drop_exact_duplicates then drop_duplicates out else out.
End WithRuntime.

End Cleaning.

(** ** inspector/profiling.py *)

Module Profiling.
Import Py Pandas.

(** One record of the profiling table; [null_pct] is the key ["null_%"]. *)
Record ProfileRow : Type := mkRow {
  column : string;
  dtype_str : string;
  null_pct : Float.float;
  unique_values : nat;
  cardinality : Float.float;
  min_val : cell;
  max_val : cell
}.

(** [float(s.isna().mean())] *)
Definition null_rate (s : Series) : Float.float :=
  mean (map isna (values s)).

(** [float(unique_count / len(df)) if len(df) else 0.0] *)
Definition raw_cardinality (df : DataFrame) (unique_count : nat)
  : Float.float :=
  if (nrows df =? 0)%nat then Float.of_Z 0
  else Float.div (Float.of_nat unique_count) (Float.of_nat (nrows df)).

(** The body of the loop over [df.columns]. On a frame [s.isna().mean()]
    is a series of several numbers and [float] raises. *)
Definition profile_column (df : DataFrame) (col : string)
  : outcome ProfileRow :=
  match getitem df col with
  | SelFrame _ _ => Raise TypeError
  | SelSeries s =>
      let unique_count := nunique s in
      let ranged :=
        is_numeric_dtype (SelSeries s)
        || is_datetime64_any_dtype (SelSeries s) in
      Ok {| column := col;
            dtype_str := dtype_name (dtype s);
            null_pct :=
              Float.py_round (Float.mul (null_rate s) (Float.of_Z 100)) 2;
            unique_values := unique_count;
            cardinality :=
              Float.py_round (raw_cardinality df unique_count) 3;
            min_val := if ranged then series_min s else Some (VStr "");
            max_val := if ranged then series_max s else Some (VStr "") |}
  end.

Fixpoint collect {A B} (f : A -> outcome B) (xs : list A)
  : outcome (list B) :=
  match xs with
  | [] => Ok []
  | x :: xs' =>
      match f x with
      | Raise e => Raise e
      | Ok y =>
          match collect f xs' with
          | Raise e => Raise e
          | Ok ys => Ok (y :: ys)
          end
      end
  end.

(** The records in the order of the columns, as the loop appends them
    to [rows]. The table [pd.DataFrame(rows)], read back in app.py by
    [to_dict(orient="records")], returns these records, except that a
    column ["min"] or ["max"] that holds numbers only is given one
    numeric type; [min_val] and [max_val] keep the values as the loop
    computed them. *)
Definition build_column_profile (df : DataFrame)
  : outcome (list ProfileRow) :=
  collect (profile_column df) (labels df).

End Profiling.

(** ** inspector/rules.py *)

Module Rules.
Import Py Pandas Profiling Re.
Local Open Scope py_scope.

Record Issue : Type := mkIssue {
  severity : string;
  title : string;
  details : string;
  suggestion : string
}.

Definition letters : list cls_item := [Rng "A" "Z"; Rng "a" "z"].
Definition digits : list cls_item := [Rng "0" "9"].

(** [^[A-Za-z0-9._%+\-]+@[A-Za-z0-9.\-]+\.[A-Za-z]{2,}$], the part
    between the anchors. *)
Definition EMAIL_REGEX : regex :=
  Seq (Plus (Class (letters ++ digits
                      ++ [Chr "."; Chr "_"; Chr "%"; Chr "+"; Chr "-"])%list))
    (Seq (Class [Chr "@"])
       (Seq (Plus (Class (letters ++ digits ++ [Chr "."; Chr "-"])%list))
          (Seq (Class [Chr "."]) (AtLeast 2 (Class letters))))).

(** [[-/:\.]] *)
Definition DATE_SEPARATOR : regex := Class [Chr "-"; Chr "/"; Chr ":"; Chr "."].

(** The seed every call of [sample] is given. *)
Definition SEED : Z := 42.

(** The default of [sample_size] in [infer_mixed_types]. *)
Definition DEFAULT_SAMPLE_SIZE : nat := 200.

(** The texts of a string series that are not [pd.NA]; a test on a string
    series answers [pd.NA] there, and [mean] skips it. *)
Definition texts (xs : StringSeries) : list string :=
  flat_map (fun x => match x with Some t => [t] | None => [] end) xs.

(** [xs.str.contains(...).mean()] *)
Definition rate (p : string -> bool) (xs : StringSeries) : Float.float :=
  mean (map p (texts xs)).

(** [round(x * 100, 2)] as the f-strings print it. *)
Definition percent (x : Float.float) : string :=
  Float.repr2 (Float.py_round (Float.mul x (Float.of_Z 100)) 2).

Section WithRuntime.
Context {RT : Runtime}.

Definition looks_like_email_column (col_name : string) : bool :=
  let name := str_lower (PyStr.strip col_name) in
  PyStr.contains "email" name
  || PyStr.endswith name "_mail"
  || PyStr.endswith name "mail".

Definition looks_like_date_column (col_name : string) : bool :=
  let name := str_lower (PyStr.strip col_name) in
  let keywords :=
    ["date"; "fecha"; "datetime"; "timestamp"; "created"; "updated"] in
  existsb (fun k => PyStr.contains k name) keywords.

Definition looks_like_numeric_column (col_name : string) : bool :=
  let name := str_lower (PyStr.strip col_name) in
  let keywords :=
    ["price"; "amount"; "importe"; "total"; "qty"; "quantity"; "units";
     "discount"; "pct"; "percent"; "%"] in
  existsb (fun k => PyStr.contains k name) keywords.

(** [infer_mixed_types(series, sample_size)]. On a frame, [sample]
    works by rows and [tolist] does not exist. *)
Definition infer_mixed_types (series : selection) (sample_size : nat)
  : M bool :=
  match series with
  | SelSeries s0 =>
      let s := present (values (dropna s0)) in
      if (List.length s =? 0)%nat then ret false
      else
        sample_ <- sample s (Nat.min sample_size (List.length s))
                          (Some SEED) ;;
        let types := nodup string_dec (map type_name sample_) in
        ret (1 <? List.length types)%nat
  | SelFrame n cols =>
      let s := frame_dropna n cols in
      if (List.length s =? 0)%nat then ret false
      else
        _ <- sample s (Nat.min sample_size (List.length s))
                    (Some SEED) ;;
        raise AttributeError
  end.

(** The pass over [profile_rows] for primary-key candidates. *)
Definition pk_candidates (profile_rows : list ProfileRow) : list string :=
  map column
    (filter (fun r =>
               Float.leb (null_pct r) (Float.of_Z 1)
               && Float.leb (Float.lit 98 2) (cardinality r)
               && (1 <? unique_values r)%nat)
            profile_rows).

Definition pk_issues (profile_rows : list ProfileRow) : list Issue :=
  match pk_candidates profile_rows with
  | [] => []
  | cs =>
      [mkIssue "info" "Potential primary key columns detected"
         ("Almost-unique with low nulls: " ++ PyStr.join ", " cs)
         "Use one as a primary key (or combine multiple columns if needed)."]
  end.

(** [int(df.duplicated().sum())] *)
Definition dup_count (df : DataFrame) : nat := count_true (duplicated df).

Definition duplicate_issues (df : DataFrame) : list Issue :=
  if (0 <? dup_count df)%nat
  then [mkIssue "warning" "Duplicate rows detected"
          ("Found " ++ PyStr.of_nat (dup_count df)
             ++ " exact duplicate rows.")
          "Inspect duplicates; deduplicate or define a reliable key strategy."]
  else [].

Definition high_null_cols (profile_rows : list ProfileRow)
  : list (string * Float.float) :=
  map (fun r => (column r, null_pct r))
      (filter (fun r => Float.leb (Float.of_Z 20) (null_pct r))
              profile_rows).

(** [sorted(xs, key=key)]: stable, by [<] on the keys. *)
Fixpoint insert_by {A} (key : A -> Float.float) (x : A) (l : list A)
  : list A :=
  match l with
  | [] => [x]
  | e :: l' =>
      if Float.ltb (key x) (key e) then x :: l
      else e :: insert_by key x l'
  end.

Definition sorted_by {A} (key : A -> Float.float) (xs : list A)
  : list A :=
  fold_left (fun acc x => insert_by key x acc) xs [].

Definition high_null_issues (profile_rows : list ProfileRow)
  : list Issue :=
  match high_null_cols profile_rows with
  | [] => []
  | cs =>
      let formatted :=
        PyStr.join ", "
          (map (fun x => fst x ++ " (" ++ Float.repr2 (snd x) ++ "%)")
               (sorted_by (fun x => SFopp (snd x)) cs)) in
      [mkIssue "warning" "High missing values"
         ("Columns with ≥20% nulls: " ++ formatted)
         "Decide whether to impute, drop, or treat as optional. Validate upstream source if unexpected."]
  end.

(** The loop that fills [mixed_cols]: the call is inside [try], and
    [except Exception: pass] leaves the list as it was. *)
Definition mixed_body (df : DataFrame) (mixed_cols : list string)
           (col : string) : M (list string) :=
  try_except
    (b <- infer_mixed_types (getitem df col) DEFAULT_SAMPLE_SIZE ;;
     ret (if b then (mixed_cols ++ [col])%list else mixed_cols))
    (ret mixed_cols).

Definition mixed_columns (df : DataFrame) : M (list string) :=
  for_each (labels df) [] (mixed_body df).

Definition mixed_issues (mixed_cols : list string) : list Issue :=
  match mixed_cols with
  | [] => []
  | cs =>
      [mkIssue "critical" "Mixed types detected"
         ("Columns likely contain mixed Python types: "
            ++ PyStr.join ", " cs)
         "Standardize formats and cast types. Mixed-type columns frequently break pipelines."]
  end.

(** The body of the loop of [detect_email_issues]. On a frame the
    accessor [.str] does not exist. *)
Definition email_body (df : DataFrame) (issues : list Issue)
           (col : string) : M (list Issue) :=
  if negb (looks_like_email_column col) then ret issues
  else
    match getitem df col with
    | SelFrame n cols =>
        if (List.length (frame_dropna n cols) =? 0)%nat then ret issues
        else raise AttributeError
    | SelSeries s0 =>
        let s := dropna s0 in
        if (List.length (values s) =? 0)%nat then ret issues
        else
          let s_str := str_strip (astype_string (values s)) in
          sample_ <- sample s_str (Nat.min 2000 (List.length s_str))
                            (Some SEED) ;;
          let invalid_mask :=
            map (fun x => negb (match_anchored EMAIL_REGEX x))
                (fillna "" sample_) in
          let invalid_rate := mean invalid_mask in
          if Float.leb (Float.lit 5 2) invalid_rate
          then ret (issues ++
               [mkIssue "warning" ("Invalid emails in `" ++ col ++ "`")
                  ("~" ++ percent invalid_rate
                       ++ "% of sampled values look invalid.")
                  "Trim whitespace and validate formatting upstream. Consider rejecting invalid addresses at ingestion."])%list
          else ret issues
    end.

Definition detect_email_issues (df : DataFrame) : M (list Issue) :=
  for_each (labels df) [] (email_body df).

(** The body of the loop of [detect_date_parse_issues]. *)
Definition date_body (df : DataFrame) (issues : list Issue)
           (col : string) : M (list Issue) :=
  if negb (looks_like_date_column col) then ret issues
  else
    match getitem df col with
    | SelFrame n cols =>
        if (List.length (frame_dropna n cols) =? 0)%nat then ret issues
        else if is_datetime64_any_dtype (getitem df col) then ret issues
        else raise AttributeError
    | SelSeries s0 =>
        let s := dropna s0 in
        if (List.length (values s) =? 0)%nat then ret issues
        else if is_datetime64_any_dtype (getitem df col) then ret issues
        else
          let s_str := str_strip (astype_string (values s)) in
          sample_ <- sample s_str (Nat.min 2000 (List.length s_str))
                            (Some SEED) ;;
          let fail_rate := mean (to_datetime_isna sample_) in
          let date_like := rate (search DATE_SEPARATOR) sample_ in
          if Float.leb (Float.lit 4 1) date_like
             && Float.leb (Float.lit 2 1) fail_rate
          then ret (issues ++
               [mkIssue "warning" ("Date parsing issues in `" ++ col ++ "`")
                  ("~" ++ percent fail_rate
                       ++ "% of sampled values failed parsing.")
                  "Standardize dates (ISO 8601). Avoid mixing formats and ensure consistent timezone handling."])%list
          else ret issues
    end.

Definition detect_date_parse_issues (df : DataFrame) : M (list Issue) :=
  for_each (labels df) [] (date_body df).

Definition currency_symbols : list string := ["€"; "$"; "£"].

(** The chain of [str.replace] that builds [cleaned]. *)
Definition numeric_cleanup (x : string) : string :=
  let x := fold_left (fun acc sym => PyStr.remove_all sym acc)
                     currency_symbols x in
  let x := PyStr.remove_all "%" x in
  let x := PyStr.remove_all " " x in
  PyStr.replace_char "," "." (PyStr.remove_all "." x).

(** The body of the loop of [detect_numeric_as_text_issues]. *)
Definition numeric_body (df : DataFrame) (issues : list Issue)
           (col : string) : M (list Issue) :=
  if negb (looks_like_numeric_column col) then ret issues
  else
    match getitem df col with
    | SelFrame n cols =>
        if (List.length (frame_dropna n cols) =? 0)%nat then ret issues
        else if is_numeric_dtype (getitem df col) then ret issues
        else raise AttributeError
    | SelSeries s0 =>
        let s := dropna s0 in
        if (List.length (values s) =? 0)%nat then ret issues
        else if is_numeric_dtype (getitem df col) then ret issues
        else
          let s_str := str_strip (astype_string (values s)) in
          sample_ <- sample s_str (Nat.min 2000 (List.length s_str))
                            (Some SEED) ;;
          let has_currency :=
            existsb (fun sym =>
                       Float.ltb (Float.lit 5 2)
                                 (rate (PyStr.contains sym) sample_))
                    currency_symbols in
          let has_percent :=
            Float.ltb (Float.lit 5 2) (rate (PyStr.contains "%") sample_) in
          let has_eu_number :=
            Float.ltb (Float.lit 10 2)
              (rate (re_search "\d{1,3}(\.\d{3})+(,\d{1,2})?$") sample_)
            || Float.ltb (Float.lit 10 2)
                 (rate (re_search "\d+,\d{1,2}$") sample_) in
          let cleaned := map (option_map numeric_cleanup) sample_ in
          let success := mean (map to_numeric_notna cleaned) in
          if Float.leb (Float.lit 6 1) success
             && (has_currency || has_percent || has_eu_number)
          then
            let hints :=
              ((if has_currency then ["currency symbols"] else [])
               ++ (if has_percent then ["percent signs"] else [])
               ++ (if has_eu_number then ["EU number formatting"] else []))%list in
            ret (issues ++
               [mkIssue "warning" ("Numeric-as-text in `" ++ col ++ "`")
                  ("Detected " ++ PyStr.join ", " hints ++ ". ~"
                     ++ percent success
                     ++ "% could be parsed after cleaning.")
                  "Normalize symbols/separators and cast to numeric types to avoid downstream bugs."])%list
          else ret issues
    end.

Definition detect_numeric_as_text_issues (df : DataFrame)
  : M (list Issue) :=
  for_each (labels df) [] (numeric_body df).

Definition detect_issues (df : DataFrame)
           (profile_rows : list ProfileRow) : M (list Issue) :=
  let issues :=
    (pk_issues profile_rows ++ duplicate_issues df
       ++ high_null_issues profile_rows)%list in
  mixed_cols <- mixed_columns df ;;
  let issues := (issues ++ mixed_issues mixed_cols)%list in
  email <- detect_email_issues df ;;
  date <- detect_date_parse_issues df ;;
  numeric <- detect_numeric_as_text_issues df ;;
  ret (issues ++ email ++ date ++ numeric)%list.
End WithRuntime.

End Rules.

(** ** The report of app.py *)

Module App.
Import Py Pandas Profiling Rules.
Local Open Scope py_scope.

Record Dataset : Type := mkDataset {
  rows_total : nat;
  columns_total : nat;
  missing_cells_total : nat;
  duplicate_rows_total : nat
}.

Record Report : Type := mkReport {
  dataset : Dataset;
  profile : list ProfileRow;
  issues : list Issue
}.

(** [int(df.isna().sum().sum())] *)
Definition missing_cells (df : DataFrame) : nat :=
  list_sum
    (map (fun c => count_true (map isna (values (snd c)))) (columns df)).

(** The dictionary [report] of the block under "Run inspection". *)
Definition build_report (df : DataFrame) (profile_rows : list ProfileRow)
           (found : list Issue) : Report :=
  {| dataset :=
       {| rows_total := nrows df;
          columns_total := List.length (columns df);
          missing_cells_total := missing_cells df;
          duplicate_rows_total := count_true (duplicated df) |};
     profile := profile_rows;
     issues := found |}.

(** The dictionary [groups] of the issues tab, its three lists in the
    order of the keys. *)
Record Groups : Type := mkGroups {
  critical : list Issue;
  warning : list Issue;
  info : list Issue
}.

(** The body of the loop over [issues]: a severity that is no key of
    [groups] counts as "info". *)
Definition group_step (groups : Groups) (it : Issue) : Groups :=
  let sev := severity it in
  let sev :=
    if existsb (String.eqb sev) ["critical"; "warning"; "info"]
    then sev else "info" in
  if String.eqb sev "critical"
  then mkGroups (critical groups ++ [it])%list (warning groups) (info groups)
  else if String.eqb sev "warning"
  then mkGroups (critical groups) (warning groups ++ [it])%list (info groups)
  else mkGroups (critical groups) (warning groups) (info groups ++ [it])%list.

Definition group_issues (found : list Issue) : Groups :=
  fold_left group_step found (mkGroups [] [] []).

Section WithRuntime.
Context {RT : Runtime}.

(** Profile, then rules, then the report. *)
Definition run_inspection (df : DataFrame) : M Report :=
  profile_rows <- lift (build_column_profile df) ;;
  found <- detect_issues df profile_rows ;;
  ret (build_report df profile_rows found).
End WithRuntime.

End App.

(** * Notions of the statements and proofs *)

Unset Implicit Arguments.
Local Close Scope Z_scope.
Import Py Pandas Cleaning Profiling Rules App Re.

(** ** Tables for concrete runs *)

Module Examples.

(** A world for the reference run time. *)
Definition w0 : @World ref_runtime := @mkWorld ref_runtime 0%nat [].

Definition text_column (l : list string) : Series :=
  mkSeries object_ (map (fun s => Some (VStr s)) l).

(** One text cell, "NA" in upper case. *)
Definition upper_na_table : DataFrame :=
  mkFrame 1 [("status", text_column ["NA"])].


(** Two columns of the same name. *)
Definition twin_email_table : DataFrame :=
  mkFrame 1 [("email", text_column ["a@b.co"]);
             ("email", text_column ["c@d.co"])].

(** A header and no row. *)
Definition header_only_table : DataFrame :=
  mkFrame 0 [("a", mkSeries object_ [])].

(** Two rows that differ by a trailing blank. *)
Definition padded_table : DataFrame :=
  mkFrame 2 [("name", text_column ["a"; "a "])].

(** A float column of [nulls] nulls followed by [present_] ones. *)
Definition partly_null (nulls present_ : Z) : Series :=
  mkSeries float64
    (repeat None (Z.to_nat nulls)
       ++ repeat (Some (VFloat 1)) (Z.to_nat present_))%list.

(** 3999 nulls in 20000 rows: a null rate of 0.19995. *)
Definition sparse_table : DataFrame :=
  mkFrame (Z.to_nat 20000) [("x", partly_null 3999 16001)].

(** 800 nulls in 4001 rows: a null rate just under 0.19996. *)
Definition thin_table : DataFrame :=
  mkFrame (Z.to_nat 4001) [("x", partly_null 800 3201)].

(** 1959 distinct values in 2000 rows: a cardinality of 0.9795. *)
Definition near_unique_table : DataFrame :=
  mkFrame 2000
    [("id", mkSeries int64
              (map (fun i => Some (VInt (Z.of_nat (Nat.min i 1958))))
                   (seq 0 2000)))].

(** Four contacts, the last a copy of the first. *)
Definition contacts_emails : Series :=
  text_column ["a@b.co"; " x@y.org "; "bad"; "a@b.co"].

Definition contacts_table : DataFrame :=
  mkFrame 4
    [("email", contacts_emails);
     ("n", mkSeries int64
             [Some (VInt 1); Some (VInt 2); Some (VInt 3); Some (VInt 1)])].

(** Their profile, the issues found and the world after the rules. *)
Definition contacts_profile : list ProfileRow :=
  match build_column_profile contacts_table with
  | Ok rows => rows
  | Raise _ => []
  end.

Definition contacts_issues : list Issue :=
  match fst (detect_issues (RT := ref_runtime)
               contacts_table contacts_profile w0) with
  | Ok found => found
  | Raise _ => []
  end.

Definition contacts_world : @World ref_runtime :=
  snd (detect_issues (RT := ref_runtime) contacts_table contacts_profile w0).

(** The draw of the e-mail detector on the contacts. *)
Definition email_draw : Draw := mkDraw (Some 42%Z) 4 4.

End Examples.

Import Examples.

(** ** More concrete runs *)

Module Cases.
Import Examples.

(** The report on the contacts. *)
Definition contacts_report : Report :=
  build_report contacts_table contacts_profile contacts_issues.

(** The profile of the table with the one cell "NA". *)
Definition status_profile : list ProfileRow :=
  match build_column_profile upper_na_table with
  | Ok rows => rows
  | Raise _ => []
  end.

(** The profile of the table without rows. *)
Definition header_profile : list ProfileRow :=
  match build_column_profile header_only_table with
  | Ok rows => rows
  | Raise _ => []
  end.

(** The column "n" of the contacts and the record the profile loop
    fills for it. *)
Definition contacts_counts : Series :=
  mkSeries int64
    [Some (VInt 1); Some (VInt 2); Some (VInt 3); Some (VInt 1)].

Definition counts_record : ProfileRow :=
  match profile_column contacts_table "n" with
  | Ok r => r
  | Raise _ => mkRow "" "" Float.nan 0 Float.nan None None
  end.

(** A price as a European text writes it. *)
Definition price_text : string := "1.234,56 $".

End Cases.

Import Cases.

(** No white space stands at the front of [l]. *)
Definition stuck (back : bool) (l : list ascii) : Prop :=
  match l with
  | [] => True
  | a :: l1 =>
      PyStr.ws1 a = false
      /\ match l1 with
         | [] => True
         | b :: l2 =>
             (if back then PyStr.ws2 b a else PyStr.ws2 a b) = false
             /\ match l2 with
                | [] => True
                | c :: _ =>
                    (if back then PyStr.ws3 c b a else PyStr.ws3 a b c) = false
                end
         end
  end.

(** [strip] on lists of bytes. *)
Definition strip_list (l : list ascii) : list ascii :=
  rev (PyStr.drop_ws true (rev (PyStr.drop_ws false l))).

(** A list of white space only, read in the direction [back]. *)
Inductive Blank (back : bool) : list ascii -> Prop :=
| Blank0 : Blank back []
| Blank1 a l : PyStr.ws1 a = true -> Blank back l -> Blank back (a :: l)
| Blank2 a b l :
    PyStr.ws1 a = false ->
    (if back then PyStr.ws2 b a else PyStr.ws2 a b) = true ->
    Blank back l -> Blank back (a :: b :: l)
| Blank3 a b c l :
    PyStr.ws1 a = false ->
    (if back then PyStr.ws2 b a else PyStr.ws2 a b) = false ->
    (if back then PyStr.ws3 c b a else PyStr.ws3 a b c) = true ->
    Blank back l -> Blank back (a :: b :: c :: l).

(** A byte below 128 that is not white space. *)
Definition plain (a : ascii) : Prop :=
  PyStr.ws1 a = false /\ (PyStr.code a < 128)%N.

(** The words of [c*] and of [c{n,}] are made of bytes of the class. *)
Fixpoint all_in (c : list cls_item) (s : string) : bool :=
  match s with
  | EmptyString => true
  | String a s' => in_cls a c && all_in c s'
  end.

(** The columns of label [l]. *)
Definition named (l : string) (cols : list (string * Series))
  : list (string * Series) :=
  filter (fun c => String.eqb (fst c) l) cols.

(** The label [l] names one column. *)
Definition single (ls : list string) (l : string) : bool :=
  (List.length (filter (String.eqb l) ls) =? 1)%nat.

(** The dtypes whose columns the cleaner rewrites. *)
Definition is_text (d : Dtype) : bool :=
  match d with
  | object_ | string_ => true
  | _ => false
  end.

(** The entries of [xs] a mask selects. *)
Fixpoint pick {A : Type} (m : list bool) (xs : list A) : list A :=
  match m, xs with
  | b :: m', x :: xs' => if b then x :: pick m' xs' else pick m' xs'
  | _, _ => []
  end.

(** The record [build_column_profile] makes for a column that its label
    names alone. *)
Definition row_of (df : DataFrame) (c : string * Series) : ProfileRow :=
  let ranged :=
    is_numeric_dtype (SelSeries (snd c))
    || is_datetime64_any_dtype (SelSeries (snd c)) in
  {| column := fst c;
     dtype_str := dtype_name (dtype (snd c));
     null_pct :=
       Float.py_round (Float.mul (null_rate (snd c)) (Float.of_Z 100)) 2;
     unique_values := nunique (snd c);
     cardinality := Float.py_round (raw_cardinality df (nunique (snd c))) 3;
     min_val := if ranged then series_min (snd c) else Some (VStr "");
     max_val := if ranged then series_max (snd c) else Some (VStr "") |}.

(** A draw with the seed of the rules and a size capped at [cap]. *)
Definition capped (cap : nat) (d : Draw) : Prop :=
  draw_seed d = Some SEED /\ draw_size d = Nat.min cap (population d).

(** A draw of one of the detectors. *)
Definition rule_draw (d : Draw) : Prop :=
  capped DEFAULT_SAMPLE_SIZE d \/ capped 2000 d.

(** The title of the issue of the duplicate-rows detector. *)
Definition DUP_TITLE : string := "Duplicate rows detected".

(** No issue of the list carries the title of the duplicate-rows issue. *)
Definition no_dup_title (l : list Issue) : Prop :=
  Forall (fun i => title i <> DUP_TITLE) l.

(** A cell as the cleaner leaves it in a text column: null, or a trimmed
    text that is none of the keys. *)
Definition tidy_cell (c : cell) : Prop :=
  match c with
  | None => True
  | Some (VStr t) =>
      PyStr.strip t = t /\ existsb (String.eqb t) NA_KEYS = false
  | Some _ => False
  end.

(** The columns a detector looks into: the name passes the test of the
    detector, the column has a cell that is not null, and its dtype is
    not the one the detector leaves alone. *)
Definition scanned (looks : string -> bool) (typed : selection -> bool)
           (df : DataFrame) (col : string) : bool :=
  looks col
  && negb (match getitem df col with
           | SelSeries s => (List.length (values (dropna s)) =? 0)%nat
           | SelFrame n cols => (List.length (frame_dropna n cols) =? 0)%nat
           end)
  && negb (typed (getitem df col)).

(** The issue a detector files for the column [col]: a warning whose title
    is [prefix] followed by the name between back quotes. *)
Definition warns_about (prefix col : string) (i : Issue) : Prop :=
  severity i = "warning" /\ title i = prefix ++ col ++ "`".

(** The severity of the issue [i] is [s]. *)
Definition is_sev (s : string) (i : Issue) : bool := String.eqb (severity i) s.

(** The class of the local part. *)
Definition LOCAL : list cls_item :=
  (letters ++ digits ++ [Chr "."; Chr "_"; Chr "%"; Chr "+"; Chr "-"])%list.

(** The class of the domain. *)
Definition DOMAIN : list cls_item :=
  (letters ++ digits ++ [Chr "."; Chr "-"])%list.

(** A local part, "@", a domain, ".", and two letters or more. *)
Definition address (w : string) : Prop :=
  exists loc dom tld,
    w = loc ++ "@" ++ dom ++ "." ++ tld
    /\ loc <> "" /\ all_in LOCAL loc = true
    /\ dom <> "" /\ all_in DOMAIN dom = true
    /\ (2 <= String.length tld)%nat /\ all_in letters tld = true.

(** Every byte of [s] is below 128. *)
Definition is_ascii (s : string) : bool :=
  forallb (fun c => (N_of_ascii c <? 128)%N) (list_ascii_of_string s).

(** The bytes that the clean-up drops from a text of ASCII. *)
Definition dropped (c : ascii) : bool :=
  existsb (Ascii.eqb c) ["$"; "%"; " "; "."]%char.

(** What the clean-up makes of a byte it keeps. *)
Definition comma_to_dot (c : ascii) : ascii :=
  if Ascii.eqb c "," then "."%char else c.

Section Notions.
Context {RT : Runtime}.

(** What the three assignments make of one cell. *)
Definition clean_cell (c : cell) : cell :=
  match c with
  | None => None
  | Some v =>
      let t := PyStr.strip (str_of_value v) in
      if existsb (String.eqb t) NA_KEYS then None else Some (VStr t)
  end.

(** The entry the loop of [safe_clean_dataframe] leaves for a column. *)
Definition clean_entry (ls : list string) (c : string * Series)
  : string * Series :=
  if single ls (fst c) && is_text (dtype (snd c))
  then (fst c, clean_column (snd c))
  else c.

(** The table before duplicates are dropped. *)
Definition cleaned_frame (df : DataFrame) : DataFrame :=
  let out := set_labels df PyStr.strip in
  mkFrame (nrows df) (map (clean_entry (labels out)) (columns out)).

(** [m] has one outcome whatever the world, leaves the global generator
    as it was, and makes the same draws, each of them in [P]. *)
Definition runs {A : Type} (P : Draw -> Prop) (m : M A) : Prop :=
  exists (r : outcome A) (ds : list Draw),
    Forall P ds
    /\ forall w, m w = (r, mkWorld (np_random w) (draws w ++ ds)%list).

(** The same, and the outcome is not an exception. *)
Definition returns {A : Type} (P : Draw -> Prop) (m : M A) : Prop :=
  exists (a : A) (ds : list Draw),
    Forall P ds
    /\ forall w, m w = (Ok a, mkWorld (np_random w) (draws w ++ ds)%list).

End Notions.

(** * Facts *)

(** ** Facts on [strip] *)

Lemma stuck_drop_ws back l : stuck back l -> PyStr.drop_ws back l = l.
Proof.
  destruct l as [|a [|b [|c l3]]]; simpl; trivial.
  - intros [-> _]; reflexivity.
  - intros [-> [-> _]]; reflexivity.
  - intros [-> [-> ->]]; reflexivity.
Qed.

Lemma drop_ws_stuck back :
  forall n l, (List.length l <= n)%nat -> stuck back (PyStr.drop_ws back l).
Proof.
  induction n as [|n IH]; intros l Hl.
  - destruct l; [exact I | simpl in Hl; lia].
  - destruct l as [|a l1]; [exact I|].
    simpl in Hl. cbn [PyStr.drop_ws].
    destruct (PyStr.ws1 a) eqn:E1; [apply IH; lia|].
    destruct l1 as [|b l2]; [simpl; auto|].
    simpl in Hl.
    destruct (if back then PyStr.ws2 b a else PyStr.ws2 a b) eqn:E2;
      [apply IH; lia|].
    destruct l2 as [|c l3]; [simpl; auto|].
    simpl in Hl.
    destruct (if back then PyStr.ws3 c b a else PyStr.ws3 a b c) eqn:E3;
      [apply IH; lia|].
    simpl; auto.
Qed.

Lemma drop_ws_suffix back :
  forall n l, (List.length l <= n)%nat ->
              exists pre, l = (pre ++ PyStr.drop_ws back l)%list.
Proof.
  induction n as [|n IH]; intros l Hl.
  - destruct l; [exists []; reflexivity | simpl in Hl; lia].
  - destruct l as [|a l1]; [exists []; reflexivity|].
    simpl in Hl. cbn [PyStr.drop_ws].
    destruct (PyStr.ws1 a) eqn:E1.
    { destruct (IH l1) as [pre Hp]; [lia|].
      exists (a :: pre). simpl. now rewrite <- Hp. }
    destruct l1 as [|b l2]; [exists []; reflexivity|].
    simpl in Hl.
    destruct (if back then PyStr.ws2 b a else PyStr.ws2 a b) eqn:E2.
    { destruct (IH l2) as [pre Hp]; [lia|].
      exists (a :: b :: pre). simpl. now rewrite <- Hp. }
    destruct l2 as [|c l3]; [exists []; reflexivity|].
    simpl in Hl.
    destruct (if back then PyStr.ws3 c b a else PyStr.ws3 a b c) eqn:E3.
    { destruct (IH l3) as [pre Hp]; [lia|].
      exists (a :: b :: c :: pre). simpl. now rewrite <- Hp. }
    exists []; reflexivity.
Qed.

Lemma stuck_prefix back p q : stuck back (p ++ q)%list -> stuck back p.
Proof.
  destruct p as [|a [|b [|c p3]]]; simpl; tauto.
Qed.

Lemma drop_ws_idem back l :
  PyStr.drop_ws back (PyStr.drop_ws back l) = PyStr.drop_ws back l.
Proof.
  apply stuck_drop_ws, drop_ws_stuck with (n := List.length l); lia.
Qed.

Lemma strip_list_idem l : strip_list (strip_list l) = strip_list l.
Proof.
  unfold strip_list.
  set (t := PyStr.drop_ws false l).
  assert (St : stuck false t)
    by (apply drop_ws_stuck with (n := List.length l); lia).
  destruct (drop_ws_suffix true (List.length (rev t)) (rev t))
    as [pre Hpre]; [lia|].
  set (u := PyStr.drop_ws true (rev t)) in *.
  assert (Ht : t = (rev u ++ rev pre)%list).
  { rewrite <- rev_app_distr, <- Hpre. now rewrite rev_involutive. }
  assert (Sp : stuck false (rev u)).
  { apply stuck_prefix with (q := rev pre). now rewrite <- Ht. }
  rewrite (stuck_drop_ws false _ Sp), rev_involutive.
  unfold u. now rewrite drop_ws_idem.
Qed.

Lemma strip_as_list s :
  PyStr.strip s = string_of_list_ascii (strip_list (list_ascii_of_string s)).
Proof. reflexivity. Qed.

Lemma strip_idem s : PyStr.strip (PyStr.strip s) = PyStr.strip s.
Proof.
  rewrite !strip_as_list, list_ascii_of_string_of_list_ascii.
  now rewrite strip_list_idem.
Qed.

Ltac bool_facts :=
  repeat match goal with
         | H : _ && _ = true |- _ => apply andb_true_iff in H; destruct H
         | H : _ || _ = true |- _ => apply orb_true_iff in H; destruct H
         | H : N.eqb _ _ = true |- _ => apply N.eqb_eq in H
         | H : N.leb _ _ = true |- _ => apply N.leb_le in H
         end.

Ltac bool_false :=
  apply not_true_is_false; intro; bool_facts; lia.

Lemma ws2_ends x y :
  PyStr.ws2 x y = true -> PyStr.ws1 x = false /\ PyStr.ws1 y = false.
Proof.
  unfold PyStr.ws2, PyStr.ws1. intros H. bool_facts; split; bool_false.
Qed.

Lemma ws3_ends x y z :
  PyStr.ws3 x y z = true ->
  PyStr.ws1 x = false /\ PyStr.ws1 z = false
  /\ PyStr.ws2 x y = false /\ PyStr.ws2 y z = false.
Proof.
  unfold PyStr.ws3, PyStr.ws2, PyStr.ws1. cbv zeta. intros H.
  bool_facts; repeat split; bool_false.
Qed.

Lemma drop_nil_blank back :
  forall n l, (List.length l <= n)%nat ->
              PyStr.drop_ws back l = [] -> Blank back l.
Proof.
  induction n as [|n IH]; intros l Hl H.
  - destruct l; [constructor | simpl in Hl; lia].
  - destruct l as [|a l1]; [constructor|].
    simpl in Hl. cbn [PyStr.drop_ws] in H.
    destruct (PyStr.ws1 a) eqn:E1.
    { apply Blank1; [assumption | apply IH; [lia | assumption]]. }
    destruct l1 as [|b l2]; [discriminate|].
    simpl in Hl.
    destruct (if back then PyStr.ws2 b a else PyStr.ws2 a b) eqn:E2.
    { apply Blank2; try assumption. apply IH; [lia | assumption]. }
    destruct l2 as [|c l3]; [discriminate|].
    simpl in Hl.
    destruct (if back then PyStr.ws3 c b a else PyStr.ws3 a b c) eqn:E3;
      [|discriminate].
    apply Blank3; try assumption. apply IH; [lia | assumption].
Qed.

Lemma blank_drop_app back l x :
  Blank back l -> PyStr.drop_ws back (l ++ x) = PyStr.drop_ws back x.
Proof.
  induction 1 as [|a l Ha _ IH|a b l Ha Hb _ IH|a b c l Ha Hb Hc _ IH].
  - reflexivity.
  - simpl. now rewrite Ha.
  - simpl. now rewrite Ha, Hb.
  - simpl. now rewrite Ha, Hb, Hc.
Qed.

Lemma blank_app back l1 l2 :
  Blank back l1 -> Blank back l2 -> Blank back (l1 ++ l2).
Proof.
  induction 1; intros Hl2; simpl; try assumption.
  - apply Blank1; auto.
  - apply Blank2; auto.
  - apply Blank3; auto.
Qed.

Lemma blank_rev back l : Blank back l -> Blank (negb back) (rev l).
Proof.
  induction 1 as [|a l Ha _ IH|a b l Ha Hb _ IH|a b c l Ha Hb Hc _ IH];
    simpl.
  - constructor.
  - apply blank_app; [assumption|]. apply Blank1; [assumption | constructor].
  - rewrite <- app_assoc. apply blank_app; [assumption|]. simpl.
    destruct back; simpl in *.
    + destruct (ws2_ends _ _ Hb). apply Blank2; auto. constructor.
    + destruct (ws2_ends _ _ Hb). apply Blank2; auto. constructor.
  - rewrite <- !app_assoc. apply blank_app; [assumption|]. simpl.
    destruct back; simpl in *.
    + destruct (ws3_ends _ _ _ Hc) as (? & ? & ? & ?).
      apply Blank3; auto. constructor.
    + destruct (ws3_ends _ _ _ Hc) as (? & ? & ? & ?).
      apply Blank3; auto. constructor.
Qed.

Lemma list_ascii_app s t :
  list_ascii_of_string (s ++ t)
  = (list_ascii_of_string s ++ list_ascii_of_string t)%list.
Proof. induction s; simpl; congruence. Qed.

Lemma string_of_list_nil l : string_of_list_ascii l = "" -> l = [].
Proof. destruct l; [reflexivity | discriminate]. Qed.

(** A text that [strip] empties is white space from its first byte on. *)
Lemma strip_empty_blank s :
  PyStr.strip s = "" -> Blank false (list_ascii_of_string s).
Proof.
  unfold PyStr.strip. intros H. apply string_of_list_nil in H.
  set (l := list_ascii_of_string s) in *.
  set (t := PyStr.drop_ws false l) in *.
  assert (Hn : PyStr.drop_ws true (rev t) = []).
  { rewrite <- (rev_involutive (PyStr.drop_ws true (rev t))), H.
    reflexivity. }
  apply drop_nil_blank with (n := List.length (rev t)) in Hn; [|lia].
  apply blank_rev in Hn. rewrite rev_involutive in Hn. simpl in Hn.
  assert (Ht : t = []).
  { assert (St : stuck false t)
      by (apply drop_ws_stuck with (n := List.length l); lia).
    rewrite <- (stuck_drop_ws false t St).
    rewrite <- (app_nil_r t). now rewrite blank_drop_app. }
  apply drop_nil_blank with (n := List.length l); [lia | exact Ht].
Qed.

Lemma plain_stuck back a l : plain a -> stuck back (a :: l).
Proof.
  intros [H1 H2]. unfold stuck. split; [assumption|].
  destruct l as [|b l2]; [exact I|]. split.
  - destruct back; unfold PyStr.ws2; bool_false.
  - destruct l2 as [|c l3]; [exact I|].
    destruct back; unfold PyStr.ws3; cbv zeta; bool_false.
Qed.

Lemma strip_list_padded lpre lpost a mid z :
  Blank false lpre -> Blank false lpost -> plain a -> plain z ->
  strip_list (lpre ++ (a :: mid ++ [z]) ++ lpost) = (a :: mid ++ [z])%list.
Proof.
  intros Hpre Hpost Ha Hz. unfold strip_list.
  rewrite blank_drop_app by assumption.
  assert (E : rev ((a :: mid ++ [z]) ++ lpost)
              = (rev lpost ++ z :: rev (a :: mid))%list).
  { rewrite rev_app_distr. f_equal.
    change (a :: mid ++ [z])%list with ((a :: mid) ++ [z])%list.
    now rewrite rev_app_distr. }
  rewrite (stuck_drop_ws false) by (apply plain_stuck; assumption).
  rewrite E.
  rewrite blank_drop_app by (apply (blank_rev false); assumption).
  rewrite (stuck_drop_ws true) by (apply plain_stuck; assumption).
  change (z :: rev (a :: mid))%list with (rev [z] ++ rev (a :: mid))%list.
  rewrite <- rev_app_distr, rev_involutive. reflexivity.
Qed.

(** White space around a text that starts and ends with a plain byte is
    all that [strip] removes. *)
Lemma strip_padded pre post a mid z :
  Blank false (list_ascii_of_string pre) ->
  Blank false (list_ascii_of_string post) ->
  plain a -> plain z ->
  let w := string_of_list_ascii (a :: mid ++ [z]) in
  PyStr.strip (pre ++ w ++ post) = w.
Proof.
  intros Hpre Hpost Ha Hz w. rewrite strip_as_list.
  rewrite !list_ascii_app. unfold w.
  rewrite list_ascii_of_string_of_list_ascii.
  now rewrite strip_list_padded.
Qed.

(** ** The derivative matcher accepts only words of the language *)

Lemma nullable_sound r : nullable r = true -> Matches r "".
Proof.
  induction r; simpl; intros H; try discriminate.
  - constructor.
  - apply andb_true_iff in H. destruct H as [H1 H2].
    change "" with ("" ++ ""). constructor; auto.
  - apply orb_true_iff in H. destruct H; [apply MAltL | apply MAltR]; auto.
  - constructor.
Qed.

Lemma matches_void s : ~ Matches Void s.
Proof. intros H; inversion H. Qed.

Lemma mk_seq_sound r1 r2 s : Matches (mk_seq r1 r2) s -> Matches (Seq r1 r2) s.
Proof.
  intros H.
  destruct r1; simpl in H;
    try (now destruct (matches_void _ H));
    destruct r2; simpl in H;
    try (now destruct (matches_void _ H));
    try exact H.
  all: change s with ("" ++ s); apply MSeq; [apply MEps | exact H].
Qed.

Lemma mk_alt_sound r1 r2 s : Matches (mk_alt r1 r2) s -> Matches (Alt r1 r2) s.
Proof.
  intros H.
  destruct r1; simpl in H;
    try (apply MAltR; exact H);
    destruct r2; simpl in H;
    try (apply MAltL; exact H);
    exact H.
Qed.

Lemma deriv_sound a r :
  forall s, Matches (deriv a r) s -> Matches r (String a s).
Proof.
  induction r; simpl; intros s H.
  - inversion H.
  - inversion H.
  - destruct (in_cls a c) eqn:E; inversion H; subst. now constructor.
  - assert (Hseq : forall t, Matches (mk_seq (deriv a r1) r2) t ->
                             Matches (Seq r1 r2) (String a t)).
    { intros t Ht. apply mk_seq_sound in Ht. inversion Ht; subst.
      change (String a (s1 ++ s2)) with (String a s1 ++ s2).
      constructor; auto. }
    destruct (nullable r1) eqn:N.
    + apply mk_alt_sound in H. inversion H; subst; auto.
      change (String a s) with ("" ++ String a s).
      constructor; [apply nullable_sound; assumption | auto].
    + auto.
  - apply mk_alt_sound in H.
    inversion H; subst; [apply MAltL | apply MAltR]; auto.
  - apply mk_seq_sound in H. inversion H; subst.
    change (String a (s1 ++ s2)) with (String a s1 ++ s2).
    apply MStarS; auto.
Qed.

Lemma fullmatch_sound s : forall r, fullmatch r s = true -> Matches r s.
Proof.
  induction s as [|a s IH]; simpl; intros r H.
  - now apply nullable_sound.
  - now apply deriv_sound, IH.
Qed.

Lemma all_in_app c s t : all_in c (s ++ t) = all_in c s && all_in c t.
Proof. induction s; simpl; [reflexivity | now rewrite IHs, andb_assoc]. Qed.

Lemma star_class_all c s : Matches (Star (Class c)) s -> all_in c s = true.
Proof.
  remember (Star (Class c)) as r eqn:E. intros H.
  induction H; try discriminate; [reflexivity|].
  injection E as ->.
  rewrite all_in_app, IHMatches2 by reflexivity.
  inversion H; subst. simpl. now rewrite H3.
Qed.

Lemma atleast_class_all c n s :
  Matches (AtLeast n (Class c)) s -> all_in c s = true.
Proof.
  revert s. induction n as [|n IH]; simpl; intros s H.
  - now apply star_class_all.
  - inversion H; subst. inversion H2; subst.
    simpl. rewrite H1. simpl. now apply IH.
Qed.

Lemma atleast_nonempty c n s :
  Matches (AtLeast (S n) (Class c)) s -> s <> "".
Proof.
  simpl. intros H. inversion H; subst. inversion H2; subst. discriminate.
Qed.

(** ** The shape of a text that [EMAIL_REGEX] accepts *)

Lemma all_in_forallb c s :
  all_in c s = forallb (fun a => in_cls a c) (list_ascii_of_string s).
Proof. induction s; simpl; congruence. Qed.

Lemma local_byte_plain a :
  in_cls a (letters ++ digits
              ++ [Chr "."; Chr "_"; Chr "%"; Chr "+"; Chr "-"])%list = true ->
  plain a.
Proof.
  destruct a as [[] [] [] [] [] [] [] []]; vm_compute; intros H;
    try discriminate H; split; reflexivity.
Qed.

Lemma letter_plain a : in_cls a letters = true -> plain a.
Proof.
  destruct a as [[] [] [] [] [] [] [] []]; vm_compute; intros H;
    try discriminate H; split; reflexivity.
Qed.

Lemma email_shape w :
  fullmatch EMAIL_REGEX w = true ->
  exists a mid z,
    w = string_of_list_ascii (a :: mid ++ [z]) /\ plain a /\ plain z.
Proof.
  intros H. apply fullmatch_sound in H. unfold EMAIL_REGEX, Plus in H.
  inversion H as [| |? ? s1 t1 Hlocal H1| | | |]; subst; clear H.
  inversion Hlocal as [| |? ? s0 s1' Hfirst _| | | |]; subst; clear Hlocal.
  inversion Hfirst as [|? a Ha| | | | |]; subst; clear Hfirst.
  inversion H1 as [| |? ? s2 t2 _ H2| | | |]; subst; clear H1.
  inversion H2 as [| |? ? s3 t3 _ H3| | | |]; subst; clear H2.
  inversion H3 as [| |? ? s4 s5 _ Htld| | | |]; subst; clear H3.
  pose proof (atleast_class_all letters 2 s5 Htld) as Hall.
  pose proof (atleast_nonempty letters 1 s5 Htld) as Hne.
  rewrite all_in_forallb in Hall.
  destruct (exists_last (l := list_ascii_of_string s5)) as (init & z & Hz).
  { intros E. apply Hne. rewrite <- (string_of_list_ascii_of_string s5), E.
    reflexivity. }
  rewrite Hz, forallb_app in Hall. apply andb_true_iff in Hall.
  destruct Hall as [_ Hlast]. simpl in Hlast. rewrite andb_true_r in Hlast.
  exists a,
    (list_ascii_of_string (s1' ++ s2 ++ s3 ++ s4) ++ init)%list, z.
  split; [|split; [now apply local_byte_plain | now apply letter_plain]].
  rewrite <- (string_of_list_ascii_of_string
                ((String a "" ++ s1') ++ s2 ++ s3 ++ s4 ++ s5)).
  f_equal. simpl. f_equal.
  rewrite !list_ascii_app, Hz, <- !app_assoc. reflexivity.
Qed.

Lemma chop_newline_app s s' :
  chop_newline s = Some s' -> s = s' ++ String newline "".
Proof.
  revert s'. induction s as [|a s IH]; simpl; intros s' H; [discriminate|].
  destruct s as [|b s].
  - destruct (Ascii.eqb_spec a newline); [|discriminate].
    injection H as <-. now subst.
  - destruct (chop_newline (String b s)) as [t|]; [|discriminate].
    injection H as <-. simpl. f_equal. now apply IH.
Qed.

Lemma append_assoc (s t u : string) : (s ++ t) ++ u = s ++ t ++ u.
Proof. induction s; simpl; congruence. Qed.

(** A text the pattern accepts is still accepted after white space is put
    around it and [strip] has removed it. *)
Lemma email_match_padded pre w post :
  PyStr.strip pre = "" -> PyStr.strip post = "" ->
  match_anchored EMAIL_REGEX w = true ->
  match_anchored EMAIL_REGEX (PyStr.strip (pre ++ w ++ post)) = true.
Proof.
  intros Hpre Hpost H. apply strip_empty_blank in Hpre, Hpost.
  unfold match_anchored in H. apply orb_true_iff in H. destruct H as [H|H].
  - destruct (email_shape _ H) as (a & mid & z & -> & Ha & Hz).
    rewrite strip_padded by assumption.
    unfold match_anchored. now rewrite H.
  - destruct (chop_newline w) as [w'|] eqn:E; [|discriminate].
    apply chop_newline_app in E. subst w.
    destruct (email_shape _ H) as (a & mid & z & -> & Ha & Hz).
    rewrite append_assoc.
    rewrite strip_padded; try assumption.
    + unfold match_anchored. now rewrite H.
    + simpl. apply Blank1; [reflexivity | assumption].
Qed.

(** ** Columns and their labels *)

Lemma named_length l cols :
  List.length (named l cols)
  = List.length (filter (String.eqb l) (map fst cols)).
Proof.
  induction cols as [|c cols IH]; simpl; [reflexivity|].
  rewrite (String.eqb_sym l (fst c)).
  destruct (String.eqb (fst c) l); simpl; congruence.
Qed.

Lemma named_in l cols c :
  In c cols -> fst c = l -> In c (named l cols).
Proof.
  intros Hin Hl. apply filter_In. split; [assumption|].
  subst. apply String.eqb_refl.
Qed.

Lemma getitem_cases df l :
  (exists c, named l (columns df) = [c] /\ single (labels df) l = true
             /\ getitem df l = SelSeries (snd c))
  \/ (single (labels df) l = false
      /\ getitem df l
         = SelFrame (nrows df) (map snd (named l (columns df)))).
Proof.
  unfold getitem, single, labels. rewrite <- named_length. fold (named l (columns df)).
  destruct (named l (columns df)) as [|c [|c' rest]] eqn:E.
  - right. split; reflexivity.
  - left. exists c. repeat split; reflexivity.
  - right. split; reflexivity.
Qed.

Lemma getitem_single df l c :
  single (labels df) l = true -> In c (columns df) -> fst c = l ->
  getitem df l = SelSeries (snd c).
Proof.
  intros Hs Hin Hl.
  destruct (getitem_cases df l) as [(c0 & E & _ & G)|[F _]];
    [|congruence].
  pose proof (named_in l (columns df) c Hin Hl) as Hc.
  rewrite E in Hc. destruct Hc as [->|[]]. exact G.
Qed.

Lemma text_dtype s :
  is_object_dtype (SelSeries s) || is_string_dtype (SelSeries s)
  = is_text (dtype s).
Proof. unfold is_object_dtype, is_string_dtype, is_text. now destruct (dtype s). Qed.

Section CleaningFacts.
Context {RT : Runtime}.

Lemma clean_column_values s :
  clean_column s = mkSeries string_ (map clean_cell (values s)).
Proof.
  unfold clean_column, of_strings, replace_with_na, str_strip, astype_string.
  f_equal. rewrite !map_map. apply map_ext.
  intros [v|]; [|reflexivity]. unfold clean_cell. cbn [option_map].
  now destruct (existsb (String.eqb (PyStr.strip (str_of_value v))) NA_KEYS).
Qed.

Lemma clean_cell_idem c : clean_cell (clean_cell c) = clean_cell c.
Proof.
  destruct c as [v|]; [|reflexivity]. unfold clean_cell at 2. cbv zeta.
  destruct (existsb (String.eqb (PyStr.strip (str_of_value v))) NA_KEYS)
    eqn:E; unfold clean_cell; cbv zeta; cbn [str_of_value].
  - now rewrite E.
  - now rewrite strip_idem, E.
Qed.

Lemma clean_step_labels out l : labels (clean_step out l) = labels out.
Proof.
  unfold clean_step.
  destruct (is_object_dtype _ || is_string_dtype _); [|reflexivity].
  destruct (getitem out l); [|reflexivity].
  unfold setitem, labels. simpl. rewrite map_map. apply map_ext.
  intros c. now destruct (String.eqb (fst c) l).
Qed.

Lemma clean_step_nrows out l : nrows (clean_step out l) = nrows out.
Proof.
  unfold clean_step.
  destruct (is_object_dtype _ || is_string_dtype _); [|reflexivity].
  now destruct (getitem out l).
Qed.

Lemma clean_step_columns out l :
  columns (clean_step out l)
  = map (fun c => if String.eqb (fst c) l then clean_entry (labels out) c
                  else c) (columns out).
Proof.
  unfold clean_step.
  destruct (getitem_cases out l) as [(c0 & E & Hs & G)|[Hs G]]; rewrite G.
  - rewrite text_dtype.
    assert (Hc0 : forall c, In c (columns out) ->
                            String.eqb (fst c) l = true -> c = c0).
    { intros c Hin Hl. apply String.eqb_eq in Hl.
      pose proof (named_in l (columns out) c Hin Hl) as Hc.
      rewrite E in Hc. now destruct Hc as [->|[]]. }
    destruct (is_text (dtype (snd c0))) eqn:T.
    + unfold setitem. simpl. apply map_ext_in. intros c Hin.
      destruct (String.eqb (fst c) l) eqn:El; [|reflexivity].
      assert (c = c0) as -> by auto. unfold clean_entry.
      apply String.eqb_eq in El. rewrite El, Hs, T. reflexivity.
    + rewrite <- (map_id (columns out)) at 1. apply map_ext_in.
      intros c Hin.
      destruct (String.eqb (fst c) l) eqn:El; [|reflexivity].
      assert (c = c0) as -> by auto. unfold clean_entry.
      now rewrite T, andb_false_r.
  - simpl. rewrite <- (map_id (columns out)) at 1. apply map_ext_in.
    intros c Hin.
    destruct (String.eqb (fst c) l) eqn:El; [|reflexivity].
    apply String.eqb_eq in El. unfold clean_entry. now rewrite El, Hs.
Qed.

Lemma clean_entry_label ls c : fst (clean_entry ls c) = fst c.
Proof. unfold clean_entry. now destruct (_ && _). Qed.

Lemma clean_fold ls :
  forall out,
    (forall l, single (labels out) l = true ->
               (List.length (filter (String.eqb l) ls) <= 1)%nat) ->
    nrows (fold_left clean_step ls out) = nrows out
    /\ columns (fold_left clean_step ls out)
       = map (fun c => if existsb (String.eqb (fst c)) ls
                       then clean_entry (labels out) c else c)
             (columns out).
Proof.
  induction ls as [|l ls IH]; intros out Hls; simpl.
  - split; [reflexivity|]. now rewrite map_id.
  - destruct (IH (clean_step out l)) as [Hn Hc].
    { intros l0 H0. rewrite clean_step_labels in H0.
      specialize (Hls l0 H0). simpl in Hls.
      destruct (String.eqb l0 l); simpl in Hls; lia. }
    rewrite Hn, Hc, clean_step_nrows, clean_step_labels, clean_step_columns.
    split; [reflexivity|].
    rewrite map_map. apply map_ext. intros c.
    destruct (String.eqb (fst c) l) eqn:El; simpl; [|reflexivity].
    rewrite clean_entry_label.
    destruct (existsb (String.eqb (fst c)) ls) eqn:Ex; [|reflexivity].
    (* the label is met again: it does not name one column *)
    unfold clean_entry at 2.
    destruct (single (labels out) (fst c)) eqn:Hs.
    + exfalso. specialize (Hls _ Hs). simpl in Hls. rewrite El in Hls.
      simpl in Hls.
      apply existsb_exists in Ex. destruct Ex as (x & Hin & Hx).
      assert (In x (filter (String.eqb (fst c)) ls))
        by (apply filter_In; auto).
      destruct (filter (String.eqb (fst c)) ls); [contradiction|].
      simpl in Hls. lia.
    + simpl. unfold clean_entry. now rewrite Hs.
Qed.

Lemma safe_clean_no_drop df :
  safe_clean_dataframe df false = cleaned_frame df.
Proof.
  unfold safe_clean_dataframe, cleaned_frame. cbv zeta.
  set (out := set_labels df PyStr.strip).
  destruct (clean_fold (labels out) out) as [Hn Hc].
  { intros l Hs. unfold single in Hs. apply Nat.eqb_eq in Hs. lia. }
  destruct (fold_left clean_step (labels out) out) as [n cols].
  simpl in *. subst n. f_equal. rewrite Hc.
  apply map_ext_in. intros c Hin.
  assert (E : existsb (String.eqb (fst c)) (labels out) = true).
  { apply existsb_exists. exists (fst c). split.
    - unfold labels. now apply in_map.
    - apply String.eqb_refl. }
  now rewrite E.
Qed.

Lemma safe_clean_drop df :
  safe_clean_dataframe df true = drop_duplicates (cleaned_frame df).
Proof.
  rewrite <- safe_clean_no_drop. reflexivity.
Qed.
End CleaningFacts.

(** ** Masks, positions and duplicate rows *)

Lemma dup_mask_length rs : forall seen,
  List.length (dup_mask seen rs) = List.length rs.
Proof. induction rs; simpl; intros; [reflexivity | now rewrite IHrs]. Qed.

Lemma rows_length df : List.length (rows df) = nrows df.
Proof. unfold rows, rows_of. now rewrite length_map, length_seq. Qed.

Lemma duplicated_length df :
  empty df = false -> List.length (duplicated df) = nrows df.
Proof.
  intros E. unfold duplicated. rewrite E.
  now rewrite dup_mask_length, rows_length.
Qed.

Lemma positions_from m : forall k,
  map fst (filter (fun p : nat * bool => snd p)
                  (combine (seq k (List.length m)) m))
  = pick m (seq k (List.length m)).
Proof.
  induction m as [|b m IH]; intros k; simpl; [reflexivity|].
  destruct b; simpl; now rewrite IH.
Qed.

Lemma positions_pick m : positions m = pick m (seq 0 (List.length m)).
Proof. apply positions_from. Qed.

Lemma pick_map {A B : Type} (f : A -> B) m : forall xs,
  map f (pick m xs) = pick m (map f xs).
Proof.
  induction m as [|b m IH]; intros [|x xs]; simpl; try reflexivity.
  destruct b; simpl; now rewrite IH.
Qed.

Lemma pick_length {A : Type} m : forall xs : list A,
  List.length m = List.length xs ->
  List.length (pick m xs) = count_true m.
Proof.
  unfold count_true.
  induction m as [|b m IH]; intros [|x xs] H; simpl in *; try reflexivity;
    try discriminate.
  destruct b; simpl; rewrite IH; auto.
Qed.

Lemma positions_length m : List.length (positions m) = count_true m.
Proof.
  rewrite positions_pick. apply pick_length. now rewrite length_seq.
Qed.

Lemma count_true_negb m :
  (count_true (map negb m) + count_true m = List.length m)%nat.
Proof.
  unfold count_true. induction m as [|b m IH]; simpl; [reflexivity|].
  destruct b; simpl; rewrite ?Nat.add_succ_r, IH; reflexivity.
Qed.

Lemma count_true_le m : (count_true m <= List.length m)%nat.
Proof. pose proof (count_true_negb m). lia. Qed.

Lemma pick_all_true {A : Type} (xs : list A) :
  pick (map (fun _ => true) xs) xs = xs.
Proof. induction xs; simpl; congruence. Qed.

(** Rows dropped and rows kept add up. *)
Lemma drop_duplicates_nrows df :
  (nrows (drop_duplicates df) + count_true (duplicated df) = nrows df)%nat.
Proof.
  unfold drop_duplicates. destruct (empty df) eqn:E.
  - unfold duplicated. rewrite E. unfold count_true. simpl. lia.
  - simpl. rewrite positions_length.
    pose proof (count_true_negb (duplicated df)) as H.
    rewrite duplicated_length in H by assumption. exact H.
Qed.

Lemma nth_seq_all {A : Type} (d : A) l :
  map (fun k => nth k l d) (seq 0 (List.length l)) = l.
Proof.
  induction l as [|x l IH]; simpl; [reflexivity|].
  f_equal. rewrite <- seq_shift, map_map. exact IH.
Qed.

Lemma row_take_rows df ps k :
  (k < List.length ps)%nat ->
  row (map snd (columns (take_rows df ps))) k
  = row (map snd (columns df)) (nth k ps 0%nat).
Proof.
  intros Hk. unfold row, take_rows. simpl. rewrite !map_map.
  apply map_ext. intros c. simpl.
  rewrite (nth_indep _ None (nth (nth 0 ps 0%nat) (values (snd c)) None))
    by (rewrite length_map; lia).
  rewrite (map_nth (fun i => nth i (values (snd c)) None)).
  f_equal. apply nth_indep. lia.
Qed.

Lemma rows_take_rows df ps :
  rows (take_rows df ps) = map (row (map snd (columns df))) ps.
Proof.
  transitivity (map (fun k => row (map snd (columns df)) (nth k ps 0%nat))
                    (seq 0 (List.length ps))).
  - unfold rows, rows_of. apply map_ext_in. intros k Hk.
    apply in_seq in Hk. apply row_take_rows. simpl in Hk. lia.
  - rewrite <- (map_map (fun k => nth k ps 0%nat)
                        (row (map snd (columns df)))).
    now rewrite (nth_seq_all 0%nat ps).
Qed.

Lemma existsb_incl {A : Type} (p : A -> bool) l l' :
  incl l' l -> existsb p l = false -> existsb p l' = false.
Proof.
  intros Hi H. apply not_true_is_false. intros E.
  apply existsb_exists in E. destruct E as (x & Hx & Hp).
  assert (existsb p l = true) by (apply existsb_exists; eauto).
  congruence.
Qed.

(** Among the rows that are kept, none equals one before it. *)
Lemma dup_mask_kept rs : forall seen seen',
  incl seen' seen ->
  dup_mask seen' (pick (map negb (dup_mask seen rs)) rs)
  = map (fun _ => false) (pick (map negb (dup_mask seen rs)) rs).
Proof.
  induction rs as [|r rs IH]; intros seen seen' Hi; simpl; [reflexivity|].
  destruct (existsb (row_eq r) seen) eqn:E; simpl.
  - apply IH. now apply incl_appl.
  - rewrite (existsb_incl _ _ _ Hi E). f_equal.
    apply IH. apply incl_app; [now apply incl_appl | apply incl_appr, incl_refl].
Qed.

Lemma take_rows_all df :
  Forall (fun c => List.length (values (snd c)) = nrows df) (columns df) ->
  take_rows df (seq 0 (nrows df)) = df.
Proof.
  intros H. destruct df as [n cols]. unfold take_rows. simpl in *.
  rewrite length_seq. f_equal.
  rewrite <- (map_id cols) at 2. apply map_ext_in. intros c Hc.
  rewrite Forall_forall in H. specialize (H c Hc).
  destruct c as [l [d vs]]. simpl in *. rewrite <- H.
  f_equal. f_equal. apply (nth_seq_all None vs).
Qed.

Lemma take_rows_well_formed df ps : well_formed (take_rows df ps).
Proof.
  unfold well_formed, take_rows. simpl. apply Forall_forall.
  intros c Hc. apply in_map_iff in Hc. destruct Hc as (c0 & <- & _).
  simpl. now rewrite length_map.
Qed.

Lemma positions_all_false {A : Type} (l : list A) :
  positions (map negb (map (fun _ => false) l)) = seq 0 (List.length l).
Proof.
  rewrite positions_pick, !length_map.
  generalize 0%nat. induction l as [|x l IH]; simpl; intros k;
    [reflexivity|].
  f_equal. apply IH.
Qed.

(** [drop_duplicates] changes nothing the second time. *)
Lemma drop_duplicates_idem df :
  drop_duplicates (drop_duplicates df) = drop_duplicates df.
Proof.
  destruct (empty df) eqn:E.
  - unfold drop_duplicates. now rewrite !E.
  - set (ps := positions (map negb (duplicated df))).
    assert (Hdrop : drop_duplicates df = take_rows df ps)
      by (unfold drop_duplicates; now rewrite E).
    rewrite Hdrop. unfold drop_duplicates.
    destruct (empty (take_rows df ps)) eqn:E'; [reflexivity|].
    assert (Hd : duplicated (take_rows df ps)
                 = map (fun _ => false) (rows (take_rows df ps))).
    { unfold duplicated at 1. rewrite E'.
      rewrite rows_take_rows. unfold ps. rewrite positions_pick, pick_map.
      rewrite length_map, duplicated_length by assumption.
      change (map (row (map snd (columns df))) (seq 0 (nrows df)))
        with (rows df).
      unfold duplicated. rewrite E.
      apply dup_mask_kept, incl_refl. }
    rewrite Hd, positions_all_false, rows_length.
    apply take_rows_all, take_rows_well_formed.
Qed.

Section CleanClaims.
Context {RT : Runtime}.

Lemma cleaned_frame_labels df :
  labels (cleaned_frame df) = map PyStr.strip (labels df).
Proof.
  unfold cleaned_frame, labels, set_labels. simpl. rewrite !map_map.
  apply map_ext. intros c. now rewrite clean_entry_label.
Qed.

Lemma clean_column_idem s :
  clean_column (clean_column s) = clean_column s.
Proof.
  rewrite !clean_column_values. simpl. rewrite map_map. f_equal.
  apply map_ext, clean_cell_idem.
Qed.

Lemma clean_entry_idem ls c :
  clean_entry ls (clean_entry ls c) = clean_entry ls c.
Proof.
  unfold clean_entry at 2.
  destruct (single ls (fst c) && is_text (dtype (snd c))) eqn:E.
  - unfold clean_entry. cbn [fst snd]. rewrite E.
    apply andb_true_iff in E. destruct E as [-> _].
    change (dtype (clean_column (snd c))) with string_.
    cbn [is_text andb]. now rewrite clean_column_idem.
  - unfold clean_entry. now rewrite E.
Qed.

Lemma map_strip_idem ls :
  map PyStr.strip (map PyStr.strip ls) = map PyStr.strip ls.
Proof. rewrite map_map. apply map_ext. intros; apply strip_idem. Qed.

Lemma set_labels_labels df f : labels (set_labels df f) = map f (labels df).
Proof. unfold labels, set_labels. simpl. now rewrite !map_map. Qed.

Lemma cleaned_frame_idem df :
  cleaned_frame (cleaned_frame df) = cleaned_frame df.
Proof.
  unfold cleaned_frame at 1. cbv zeta.
  rewrite set_labels_labels, cleaned_frame_labels, map_strip_idem.
  unfold cleaned_frame. cbv zeta. rewrite set_labels_labels.
  set (ls := map PyStr.strip (labels df)).
  unfold set_labels. simpl. f_equal.
  rewrite !map_map. apply map_ext. intros c. cbn [fst snd].
  set (e0 := (PyStr.strip (fst c), snd c)).
  pose proof (clean_entry_label ls e0) as Hl.
  destruct (clean_entry ls e0) as [l' s'] eqn:Ee.
  cbn [fst snd] in *. subst l'. unfold e0 at 1. cbn [fst].
  rewrite strip_idem.
  change (PyStr.strip (fst c)) with (fst e0). rewrite <- Ee.
  apply clean_entry_idem.
Qed.

Lemma clean_column_take s ps :
  clean_column
    (mkSeries (dtype s) (map (fun i => nth i (values s) None) ps))
  = mkSeries string_
      (map (fun i => nth i (values (clean_column s)) None) ps).
Proof.
  rewrite !clean_column_values. simpl. f_equal. rewrite map_map.
  apply map_ext. intros i.
  now rewrite (map_nth clean_cell (values s) None i).
Qed.

Lemma cleaned_frame_take df ps :
  cleaned_frame (take_rows df ps) = take_rows (cleaned_frame df) ps.
Proof.
  unfold cleaned_frame, take_rows, set_labels, labels. simpl.
  f_equal. rewrite !map_map. simpl.
  apply map_ext. intros c. unfold clean_entry. simpl.
  destruct (single _ (PyStr.strip (fst c)) && is_text (dtype (snd c)));
    simpl; [|reflexivity].
  f_equal. rewrite clean_column_take.
  reflexivity.
Qed.

Lemma cleaned_frame_empty df : empty (cleaned_frame df) = empty df.
Proof.
  unfold empty, cleaned_frame, set_labels. simpl.
  now rewrite !length_map.
Qed.

Lemma cleaned_frame_drop df :
  cleaned_frame df = df ->
  cleaned_frame (drop_duplicates df) = drop_duplicates df.
Proof.
  intros H. unfold drop_duplicates.
  destruct (empty df); [exact H|].
  now rewrite cleaned_frame_take, H.
Qed.

(** C6. Cleaning with [drop_exact_duplicates] set changes nothing when it
    is applied to its own result:
    [clean(clean(T, true), true) = clean(T, true)]. *)
Theorem clean_drop_idempotent (df : DataFrame) :
  safe_clean_dataframe (safe_clean_dataframe df true) true
  = safe_clean_dataframe df true.
Proof.
  rewrite !safe_clean_drop.
  rewrite cleaned_frame_drop by apply cleaned_frame_idem.
  apply drop_duplicates_idem.
Qed.

(** C1, as the code has it. In every column of dtype object or string
    whose trimmed label names that column alone, [clean] makes a cell
    null when its text, trimmed, is one of the keys [""], ["na"],
    ["n/a"], ["null"], ["none"] as written (no case folding), and puts
    the trimmed text in every other cell that is not null; with
    duplicates dropped, the rows kept are rows of that table. *)
Theorem clean_replaces_exact_keys (df : DataFrame) :
  Forall2
    (fun c c' =>
       single (map PyStr.strip (labels df)) (PyStr.strip (fst c)) = true ->
       is_text (dtype (snd c)) = true ->
       fst c' = PyStr.strip (fst c)
       /\ dtype (snd c') = string_
       /\ values (snd c')
          = map (fun x =>
                   match x with
                   | None => None
                   | Some v =>
                       let t := PyStr.strip (str_of_value v) in
                       if existsb (String.eqb t) NA_KEYS then None
                       else Some (VStr t)
                   end) (values (snd c)))
    (columns df) (columns (safe_clean_dataframe df false))
  /\ safe_clean_dataframe df true
     = drop_duplicates (safe_clean_dataframe df false).
Proof.
  split; [|now rewrite safe_clean_drop, safe_clean_no_drop].
  rewrite safe_clean_no_drop. unfold cleaned_frame, set_labels. simpl.
  rewrite map_map. simpl.
  assert (L : labels {| nrows := nrows df;
                        columns := map (fun c => (PyStr.strip (fst c), snd c))
                                       (columns df) |}
              = map PyStr.strip (labels df)).
  { unfold labels. simpl. now rewrite !map_map. }
  rewrite L. clear L.
  induction (columns df) as [|c cols IH]; simpl; constructor; [|exact IH].
  intros Hs Ht. unfold clean_entry. cbn [fst snd]. rewrite Hs, Ht.
  cbn [andb fst snd]. rewrite clean_column_values.
  cbn [dtype values]. auto.
Qed.

(** C5, as the code has it. Without dropping, [clean] keeps the number of
    rows and of columns; with dropping, the number of rows does not grow,
    and it stays the same exactly when the table after trimming and
    null replacement has no row equal to an earlier one. Either way the
    labels are the trimmed labels in their order, and a column whose
    dtype is neither object nor string keeps its cells. *)
Theorem clean_row_and_column_counts (df : DataFrame) :
  (nrows (safe_clean_dataframe df false) = nrows df
   /\ List.length (columns (safe_clean_dataframe df false))
      = List.length (columns df))
  /\ ((nrows (safe_clean_dataframe df true) <= nrows df)%nat
      /\ (nrows (safe_clean_dataframe df true) = nrows df
          <-> count_true (duplicated (safe_clean_dataframe df false)) = 0%nat))
  /\ (forall drop,
         labels (safe_clean_dataframe df drop)
         = map PyStr.strip (labels df))
  /\ Forall2
       (fun c c' => is_text (dtype (snd c)) = false -> snd c' = snd c)
       (columns df) (columns (safe_clean_dataframe df false))
  /\ safe_clean_dataframe df true
     = drop_duplicates (safe_clean_dataframe df false).
Proof.
  rewrite safe_clean_drop, safe_clean_no_drop.
  pose proof (drop_duplicates_nrows (cleaned_frame df)) as Hn.
  assert (Hrows : nrows (cleaned_frame df) = nrows df) by reflexivity.
  repeat split.
  - unfold cleaned_frame, set_labels. simpl. now rewrite !length_map.
  - lia.
  - lia.
  - lia.
  - intros [|].
    + rewrite safe_clean_drop. unfold drop_duplicates.
      destruct (empty (cleaned_frame df));
        [apply cleaned_frame_labels|].
      rewrite <- cleaned_frame_labels. unfold labels, take_rows. simpl.
      now rewrite map_map.
    + rewrite safe_clean_no_drop. apply cleaned_frame_labels.
  - unfold cleaned_frame, set_labels. simpl. rewrite map_map.
    generalize (labels
                  {| nrows := nrows df;
                     columns := map (fun c => (PyStr.strip (fst c), snd c))
                                    (columns df) |}).
    intros ls.
    induction (columns df) as [|c cols IH]; simpl; constructor; [|exact IH].
    intros Ht. unfold clean_entry. cbn [fst snd].
    now rewrite Ht, andb_false_r.
Qed.
End CleanClaims.

(** ** The profile, column by column *)

Lemma profile_column_ok df c r :
  In c (columns df) -> profile_column df (fst c) = Ok r -> r = row_of df c.
Proof.
  intros Hin H. unfold profile_column in H.
  destruct (getitem_cases df (fst c)) as [(c0 & E & _ & G)|[_ G]];
    rewrite G in H; [|discriminate].
  pose proof (named_in (fst c) (columns df) c Hin eq_refl) as Hc.
  rewrite E in Hc. destruct Hc as [->|[]].
  injection H as <-. reflexivity.
Qed.

Lemma collect_rows df cs :
  forall rows,
    incl cs (columns df) ->
    collect (profile_column df) (map fst cs) = Ok rows ->
    rows = map (row_of df) cs.
Proof.
  induction cs as [|c cs IH]; simpl; intros rows Hi H.
  - now injection H as <-.
  - destruct (profile_column df (fst c)) as [r|e] eqn:E; [|discriminate].
    destruct (collect (profile_column df) (map fst cs)) as [rs|e] eqn:Ec;
      [|discriminate].
    injection H as <-. f_equal.
    + apply profile_column_ok; [apply Hi; now left | assumption].
    + apply IH; [|reflexivity]. intros x Hx. apply Hi. now right.
Qed.

Lemma profile_rows_of df rows :
  build_column_profile df = Ok rows -> rows = map (row_of df) (columns df).
Proof. intros H. apply collect_rows; [apply incl_refl | exact H]. Qed.

Lemma filter_map_comm {A B : Type} (f : A -> B) (p : B -> bool) l :
  filter p (map f l) = map f (filter (fun x => p (f x)) l).
Proof.
  induction l as [|x l IH]; simpl; [reflexivity|].
  destruct (p (f x)); simpl; now rewrite IH.
Qed.

(** C9, as the code has it. The primary-key and high-missingness tests
    read the rounded fields of the profile: a column is a primary-key
    candidate exactly when [round(null_rate * 100, 2) <= 1.0],
    [round(unique / rows, 3) >= 0.98] and [unique > 1], and is listed for
    missing values exactly when [round(null_rate * 100, 2) >= 20.0], the
    products, quotients and roundings being those of binary64. *)
Theorem thresholds_use_rounded_values
        (df : DataFrame) (rows : list ProfileRow) :
  build_column_profile df = Ok rows ->
  let null_pct_of (c : string * Series) :=
    Float.py_round
      (Float.mul (mean (map isna (values (snd c)))) (Float.of_Z 100)) 2 in
  let cardinality_of (c : string * Series) :=
    Float.py_round
      (if (nrows df =? 0)%nat then Float.of_Z 0
       else Float.div (Float.of_nat (nunique (snd c)))
                      (Float.of_nat (nrows df))) 3 in
  pk_candidates rows
  = map fst
      (filter (fun c =>
                 Float.leb (null_pct_of c) (Float.of_Z 1)
                 && Float.leb (Float.lit 98 2) (cardinality_of c)
                 && (1 <? nunique (snd c))%nat)
              (columns df))
  /\ high_null_cols rows
     = map (fun c => (fst c, null_pct_of c))
           (filter (fun c => Float.leb (Float.of_Z 20) (null_pct_of c))
                   (columns df)).
Proof.
  intros H null_pct_of cardinality_of.
  apply profile_rows_of in H. subst rows.
  unfold pk_candidates, high_null_cols.
  rewrite !filter_map_comm, !map_map. split; reflexivity.
Qed.

Lemma mean_nil : mean [] = Float.nan.
Proof. reflexivity. Qed.

(** C4 at a table without rows. Every record of the profile has [nan] as
    its ["null_%"], computed from a null rate that is [nan], while its
    cardinality is 0.0: the guard on [len(df)] covers the cardinality
    only. *)
Theorem zero_rows_null_rate_is_nan
        (df : DataFrame) (rows : list ProfileRow) :
  nrows df = 0%nat -> well_formed df ->
  build_column_profile df = Ok rows ->
  Forall (fun c => null_rate (snd c) = Float.nan) (columns df)
  /\ Forall (fun r => null_pct r = Float.nan
                      /\ cardinality r = Float.of_Z 0) rows.
Proof.
  intros Hn Hwf H. apply profile_rows_of in H. subst rows.
  unfold well_formed in Hwf. rewrite Hn in Hwf.
  assert (Hnull : Forall (fun c => null_rate (snd c) = Float.nan)
                         (columns df)).
  { eapply Forall_impl; [|exact Hwf]. intros c Hc. simpl in Hc.
    unfold null_rate. apply length_zero_iff_nil in Hc. now rewrite Hc. }
  split; [exact Hnull|].
  rewrite Forall_map. eapply Forall_impl; [|exact Hnull].
  intros c Hc. unfold row_of. cbn [null_pct cardinality].
  rewrite Hc. unfold raw_cardinality. rewrite Hn. split; reflexivity.
Qed.

Local Open Scope py_scope.

(** ** Computations that leave the generator alone *)

Section Runs.
Context {RT : Runtime}.

Lemma world_eta w : mkWorld (np_random w) (draws w ++ [])%list = w.
Proof. destruct w. simpl. now rewrite app_nil_r. Qed.

Lemma returns_runs {A} P (m : M A) : returns P m -> runs P m.
Proof. intros (a & ds & H & E). exists (Ok a), ds. auto. Qed.

Lemma returns_ret {A} P (a : A) : returns P (ret a).
Proof.
  exists a, []. split; [constructor|]. intros w. unfold ret.
  now rewrite world_eta.
Qed.

Lemma runs_ret {A} P (a : A) : runs P (ret a).
Proof. apply returns_runs, returns_ret. Qed.

Lemma runs_raise {A} P e : runs P (raise (A := A) e).
Proof.
  exists (Raise e), []. split; [constructor|]. intros w. unfold raise.
  now rewrite world_eta.
Qed.

Lemma runs_lift {A} P (o : outcome A) : runs P (lift o).
Proof.
  exists o, []. split; [constructor|]. intros w. unfold lift.
  now rewrite world_eta.
Qed.

Lemma runs_bind {A B} P (m : M A) (k : A -> M B) :
  runs P m -> (forall a, runs P (k a)) -> runs P (bind m k).
Proof.
  intros (r & ds & Hds & Hm) Hk. destruct r as [a|e].
  - destruct (Hk a) as (r' & ds' & Hds' & Hk').
    exists r', (ds ++ ds')%list. split; [now apply Forall_app|].
    intros w. unfold bind. rewrite Hm, Hk'. simpl.
    now rewrite app_assoc.
  - exists (Raise e), ds. split; [assumption|].
    intros w. unfold bind. now rewrite Hm.
Qed.

Lemma returns_bind {A B} P (m : M A) (k : A -> M B) :
  returns P m -> (forall a, returns P (k a)) -> returns P (bind m k).
Proof.
  intros (a & ds & Hds & Hm) Hk.
  destruct (Hk a) as (b & ds' & Hds' & Hk').
  exists b, (ds ++ ds')%list. split; [now apply Forall_app|].
  intros w. unfold bind. rewrite Hm, Hk'. simpl. now rewrite app_assoc.
Qed.

(** With a handler that returns, [try] returns. *)
Lemma returns_try {A} P (m h : M A) :
  runs P m -> returns P h -> returns P (try_except m h).
Proof.
  intros (r & ds & Hds & Hm) (b & ds' & Hds' & Hh). destruct r as [a|e].
  - exists a, ds. split; [assumption|].
    intros w. unfold try_except. now rewrite Hm.
  - exists b, (ds ++ ds')%list. split; [now apply Forall_app|].
    intros w. unfold try_except. rewrite Hm, Hh. simpl.
    now rewrite app_assoc.
Qed.

Lemma runs_for_each {A B} P (body : B -> A -> M B) xs :
  (forall acc x, runs P (body acc x)) ->
  forall acc, runs P (for_each xs acc body).
Proof.
  intros Hb. induction xs as [|x xs IH]; intros acc; simpl.
  - apply runs_ret.
  - apply runs_bind; auto.
Qed.

Lemma returns_for_each {A B} P (body : B -> A -> M B) xs :
  (forall acc x, returns P (body acc x)) ->
  forall acc, returns P (for_each xs acc body).
Proof.
  intros Hb. induction xs as [|x xs IH]; intros acc; simpl.
  - apply returns_ret.
  - apply returns_bind; auto.
Qed.

(** A seeded [sample] does not touch the global generator. *)
Lemma runs_sample {A} (P : Draw -> Prop) (xs : list A) n z :
  P (mkDraw (Some z) (List.length xs) n) ->
  runs P (sample xs n (Some z)).
Proof.
  intros HP.
  destruct (List.length xs <? n)%nat eqn:El.
  - exists (Raise ValueError), [mkDraw (Some z) (List.length xs) n].
    split; [now constructor|]. intros w. unfold sample. now rewrite El.
  - destruct (take_positions xs
                (firstn n (fst (rng_permutation (rng_seed z)
                                                (List.length xs)))))
      as [ys|] eqn:E.
    + exists (Ok ys), [mkDraw (Some z) (List.length xs) n].
      split; [now constructor|]. intros w. unfold sample.
      rewrite El. cbv beta iota zeta. now rewrite E.
    + exists (Raise IndexError), [mkDraw (Some z) (List.length xs) n].
      split; [now constructor|]. intros w. unfold sample.
      rewrite El. cbv beta iota zeta. now rewrite E.
Qed.

Lemma runs_infer_mixed_types sel n :
  runs (capped n) (infer_mixed_types sel n).
Proof.
  unfold infer_mixed_types. destruct sel as [s0|k cols].
  - destruct (List.length (present (values (dropna s0))) =? 0)%nat;
      [apply runs_ret|].
    apply runs_bind; [|intros; apply runs_ret].
    apply runs_sample. split; reflexivity.
  - destruct (List.length (frame_dropna k cols) =? 0)%nat;
      [apply runs_ret|].
    apply runs_bind; [|intros; apply runs_raise].
    apply runs_sample. split; reflexivity.
Qed.

Lemma returns_mixed_body df acc col :
  returns (capped DEFAULT_SAMPLE_SIZE) (mixed_body df acc col).
Proof.
  unfold mixed_body. apply returns_try; [|apply returns_ret].
  apply runs_bind; [apply runs_infer_mixed_types|].
  intros; apply runs_ret.
Qed.

Lemma returns_mixed_columns df :
  returns (capped DEFAULT_SAMPLE_SIZE) (mixed_columns df).
Proof. apply returns_for_each. intros; apply returns_mixed_body. Qed.

Ltac run_step :=
  match goal with
  | |- runs _ (ret _) => apply runs_ret
  | |- runs _ (raise _) => apply runs_raise
  | |- runs _ (if ?b then _ else _) => destruct b
  | |- runs _ (bind (sample _ _ _) _) =>
      apply runs_bind;
      [apply runs_sample; split; reflexivity | intros]
  | |- runs _ (match ?x with SelSeries _ => _ | SelFrame _ _ => _ end) =>
      destruct x
  end.

Lemma runs_email_body df acc col : runs (capped 2000) (email_body df acc col).
Proof. unfold email_body. repeat run_step. Qed.

Lemma runs_date_body df acc col : runs (capped 2000) (date_body df acc col).
Proof. unfold date_body. repeat run_step. Qed.

Lemma runs_numeric_body df acc col :
  runs (capped 2000) (numeric_body df acc col).
Proof. unfold numeric_body. repeat run_step. Qed.

Lemma runs_weaken {A} (P Q : Draw -> Prop) (m : M A) :
  (forall d, P d -> Q d) -> runs P m -> runs Q m.
Proof.
  intros HPQ (r & ds & Hds & Hm). exists r, ds. split; [|assumption].
  eapply Forall_impl; eauto.
Qed.

Lemma runs_detect_issues df profile_rows :
  runs rule_draw (detect_issues df profile_rows).
Proof.
  unfold detect_issues.
  apply runs_bind.
  { apply runs_weaken with (P := capped DEFAULT_SAMPLE_SIZE);
      [now left | apply returns_runs, returns_mixed_columns]. }
  intros mixed. apply runs_bind.
  { apply runs_weaken with (P := capped 2000); [now right|].
    apply runs_for_each. intros; apply runs_email_body. }
  intros email. apply runs_bind.
  { apply runs_weaken with (P := capped 2000); [now right|].
    apply runs_for_each. intros; apply runs_date_body. }
  intros date. apply runs_bind.
  { apply runs_weaken with (P := capped 2000); [now right|].
    apply runs_for_each. intros; apply runs_numeric_body. }
  intros numeric. apply runs_ret.
Qed.

Lemma runs_run_inspection df : runs rule_draw (run_inspection df).
Proof.
  unfold run_inspection. apply runs_bind; [apply runs_lift|].
  intros rows. apply runs_bind; [apply runs_detect_issues|].
  intros found. apply runs_ret.
Qed.
End Runs.

Section RuleClaims.
Context {RT : Runtime}.

Lemma runs_outcome {A} P (m : M A) :
  runs P m ->
  exists r, forall w,
    fst (m w) = r /\ np_random (snd (m w)) = np_random w
    /\ exists ds, draws (snd (m w)) = (draws w ++ ds)%list /\ Forall P ds.
Proof.
  intros (r & ds & Hds & Hm). exists r. intros w. rewrite Hm. simpl.
  repeat split. exists ds. auto.
Qed.

(** C8. Two runs of profile, rules and report on the same table end in
    the same report (or the same exception), whatever the state of the
    global generator at the start of each, and leave that generator
    untouched; so any serialisation of the two results is the same
    text. *)
Theorem inspection_deterministic (df : DataFrame) (w1 w2 : World) :
  fst (run_inspection df w1) = fst (run_inspection df w2)
  /\ np_random (snd (run_inspection df w1)) = np_random w1
  /\ forall dumps : outcome Report -> string,
       dumps (fst (run_inspection df w1))
       = dumps (fst (run_inspection df w2)).
Proof.
  destruct (runs_outcome _ _ (runs_run_inspection df)) as (r & H).
  destruct (H w1) as (E1 & G1 & _). destruct (H w2) as (E2 & _ & _).
  repeat split; [congruence | assumption | intros; congruence].
Qed.











(** The verdict of [infer_mixed_types] on a column does not depend on
    the world. *)
Lemma infer_mixed_types_fst sel n (w1 w2 : World) :
  fst (infer_mixed_types sel n w1) = fst (infer_mixed_types sel n w2).
Proof.
  destruct (runs_outcome _ _ (runs_infer_mixed_types sel n)) as (r & H).
  destruct (H w1) as (-> & _). destruct (H w2) as (-> & _). reflexivity.
Qed.

Lemma mixed_loop df (w0 : World) xs :
  forall acc w,
  exists w',
    for_each xs acc (mixed_body df) w
    = (Ok (acc ++ filter
                    (fun col =>
                       match fst (infer_mixed_types (getitem df col)
                                    DEFAULT_SAMPLE_SIZE w0) with
                       | Ok true => true
                       | _ => false
                       end) xs)%list, w').
Proof.
  induction xs as [|x xs IH]; intros acc w; simpl.
  - exists w. now rewrite app_nil_r.
  - unfold bind, mixed_body at 1, try_except, bind.
    rewrite (infer_mixed_types_fst _ _ w0 w).
    destruct (infer_mixed_types (getitem df x) DEFAULT_SAMPLE_SIZE w)
      as [[b|e] w1]; simpl.
    + destruct (IH (if b then (acc ++ [x])%list else acc) w1) as (w' & E).
      exists w'. unfold ret. rewrite E. destruct b; [|reflexivity].
      now rewrite <- app_assoc.
    + destruct (IH acc w1) as (w' & E). exists w'. unfold ret. exact E.
Qed.



End RuleClaims.

Section ReportClaims.
Context {RT : Runtime}.

Lemma for_each_inv {A B : Type} (Inv : B -> Prop) (body : B -> A -> M B) xs :
  (forall acc x w acc' w',
      Inv acc -> body acc x w = (Ok acc', w') -> Inv acc') ->
  forall acc w r w',
    Inv acc -> for_each xs acc body w = (Ok r, w') -> Inv r.
Proof.
  intros Hb. induction xs as [|x xs IH]; intros acc w r w' Hi H; simpl in H.
  - unfold ret in H. now injection H as <- _.
  - unfold bind in H.
    destruct (body acc x w) as [[acc1|e] w1] eqn:E; [|discriminate].
    eapply IH; [|exact H]. eapply Hb; eauto.
Qed.

Lemma no_dup_title_snoc l i :
  no_dup_title l -> title i <> DUP_TITLE -> no_dup_title (l ++ [i]).
Proof. intros. apply Forall_app. split; [assumption | now constructor]. Qed.

Ltac body_cases H :=
  repeat match type of H with
         | ret _ _ = _ => unfold ret in H; injection H as <- _
         | raise _ _ = _ => discriminate H
         | (if ?b then _ else _) _ = _ => destruct b
         | (match ?x with SelSeries _ => _ | SelFrame _ _ => _ end) _ = _ =>
             destruct x
         | bind ?m _ _ = _ =>
             let a := fresh "a" in
             let w1 := fresh "w" in
             unfold bind in H; destruct m as [[a|?] w1];
             [|discriminate H]
         end.

Lemma email_body_titles df acc col w acc' w' :
  no_dup_title acc -> email_body df acc col w = (Ok acc', w') ->
  no_dup_title acc'.
Proof.
  intros Hi H. unfold email_body in H. body_cases H; try assumption.
  apply no_dup_title_snoc; [assumption|]. simpl. discriminate.
Qed.

Lemma date_body_titles df acc col w acc' w' :
  no_dup_title acc -> date_body df acc col w = (Ok acc', w') ->
  no_dup_title acc'.
Proof.
  intros Hi H. unfold date_body in H. body_cases H; try assumption.
  apply no_dup_title_snoc; [assumption|]. simpl. discriminate.
Qed.

Lemma numeric_body_titles df acc col w acc' w' :
  no_dup_title acc -> numeric_body df acc col w = (Ok acc', w') ->
  no_dup_title acc'.
Proof.
  intros Hi H. unfold numeric_body in H. body_cases H; try assumption.
  apply no_dup_title_snoc; [assumption|]. simpl. discriminate.
Qed.

Lemma pk_issues_titles rows : no_dup_title (pk_issues rows).
Proof.
  unfold pk_issues. destruct (pk_candidates rows); repeat constructor.
  simpl. discriminate.
Qed.

Lemma high_null_issues_titles rows : no_dup_title (high_null_issues rows).
Proof.
  unfold high_null_issues. destruct (high_null_cols rows);
    repeat constructor. simpl. discriminate.
Qed.

Lemma mixed_issues_titles cols : no_dup_title (mixed_issues cols).
Proof.
  unfold mixed_issues. destruct cols; repeat constructor.
  simpl. discriminate.
Qed.

Lemma detect_issues_parts df rows w found w' :
  detect_issues df rows w = (Ok found, w') ->
  exists rest,
    found = (pk_issues rows ++ duplicate_issues df ++ rest)%list
    /\ no_dup_title rest.
Proof.
  unfold detect_issues, bind. intros H.
  destruct (mixed_columns df w) as [[mc|e] w1]; [|discriminate].
  destruct (detect_email_issues df w1) as [[em|e] w2] eqn:Ee; [|discriminate].
  destruct (detect_date_parse_issues df w2) as [[da|e] w3] eqn:Ed;
    [|discriminate].
  destruct (detect_numeric_as_text_issues df w3) as [[nu|e] w4] eqn:En;
    [|discriminate].
  unfold ret in H. injection H as <- _.
  exists (high_null_issues rows ++ mixed_issues mc ++ em ++ da ++ nu)%list.
  split; [now rewrite <- !app_assoc|].
  unfold no_dup_title. rewrite !Forall_app. repeat split.
  - apply high_null_issues_titles.
  - apply mixed_issues_titles.
  - eapply (for_each_inv no_dup_title); [| |exact Ee];
      [intros; eapply email_body_titles; eauto | constructor].
  - eapply (for_each_inv no_dup_title); [| |exact Ed];
      [intros; eapply date_body_titles; eauto | constructor].
  - eapply (for_each_inv no_dup_title); [| |exact En];
      [intros; eapply numeric_body_titles; eauto | constructor].
Qed.

(** C7. The number in the issue of the duplicate-rows detector is the
    field [duplicate_rows_total] of the report built for the same table:
    an issue with the title of that detector says "Found N exact
    duplicate rows." with N that field, and there is one whenever the
    field is positive. *)
Theorem duplicate_count_agrees
        (df : DataFrame) (profile_rows : list ProfileRow)
        (w w' : World) (found : list Issue) :
  detect_issues df profile_rows w = (Ok found, w') ->
  let total :=
    duplicate_rows_total (dataset (build_report df profile_rows found)) in
  (forall i,
      In i found -> title i = "Duplicate rows detected" ->
      details i
      = "Found " ++ PyStr.of_nat total ++ " exact duplicate rows."
      /\ (0 < total)%nat)
  /\ ((0 < total)%nat ->
      exists i, In i found /\ title i = "Duplicate rows detected").
Proof.
  intros H total.
  destruct (detect_issues_parts _ _ _ _ _ H) as (rest & -> & Hrest).
  assert (Et : total = dup_count df) by reflexivity.
  pose proof (pk_issues_titles profile_rows) as Hpk.
  unfold no_dup_title in *. rewrite Forall_forall in Hpk, Hrest.
  split.
  - intros i Hin Ht. rewrite !in_app_iff in Hin.
    destruct Hin as [Hin|[Hin|Hin]].
    + now apply Hpk in Hin.
    + unfold duplicate_issues in Hin. rewrite <- Et in Hin.
      destruct (0 <? total)%nat eqn:E; [|contradiction].
      destruct Hin as [<-|[]]. simpl. split; [reflexivity|].
      now apply Nat.ltb_lt.
    + now apply Hrest in Hin.
  - intros Hpos. unfold duplicate_issues. rewrite <- Et.
    apply Nat.ltb_lt in Hpos. rewrite Hpos.
    eexists. split.
    + rewrite !in_app_iff. right; left. left. reflexivity.
    + reflexivity.
Qed.

Lemma take_positions_map {A B : Type} (f : A -> B) xs ps :
  take_positions (map f xs) ps = option_map (map f) (take_positions xs ps).
Proof.
  induction ps as [|p ps IH]; simpl; [reflexivity|].
  rewrite IH, nth_error_map.
  destruct (nth_error xs p); simpl; [|reflexivity].
  now destruct (take_positions xs ps).
Qed.

(** Sampling commutes with a map over the values. *)
Lemma sample_map {A B : Type} (f : A -> B) xs n rs (w w' : World) picked :
  sample xs n rs w = (Ok picked, w') ->
  sample (map f xs) n rs w = (Ok (map f picked), w').
Proof.
  unfold sample. rewrite length_map.
  destruct (List.length xs <? n)%nat; [discriminate|].
  destruct rs as [z|].
  - cbv beta iota zeta. rewrite take_positions_map.
    destruct (take_positions xs _); [|discriminate].
    intros H. injection H as <- <-. reflexivity.
  - destruct (rng_permutation (np_random w) (List.length xs)) as [p g].
    cbv beta iota zeta. rewrite take_positions_map.
    destruct (take_positions xs _); [|discriminate].
    intros H. injection H as <- <-. reflexivity.
Qed.

Lemma strip_empty : PyStr.strip "" = "".
Proof. reflexivity. Qed.

(** C10. The e-mail detector matches the pattern against the trimmed
    text of each sampled value: on a column it scans, the issue is
    raised exactly when at least 5% of the sampled values fail the match
    after [strip], and a text the pattern accepts still passes with
    white space around it. *)
Theorem email_values_are_trimmed
        (df : DataFrame) (col : string) (s0 : Series)
        (found : list Issue) (w w' : World)
        (picked : list (option string)) :
  looks_like_email_column col = true ->
  getitem df col = SelSeries s0 ->
  values (dropna s0) <> [] ->
  sample (astype_string (values (dropna s0)))
         (Nat.min 2000 (List.length (values (dropna s0)))) (Some 42%Z) w
  = (Ok picked, w') ->
  let invalid x := negb (Re.match_anchored EMAIL_REGEX (PyStr.strip x)) in
  let invalid_rate := mean (map invalid (fillna "" picked)) in
  email_body df found col w
  = (Ok (if Float.leb (Float.lit 5 2) invalid_rate
         then (found ++
              [mkIssue "warning" ("Invalid emails in `" ++ col ++ "`")
                 ("~" ++ percent invalid_rate
                      ++ "% of sampled values look invalid.")
                 "Trim whitespace and validate formatting upstream. Consider rejecting invalid addresses at ingestion."])%list
         else found), w')
  /\ forall pre address post,
       PyStr.strip pre = "" -> PyStr.strip post = "" ->
       Re.match_anchored EMAIL_REGEX address = true ->
       invalid (pre ++ address ++ post) = false.
Proof.
  intros Hname Hsel Hne Hs invalid invalid_rate. split.
  - unfold email_body. rewrite Hname, Hsel. cbn [negb].
    assert (El : (List.length (values (dropna s0)) =? 0)%nat = false).
    { destruct (values (dropna s0)); [congruence | reflexivity]. }
    rewrite El. unfold bind.
    unfold str_strip at 2. rewrite length_map.
    unfold astype_string at 2. rewrite length_map.
    unfold str_strip.
    match goal with
    | |- context [sample ?a ?b ?c ?d] =>
        replace (sample a b c d)
          with (Ok (map (option_map PyStr.strip) picked), w')
          by (symmetry; apply sample_map; exact Hs)
    end.
    assert (Em : map (fun x => negb (Re.match_anchored EMAIL_REGEX x))
                     (fillna "" (map (option_map PyStr.strip) picked))
                 = map invalid (fillna "" picked)).
    { unfold fillna. rewrite !map_map. apply map_ext.
      intros [t|]; reflexivity. }
    rewrite Em. fold invalid_rate.
    now destruct (Float.leb (Float.lit 5 2) invalid_rate).
  - intros pre address post Hpre Hpost Hm. unfold invalid.
    now rewrite email_match_padded.
Qed.
End ReportClaims.

(** ** Concrete runs *)

(** C1 fails on the code. Folded to lower case the cell "NA" is the key
    "na", and [clean] leaves it as it is. *)
Lemma upper_case_na_is_kept :
  existsb (String.eqb (PyStr.ascii_lower (PyStr.strip "NA")))
          (NA_KEYS) = true
  /\ columns (safe_clean_dataframe (RT := ref_runtime) upper_na_table false)
     = [("status", mkSeries string_ [Some (VStr "NA")])]
  /\ columns (safe_clean_dataframe (RT := ref_runtime) upper_na_table true)
     = [("status", mkSeries string_ [Some (VStr "NA")])].
Proof. repeat split; vm_compute; reflexivity. Qed.




(** The profile of a table that has a header and no row. *)
Lemma zero_rows_null_rate_is_nan_witness :
  (nrows header_only_table = 0%nat
   /\ well_formed header_only_table
   /\ build_column_profile header_only_table
      = Ok [mkRow "a" "object" Float.nan 0 (Float.of_Z 0)
              (Some (VStr "")) (Some (VStr ""))])
  /\ Forall (fun c => null_rate (snd c) = Float.nan)
            (columns header_only_table)
  /\ Forall (fun r => null_pct r = Float.nan
                      /\ cardinality r = Float.of_Z 0)
            [mkRow "a" "object" Float.nan 0 (Float.of_Z 0)
               (Some (VStr "")) (Some (VStr ""))].
Proof.
  assert (Hwf : well_formed header_only_table)
    by (repeat constructor).
  split; [repeat split; try reflexivity; exact Hwf|].
  apply (zero_rows_null_rate_is_nan header_only_table _
           eq_refl Hwf eq_refl).
Defined.

(** C5 fails on the code. No row of the table equals another, yet after
    trimming the second equals the first and is dropped. *)
Lemma trimming_creates_duplicates :
  count_true (duplicated padded_table) = 0%nat
  /\ nrows padded_table = 2%nat
  /\ nrows (safe_clean_dataframe (RT := ref_runtime) padded_table true)
     = 1%nat.
Proof. repeat split; vm_compute; reflexivity. Qed.

(** The contacts hold one duplicate row, and the issue says so. *)
Lemma duplicate_count_agrees_witness :
  detect_issues (RT := ref_runtime) contacts_table contacts_profile w0
  = (Ok contacts_issues, contacts_world)
  /\ exists i,
       In i contacts_issues
       /\ title i = "Duplicate rows detected"
       /\ details i = "Found 1 exact duplicate rows.".
Proof.
  assert (H : detect_issues (RT := ref_runtime)
                contacts_table contacts_profile w0
              = (Ok contacts_issues, contacts_world))
    by (vm_compute; reflexivity).
  split; [exact H|].
  destruct (duplicate_count_agrees contacts_table contacts_profile
              w0 contacts_world contacts_issues H) as [Hall Hex].
  destruct Hex as (i & Hin & Ht); [vm_compute; lia|].
  exists i. split; [exact Hin|]. split; [exact Ht|].
  exact (proj1 (Hall i Hin Ht)).
Defined.

(** C9 fails on the code. With 3999 nulls in 20000 rows the null rate is
    0.19995, which to two decimals of a percentage is 20.00 in exact
    arithmetic; the binary64 product with 100 lies below 19.995, the
    profile says 19.99 and the column is not listed. *)
Lemma null_rate_19995_not_flagged :
  Float.round_half_even (3999 * 100 * 100) 20000 = 2000%Z
  /\ exists rows,
       build_column_profile sparse_table = Ok rows
       /\ map null_pct rows = [Float.lit 1999 2]
       /\ high_null_cols rows = []
       /\ high_null_issues rows = [].
Proof.
  split; [reflexivity|].
  eexists. split; [vm_compute; reflexivity|].
  repeat split; vm_compute; reflexivity.
Qed.

(** A null rate under 20% that is listed: 800 nulls in 4001 rows round to
    20.0. *)
Lemma null_rate_under_20_flagged :
  (800 * 100 < 20 * 4001)%Z
  /\ exists rows,
       build_column_profile thin_table = Ok rows
       /\ high_null_cols rows = [("x", Float.of_Z 20)].
Proof.
  split; [reflexivity|].
  eexists. split; vm_compute; reflexivity.
Qed.

(** A cardinality of 0.9795 is rounded to 0.98 and passes the test of the
    primary-key detector. *)
Lemma cardinality_9795_qualifies :
  exists rows,
    build_column_profile near_unique_table = Ok rows
    /\ map unique_values rows = [1959%nat]
    /\ map cardinality rows = [Float.lit 98 2]
    /\ pk_candidates rows = ["id"].
Proof.
  eexists. split; [vm_compute; reflexivity|].
  repeat split; vm_compute; reflexivity.
Qed.

(** No column of the contacts passes either test. *)
Lemma thresholds_use_rounded_values_witness :
  build_column_profile contacts_table = Ok contacts_profile
  /\ pk_candidates contacts_profile = []
  /\ high_null_cols contacts_profile = [].
Proof.
  assert (H : build_column_profile contacts_table = Ok contacts_profile)
    by (vm_compute; reflexivity).
  split; [exact H|].
  destruct (thresholds_use_rounded_values contacts_table contacts_profile H)
    as [Hpk Hnull].
  split; [rewrite Hpk | rewrite Hnull]; vm_compute; reflexivity.
Defined.

(** One of the four contacts fails the pattern; the padded one passes. *)
Lemma email_values_are_trimmed_witness :
  (looks_like_email_column (RT := ref_runtime) "email" = true
   /\ getitem contacts_table "email" = SelSeries contacts_emails
   /\ values (dropna contacts_emails) <> []
   /\ sample (RT := ref_runtime)
             (astype_string (RT := ref_runtime)
                            (values (dropna contacts_emails)))
             (Nat.min 2000 (List.length (values (dropna contacts_emails))))
             (Some 42%Z) w0
      = (Ok [Some "a@b.co"; Some " x@y.org "; Some "bad"; Some "a@b.co"],
         @mkWorld ref_runtime 0%nat [email_draw]))
  /\ email_body (RT := ref_runtime) contacts_table [] "email" w0
     = (Ok [mkIssue "warning" "Invalid emails in `email`"
              "~25.0% of sampled values look invalid."
              "Trim whitespace and validate formatting upstream. Consider rejecting invalid addresses at ingestion."],
        @mkWorld ref_runtime 0%nat [email_draw])
  /\ Re.match_anchored EMAIL_REGEX (PyStr.strip "  x@y.org  ") = true.
Proof.
  assert (Hne : values (dropna contacts_emails) <> [])
    by (vm_compute; discriminate).
  split; [repeat split; try reflexivity; exact Hne|].
  destruct (email_values_are_trimmed (RT := ref_runtime)
              contacts_table "email" contacts_emails [] w0
              (@mkWorld ref_runtime 0%nat [email_draw])
              [Some "a@b.co"; Some " x@y.org "; Some "bad"; Some "a@b.co"]
              eq_refl eq_refl Hne eq_refl) as [Hbody Hpad].
  split; [exact Hbody|].
  apply negb_false_iff.
  apply (Hpad "  " "x@y.org" "  "); reflexivity.
Defined.

(** * Further properties of the code *)

(** ** More on the profile *)

Lemma filter_eqb_absent l ls :
  ~ In l ls -> filter (String.eqb l) ls = [].
Proof.
  induction ls as [|x ls IH]; simpl; intros H; [reflexivity|].
  destruct (String.eqb_spec l x) as [->|_]; [exfalso; apply H; now left|].
  apply IH. intros Hin. apply H. now right.
Qed.

Lemma filter_eqb_present l ls :
  In l ls -> (1 <= List.length (filter (String.eqb l) ls))%nat.
Proof.
  induction ls as [|x ls IH]; simpl; intros H; [contradiction|].
  destruct (String.eqb_spec l x) as [->|Hn]; simpl; [lia|].
  apply IH. destruct H as [H|H]; [congruence | assumption].
Qed.

(** The labels are pairwise distinct exactly when each names one column. *)
Lemma nodup_single ls :
  NoDup ls <-> (forall l, In l ls -> single ls l = true).
Proof.
  unfold single. induction ls as [|x ls IH].
  - split; [intros _ l [] | constructor].
  - split.
    + intros H l Hin. inversion H as [|? ? Hx Hnd]; subst.
      apply Nat.eqb_eq. simpl.
      destruct (String.eqb_spec l x) as [->|Hn]; simpl.
      * now rewrite filter_eqb_absent.
      * destruct Hin as [Hin|Hin]; [congruence|].
        apply Nat.eqb_eq. apply IH; assumption.
    + intros H. constructor.
      * intros Hin. specialize (H x (or_introl eq_refl)).
        apply Nat.eqb_eq in H. simpl in H. rewrite String.eqb_refl in H.
        simpl in H. pose proof (filter_eqb_present x ls Hin). lia.
      * apply IH. intros l Hin.
        specialize (H l (or_intror Hin)). apply Nat.eqb_eq in H.
        simpl in H. apply Nat.eqb_eq.
        destruct (String.eqb l x); simpl in H; [|assumption].
        pose proof (filter_eqb_present l ls Hin). lia.
Qed.

Lemma profile_column_cases df l :
  In l (labels df) ->
  (single (labels df) l = true /\ exists r, profile_column df l = Ok r)
  \/ (single (labels df) l = false /\ profile_column df l = Raise TypeError).
Proof.
  intros _. unfold profile_column.
  destruct (getitem_cases df l) as [(c0 & _ & Hs & G)|[Hs G]]; rewrite G.
  - left. split; [assumption|]. eexists. reflexivity.
  - right. split; [assumption | reflexivity].
Qed.

Lemma collect_all_ok {A B : Type} (f : A -> outcome B) xs :
  (forall x, In x xs -> exists y, f x = Ok y) ->
  exists ys, collect f xs = Ok ys.
Proof.
  induction xs as [|x xs IH]; simpl; intros H; [eexists; reflexivity|].
  destruct (H x (or_introl eq_refl)) as (y & ->).
  destruct IH as (ys & ->); [intros; apply H; now right|].
  eexists; reflexivity.
Qed.

Lemma collect_one_raise {A B : Type} (f : A -> outcome B) e xs :
  (forall x, In x xs -> (exists y, f x = Ok y) \/ f x = Raise e) ->
  (exists x, In x xs /\ f x = Raise e) ->
  collect f xs = Raise e.
Proof.
  induction xs as [|x xs IH]; simpl; intros Hall (x0 & Hin & Hx0);
    [contradiction|].
  destruct (Hall x (or_introl eq_refl)) as [(y & Hy)|Hr].
  - rewrite Hy. destruct Hin as [->|Hin]; [congruence|].
    rewrite IH; [reflexivity | intros; apply Hall; now right | eauto].
  - now rewrite Hr.
Qed.

Lemma distinct_or_not (ls : list string) : NoDup ls \/ ~ NoDup ls.
Proof.
  induction ls as [|x ls [IH|IH]].
  - left. constructor.
  - destruct (in_dec string_dec x ls) as [Hin|Hn].
    + right. intros H. inversion H; auto.
    + left. now constructor.
  - right. intros H. inversion H; auto.
Qed.

Lemma profile_of_distinct_labels df :
  NoDup (labels df) ->
  exists rows,
    build_column_profile df = Ok rows
    /\ map column rows = labels df
    /\ map dtype_str rows = map (fun c => dtype_name (dtype (snd c)))
                                (columns df).
Proof.
  intros Hnd.
  destruct (collect_all_ok (profile_column df) (labels df)) as (rows & H).
  { intros l Hin.
    destruct (profile_column_cases df l Hin) as [[_ Hr]|[Hs _]];
      [exact Hr|].
    rewrite (proj1 (nodup_single _) Hnd l Hin) in Hs. discriminate. }
  exists rows. split; [exact H|].
  apply profile_rows_of in H. subst rows. unfold labels.
  rewrite !map_map. split; reflexivity.
Qed.

Lemma profile_of_shared_label df :
  ~ NoDup (labels df) -> build_column_profile df = Raise TypeError.
Proof.
  intros Hnd. apply collect_one_raise.
  - intros l Hin.
    destruct (profile_column_cases df l Hin) as [[_ Hr]|[_ Hr]]; auto.
  - destruct (existsb (fun l => negb (single (labels df) l)) (labels df))
      eqn:E.
    + apply existsb_exists in E. destruct E as (l & Hin & Hl).
      exists l. split; [assumption|].
      destruct (profile_column_cases df l Hin) as [[Hs _]|[_ Hr]];
        [|exact Hr].
      rewrite Hs in Hl. discriminate.
    + exfalso. apply Hnd. apply nodup_single. intros l Hin.
      destruct (single (labels df) l) eqn:Hs; [reflexivity|].
      assert (existsb (fun l => negb (single (labels df) l)) (labels df)
              = true).
      { apply existsb_exists. exists l. now rewrite Hs. }
      congruence.
Qed.

(** X1. The profile has one record per column, in the order of the
    columns, when the labels are pairwise distinct; when two columns share
    a label, [build_column_profile] raises [TypeError]. *)
Theorem profile_fails_on_shared_label (df : DataFrame) :
  (NoDup (labels df) ->
   exists rows,
     build_column_profile df = Ok rows
     /\ map column rows = labels df
     /\ map dtype_str rows = map (fun c => dtype_name (dtype (snd c)))
                                 (columns df))
  /\ (~ NoDup (labels df) -> build_column_profile df = Raise TypeError).
Proof.
  split; [apply profile_of_distinct_labels | apply profile_of_shared_label].
Qed.

Lemma distinct_length vs : forall seen,
  (List.length seen <= List.length (distinct seen vs)
   <= List.length seen + List.length vs)%nat.
Proof.
  induction vs as [|v vs IH]; intros seen; simpl; [lia|].
  destruct (existsb (py_eq v) seen).
  - specialize (IH seen). lia.
  - specialize (IH (seen ++ [v])%list). rewrite length_app in IH.
    simpl in IH. lia.
Qed.

Lemma distinct_nonempty v vs :
  (1 <= List.length (distinct [] (v :: vs)))%nat.
Proof.
  simpl. pose proof (distinct_length vs [v]). simpl in *. lia.
Qed.

Lemma present_length cs : (List.length (present cs) <= List.length cs)%nat.
Proof.
  induction cs as [|[v|] cs IH]; simpl; lia.
Qed.

Lemma present_nil cs : present cs = [] <-> forallb isna cs = true.
Proof.
  induction cs as [|[v|] cs IH]; simpl.
  - tauto.
  - split; discriminate.
  - exact IH.
Qed.

(** X2. The number of distinct values of a column is at most the number of
    its cells that are not null, and is zero exactly when every cell is
    null. *)
Theorem nunique_bounds (s : Series) :
  (nunique s <= List.length (present (values s)) <= List.length (values s))%nat
  /\ (nunique s = 0%nat <-> forallb isna (values s) = true).
Proof.
  unfold nunique. split.
  - pose proof (distinct_length (present (values s)) []).
    pose proof (present_length (values s)). simpl in *. lia.
  - rewrite <- present_nil.
    destruct (present (values s)) as [|v vs] eqn:E.
    + split; reflexivity.
    + pose proof (distinct_nonempty v vs). split; [lia | discriminate].
Qed.

Lemma fold_pick_in {A : Type} (choose : A -> A -> A) vs :
  (forall m x, choose m x = m \/ choose m x = x) ->
  forall v, In (fold_left choose vs v) (v :: vs).
Proof.
  intros Hc. induction vs as [|x vs IH]; intros v; simpl; [now left|].
  destruct (IH (choose v x)) as [H|H].
  - rewrite <- H. destruct (Hc v x) as [-> | ->]; auto.
  - right. now right.
Qed.

Lemma present_in v cs : In v (present cs) <-> In (Some v) cs.
Proof.
  induction cs as [|[w|] cs IH]; simpl.
  - tauto.
  - rewrite IH. split; intros [H|H]; auto; left; congruence.
  - rewrite IH. split; [auto | intros [H|H]; [discriminate | assumption]].
Qed.

Lemma series_range_cells (s : Series) :
  (forall v, series_min s = Some v -> In (Some v) (values s))
  /\ (forall v, series_max s = Some v -> In (Some v) (values s))
  /\ (series_min s = None <-> forallb isna (values s) = true)
  /\ (series_max s = None <-> forallb isna (values s) = true).
Proof.
  unfold series_min, series_max. rewrite <- present_nil.
  destruct (present (values s)) as [|v0 vs] eqn:E.
  - repeat split; try discriminate; reflexivity.
  - repeat split; try discriminate.
    + intros v H. injection H as <-. apply present_in. rewrite E.
      apply fold_pick_in. intros m x. destruct (value_leb m x); auto.
    + intros v H. injection H as <-. apply present_in. rewrite E.
      apply fold_pick_in. intros m x. destruct (value_leb x m); auto.
Qed.

(** X3. The record that the loop of [build_column_profile] fills for a
    column, as it is appended to [rows] and before the table is made of
    the records: for a column of a numeric or datetime dtype, ["min"] and
    ["max"] are cells of the column, and they are null exactly when the
    column has no cell that is not null; for a column of any other dtype
    both are the empty text. *)
Theorem min_max_are_cells (df : DataFrame) (col : string) (r : ProfileRow) :
  profile_column df col = Ok r ->
  exists s,
    getitem df col = SelSeries s
    /\ column r = col
    /\ if is_numeric_dtype (SelSeries s)
          || is_datetime64_any_dtype (SelSeries s)
       then (forall v, min_val r = Some v -> In (Some v) (values s))
            /\ (forall v, max_val r = Some v -> In (Some v) (values s))
            /\ (min_val r = None <-> forallb isna (values s) = true)
            /\ (max_val r = None <-> forallb isna (values s) = true)
       else min_val r = Some (VStr "") /\ max_val r = Some (VStr "").
Proof.
  unfold profile_column. intros H.
  destruct (getitem df col) as [s|n cols]; [|discriminate].
  cbv zeta in H.
  remember (is_numeric_dtype (SelSeries s)
            || is_datetime64_any_dtype (SelSeries s)) as ranged.
  injection H as <-. exists s. split; [reflexivity|].
  split; [reflexivity|]. cbn [min_val max_val]. rewrite <- Heqranged.
  destruct ranged.
  - apply series_range_cells.
  - split; reflexivity.
Qed.

(** ** More on the cleaner *)

Section CleanerFacts.
Context {RT : Runtime}.

(** X4. Cleaning a cleaned table has the effect of one cleaning that
    drops duplicates when either of the two did. *)
Theorem clean_twice (df : DataFrame) (first second : bool) :
  safe_clean_dataframe (safe_clean_dataframe df first) second
  = safe_clean_dataframe df (first || second).
Proof.
  destruct first, second; cbn [orb].
  - apply clean_drop_idempotent.
  - rewrite safe_clean_no_drop, safe_clean_drop.
    apply cleaned_frame_drop, cleaned_frame_idem.
  - rewrite !safe_clean_drop, safe_clean_no_drop.
    now rewrite cleaned_frame_idem.
  - rewrite !safe_clean_no_drop. apply cleaned_frame_idem.
Qed.

Lemma clean_cell_tidy c : tidy_cell (clean_cell c).
Proof.
  destruct c as [v|]; [|exact I]. unfold clean_cell. cbv zeta.
  destruct (existsb (String.eqb (PyStr.strip (str_of_value v))) NA_KEYS)
    eqn:E; [exact I|].
  split; [apply strip_idem | exact E].
Qed.

Lemma take_rows_labels df ps : labels (take_rows df ps) = labels df.
Proof. unfold labels, take_rows. simpl. now rewrite map_map. Qed.

Lemma safe_clean_labels df drop :
  labels (safe_clean_dataframe df drop) = map PyStr.strip (labels df).
Proof.
  destruct (clean_row_and_column_counts df) as (_ & _ & H & _). apply H.
Qed.

Lemma cleaned_frame_tidy df c :
  In c (columns (cleaned_frame df)) ->
  single (labels (cleaned_frame df)) (fst c) = true ->
  is_text (dtype (snd c)) = true ->
  dtype (snd c) = string_ /\ Forall tidy_cell (values (snd c)).
Proof.
  intros Hin Hs Ht. rewrite cleaned_frame_labels in Hs.
  unfold cleaned_frame in Hin. cbv zeta in Hin. simpl in Hin.
  rewrite set_labels_labels in Hin.
  apply in_map_iff in Hin. destruct Hin as (c0 & <- & Hin0).
  rewrite clean_entry_label in Hs. unfold clean_entry in *.
  destruct (single (map PyStr.strip (labels df)) (fst c0)
            && is_text (dtype (snd c0))) eqn:E.
  - cbn [snd]. rewrite clean_column_values. cbn [dtype values].
    split; [reflexivity|]. apply Forall_forall. intros x Hx.
    apply in_map_iff in Hx. destruct Hx as (y & <- & _).
    apply clean_cell_tidy.
  - rewrite Hs, Ht in E. discriminate.
Qed.

(** X5. After cleaning, with or without dropping, every label is
    trimmed, and every column of dtype object or string that its label
    names alone has dtype string and holds only nulls and trimmed texts
    that are none of the keys of the replacement table. *)
Theorem cleaned_cells_are_tidy (df : DataFrame) (drop : bool) :
  Forall (fun l => PyStr.strip l = l)
         (labels (safe_clean_dataframe df drop))
  /\ forall c,
       In c (columns (safe_clean_dataframe df drop)) ->
       single (labels (safe_clean_dataframe df drop)) (fst c) = true ->
       is_text (dtype (snd c)) = true ->
       dtype (snd c) = string_ /\ Forall tidy_cell (values (snd c)).
Proof.
  split.
  - rewrite safe_clean_labels. apply Forall_forall. intros l Hl.
    apply in_map_iff in Hl. destruct Hl as (l0 & <- & _).
    apply strip_idem.
  - destruct drop.
    + rewrite safe_clean_drop. unfold drop_duplicates.
      destruct (empty (cleaned_frame df)); [apply cleaned_frame_tidy|].
      set (ps := positions (map negb (duplicated (cleaned_frame df)))).
      intros c Hin Hs Ht. rewrite take_rows_labels in Hs.
      unfold take_rows in Hin. simpl in Hin.
      apply in_map_iff in Hin. destruct Hin as (c0 & <- & Hin0).
      cbn [fst snd dtype values] in *.
      destruct (cleaned_frame_tidy df c0 Hin0 Hs Ht) as [Hd Hall].
      split; [exact Hd|]. apply Forall_forall. intros x Hx.
      apply in_map_iff in Hx. destruct Hx as (i & <- & _).
      destruct (nth_in_or_default i (values (snd c0)) None) as [Hn | ->];
        [|exact I].
      rewrite Forall_forall in Hall. now apply Hall.
    + rewrite safe_clean_no_drop. apply cleaned_frame_tidy.
Qed.

Lemma cleaned_frame_well_formed df :
  well_formed df -> well_formed (cleaned_frame df).
Proof.
  unfold well_formed, cleaned_frame, set_labels. simpl.
  rewrite !Forall_forall. intros H c Hin.
  apply in_map_iff in Hin. destruct Hin as (c1 & <- & Hin1).
  apply in_map_iff in Hin1. destruct Hin1 as (c0 & <- & Hin0).
  specialize (H c0 Hin0). unfold clean_entry. cbn [fst snd].
  destruct (single _ (PyStr.strip (fst c0)) && is_text (dtype (snd c0)));
    cbn [snd]; [|exact H].
  rewrite clean_column_values. cbn [values]. now rewrite length_map.
Qed.

(** X6. Cleaning keeps the table well formed: if every column of the
    input has one cell per row, so has every column of the result. *)
Theorem clean_keeps_well_formed (df : DataFrame) (drop : bool) :
  well_formed df -> well_formed (safe_clean_dataframe df drop).
Proof.
  intros H. destruct drop.
  - rewrite safe_clean_drop. unfold drop_duplicates.
    destruct (empty (cleaned_frame df));
      [now apply cleaned_frame_well_formed | apply take_rows_well_formed].
  - rewrite safe_clean_no_drop. now apply cleaned_frame_well_formed.
Qed.

Lemma count_true_map_le {A : Type} (p q : A -> bool) l :
  (forall x, p x = true -> q x = true) ->
  (count_true (map p l) <= count_true (map q l))%nat.
Proof.
  intros H. unfold count_true. induction l as [|x l IH]; simpl; [lia|].
  destruct (p x) eqn:Ep.
  - rewrite (H x Ep). simpl. lia.
  - destruct (q x); simpl; lia.
Qed.

Lemma clean_cell_isna c : isna c = true -> isna (clean_cell c) = true.
Proof. now destruct c. Qed.

(** X7. Cleaning without dropping never fills a null: a cell that is
    null stays null in its place, so the number of missing cells does
    not fall. *)
Theorem clean_keeps_nulls (df : DataFrame) :
  Forall2
    (fun c c' =>
       Forall2 (fun x x' => isna x = true -> isna x' = true)
               (values (snd c)) (values (snd c')))
    (columns df) (columns (safe_clean_dataframe df false))
  /\ (missing_cells df
      <= missing_cells (safe_clean_dataframe df false))%nat.
Proof.
  rewrite safe_clean_no_drop. unfold cleaned_frame. cbv zeta.
  generalize (labels (set_labels df PyStr.strip)). intros ls.
  unfold set_labels. simpl. split.
  - induction (columns df) as [|c cols IH]; simpl; [constructor|].
    constructor; [|exact IH].
    unfold clean_entry. cbn [fst snd].
    destruct (single ls (PyStr.strip (fst c)) && is_text (dtype (snd c)));
      cbn [snd].
    + rewrite clean_column_values. cbn [values].
      induction (values (snd c)) as [|x xs IHx]; simpl;
        [constructor|].
      constructor; [apply clean_cell_isna | exact IHx].
    + induction (values (snd c)) as [|x xs IHx]; [constructor|].
      constructor; [tauto | exact IHx].
  - unfold missing_cells. simpl. rewrite !map_map.
    induction (columns df) as [|c cols IH]; simpl; [lia|].
    assert (count_true (map isna (values (snd c)))
            <= count_true
                 (map isna
                    (values (snd (clean_entry ls
                                    (PyStr.strip (fst c), snd c))))))%nat.
    { unfold clean_entry. cbn [fst snd].
      destruct (single ls (PyStr.strip (fst c))
                && is_text (dtype (snd c))); cbn [snd]; [|lia].
      rewrite clean_column_values. cbn [values]. rewrite map_map.
      apply count_true_map_le, clean_cell_isna. }
    lia.
Qed.
End CleanerFacts.

(** ** Exact duplicates *)

Lemma py_eq_refl v : py_eq v v = true.
Proof.
  destruct v; unfold py_eq; simpl;
    try (apply Qeq_bool_iff; reflexivity);
    [apply String.eqb_refl | apply Z.eqb_refl].
Qed.

Lemma py_eq_trans u v w :
  py_eq u v = true -> py_eq v w = true -> py_eq u w = true.
Proof.
  unfold py_eq.
  destruct (num_of u) as [a|] eqn:Eu, (num_of v) as [b|] eqn:Ev,
           (num_of w) as [c|] eqn:Ew; intros H1 H2; try discriminate.
  - apply Qeq_bool_iff in H1, H2. apply Qeq_bool_iff. now rewrite H1.
  - destruct u, v; try discriminate; destruct w; try discriminate.
    + apply String.eqb_eq in H1, H2. subst. apply String.eqb_refl.
    + apply Z.eqb_eq in H1, H2. subst. apply Z.eqb_refl.
Qed.

Lemma cell_eq_refl c : cell_eq c c = true.
Proof. destruct c; [apply py_eq_refl | reflexivity]. Qed.

Lemma cell_eq_trans a b c :
  cell_eq a b = true -> cell_eq b c = true -> cell_eq a c = true.
Proof.
  destruct a, b, c; simpl; try discriminate; auto. apply py_eq_trans.
Qed.

Lemma row_eq_refl r : row_eq r r = true.
Proof. induction r; simpl; [reflexivity|]. now rewrite cell_eq_refl. Qed.

Lemma row_eq_trans r : forall s t,
  row_eq r s = true -> row_eq s t = true -> row_eq r t = true.
Proof.
  induction r as [|a r IH]; intros [|b s] [|c t]; simpl; try discriminate;
    auto.
  intros H1 H2. apply andb_true_iff in H1, H2.
  destruct H1 as [H1 H1'], H2 as [H2 H2'].
  apply andb_true_iff. split; [eapply cell_eq_trans | eapply IH]; eauto.
Qed.

(** The mark of the row at [i] says whether a row seen before equals it. *)
Lemma dup_mask_nth rs : forall seen i,
  (i < List.length rs)%nat ->
  nth i (dup_mask seen rs) false
  = existsb (row_eq (nth i rs [])) (seen ++ firstn i rs)%list.
Proof.
  induction rs as [|r rs IH]; intros seen i Hi; simpl in Hi; [lia|].
  destruct i as [|i]; simpl.
  - now rewrite app_nil_r.
  - rewrite IH by lia. now rewrite <- app_assoc.
Qed.

Lemma in_firstn_nth {A : Type} (d : A) (l : list A) i x :
  In x (firstn i l) -> exists j, (j < i)%nat /\ (j < List.length l)%nat
                                 /\ nth j l d = x.
Proof.
  revert l. induction i as [|i IH]; intros [|y l]; simpl; try tauto.
  intros [->|H].
  - exists 0%nat. repeat split; lia.
  - destruct (IH l H) as (j & Hj & Hl & E). exists (S j).
    repeat split; try lia. exact E.
Qed.

Lemma nth_in_firstn {A : Type} (d : A) (l : list A) i j :
  (j < i)%nat -> (j < List.length l)%nat -> In (nth j l d) (firstn i l).
Proof.
  revert l j. induction i as [|i IH]; intros [|y l] j Hj Hl; simpl in *;
    try lia.
  destruct j; [now left | right; apply IH; lia].
Qed.

Lemma marked_iff rs i :
  (i < List.length rs)%nat ->
  nth i (dup_mask [] rs) false = true
  <-> exists j, (j < i)%nat /\ row_eq (nth i rs []) (nth j rs []) = true.
Proof.
  intros Hi. rewrite dup_mask_nth by exact Hi. simpl. split.
  - intros H. apply existsb_exists in H. destruct H as (x & Hx & E).
    destruct (in_firstn_nth [] rs i x Hx) as (j & Hj & _ & <-). eauto.
  - intros (j & Hj & E). apply existsb_exists.
    exists (nth j rs []). split; [|exact E].
    apply nth_in_firstn; lia.
Qed.

Lemma duplicated_marks_later_copies (df : DataFrame) (i : nat) :
  empty df = false -> (i < nrows df)%nat ->
  nth i (duplicated df) false = true
  <-> exists j, (j < i)%nat
                /\ row_eq (nth i (rows df) []) (nth j (rows df) []) = true.
Proof.
  intros E Hi. unfold duplicated. rewrite E. apply marked_iff.
  now rewrite rows_length.
Qed.

Lemma count_true_pos m :
  (0 < count_true m)%nat
  <-> exists i, (i < List.length m)%nat /\ nth i m false = true.
Proof.
  unfold count_true. induction m as [|b m IH]; simpl.
  - split; [lia | intros (i & Hi & _); lia].
  - destruct b; simpl.
    + split; [|lia]. intros _. exists 0%nat. split; [lia | reflexivity].
    + rewrite IH. split.
      * intros (i & Hi & E). exists (S i). split; [lia | exact E].
      * intros ([|i] & Hi & E); [discriminate|].
        exists i. split; [lia | exact E].
Qed.

(** X8. When the rule for duplicate rows reports an issue, the table has
    a row and a column and two rows at different positions are equal cell
    by cell. And when a row without a null cell equals, cell by cell, a
    row before it, the rule reports an issue. *)
Theorem duplicate_rule_fires (df : DataFrame) :
  (duplicate_issues df <> [] ->
   empty df = false
   /\ exists i j, (j < i < nrows df)%nat
                  /\ row_eq (nth i (rows df) []) (nth j (rows df) [])
                     = true)
  /\ (forall i j,
         empty df = false -> (j < i < nrows df)%nat ->
         forallb notna (nth i (rows df) []) = true ->
         row_eq (nth i (rows df) []) (nth j (rows df) []) = true ->
         duplicate_issues df <> []).
Proof.
  unfold duplicate_issues, dup_count.
  destruct (0 <? count_true (duplicated df))%nat eqn:Ec.
  - apply Nat.ltb_lt in Ec. split; [intros _ | discriminate].
    destruct (empty df) eqn:E.
    + unfold duplicated in Ec. rewrite E in Ec. unfold count_true in Ec.
      simpl in Ec. lia.
    + split; [reflexivity|].
      apply count_true_pos in Ec. destruct Ec as (i & Hi & Em).
      rewrite duplicated_length in Hi by exact E.
      apply duplicated_marks_later_copies in Em; auto.
      destruct Em as (j & Hj & Eq). exists i, j. split; [lia | exact Eq].
  - apply Nat.ltb_ge in Ec. split; [congruence|].
    intros i j E Hij _ Eq. exfalso.
    assert (0 < count_true (duplicated df))%nat; [|lia].
    apply count_true_pos. exists i. split.
    + rewrite duplicated_length by exact E. lia.
    + apply duplicated_marks_later_copies; [exact E | lia |].
      exists j. split; [lia | exact Eq].
Qed.

Lemma first_copy rs : forall i,
  (i < List.length rs)%nat ->
  exists j, (j <= i)%nat /\ nth j (dup_mask [] rs) false = false
            /\ row_eq (nth i rs []) (nth j rs []) = true.
Proof.
  intros i. induction i as [i IH] using lt_wf_ind. intros Hi.
  destruct (nth i (dup_mask [] rs) false) eqn:Em.
  - apply marked_iff in Em; [|exact Hi]. destruct Em as (j & Hj & E).
    destruct (IH j Hj) as (k & Hk & Hm & E'); [lia|].
    exists k. repeat split; [lia | exact Hm |].
    eapply row_eq_trans; eauto.
  - exists i. repeat split; [lia | exact Em | apply row_eq_refl].
Qed.

Lemma in_pick {A : Type} (d : A) m : forall (xs : list A) i,
  List.length m = List.length xs -> (i < List.length xs)%nat ->
  nth i m false = true -> In (nth i xs d) (pick m xs).
Proof.
  induction m as [|b m IH]; intros [|x xs] i Hl Hi Hn; simpl in *;
    try lia.
  destruct i as [|i].
  - subst b. now left.
  - destruct b; [right|]; apply IH; auto; lia.
Qed.

Lemma pick_incl {A : Type} m : forall xs : list A, incl (pick m xs) xs.
Proof.
  induction m as [|b m IH]; intros [|x xs]; simpl; try apply incl_nil_l.
  destruct b.
  - apply incl_cons; [now left | apply incl_tl, IH].
  - apply incl_tl, IH.
Qed.

Lemma rows_drop_duplicates df :
  empty df = false ->
  rows (drop_duplicates df) = pick (map negb (duplicated df)) (rows df).
Proof.
  intros E. unfold drop_duplicates. rewrite E.
  rewrite rows_take_rows, positions_pick, pick_map.
  now rewrite length_map, duplicated_length by assumption.
Qed.

Lemma duplicated_drop df : count_true (duplicated (drop_duplicates df)) = 0%nat.
Proof.
  destruct (empty df) eqn:E.
  - unfold drop_duplicates. rewrite E. unfold duplicated. now rewrite E.
  - unfold duplicated at 1.
    destruct (empty (drop_duplicates df)) eqn:E'; [reflexivity|].
    rewrite rows_drop_duplicates by exact E.
    unfold duplicated. rewrite E.
    rewrite (dup_mask_kept (rows df) [] []) by apply incl_refl.
    unfold count_true.
    induction (pick (map negb (dup_mask [] (rows df))) (rows df));
      simpl; auto.
Qed.

Lemma drop_keeps_one_of_each (df : DataFrame) :
  (forall r, In r (rows df) ->
             exists r', In r' (rows (drop_duplicates df))
                        /\ row_eq r r' = true)
  /\ incl (rows (drop_duplicates df)) (rows df)
  /\ count_true (duplicated (drop_duplicates df)) = 0%nat.
Proof.
  split; [|split; [|apply duplicated_drop]].
  - intros r Hr. destruct (empty df) eqn:E.
    + unfold drop_duplicates. rewrite E. exists r.
      split; [exact Hr | apply row_eq_refl].
    + rewrite rows_drop_duplicates by exact E.
      destruct (In_nth _ _ [] Hr) as (i & Hi & <-).
      destruct (first_copy (rows df) i Hi) as (j & Hj & Hm & Eq).
      exists (nth j (rows df) []). split; [|exact Eq].
      apply in_pick.
      * rewrite length_map, duplicated_length, rows_length; auto.
      * lia.
      * unfold duplicated. rewrite E.
        assert (Hl : (j < List.length (dup_mask [] (rows df)))%nat)
          by (rewrite dup_mask_length; lia).
        rewrite (nth_indep _ false (negb true)) by (now rewrite length_map).
        rewrite map_nth, (nth_indep _ true false Hl). now rewrite Hm.
  - destruct (empty df) eqn:E.
    + unfold drop_duplicates. rewrite E. apply incl_refl.
    + rewrite rows_drop_duplicates by exact E. apply pick_incl.
Qed.

Section CleanAndCount.
Context {RT : Runtime}.

(** X9. Dropping duplicates in the cleaner keeps one row of each
    kind: every row of the table cleaned without dropping equals a row
    of the table cleaned with dropping, and every row of the latter is
    a row of the former. *)
Theorem cleaner_keeps_one_of_each (df : DataFrame) :
  (forall r, In r (rows (safe_clean_dataframe df false)) ->
             exists r', In r' (rows (safe_clean_dataframe df true))
                        /\ row_eq r r' = true)
  /\ incl (rows (safe_clean_dataframe df true))
          (rows (safe_clean_dataframe df false)).
Proof.
  rewrite safe_clean_drop, safe_clean_no_drop.
  destruct (drop_keeps_one_of_each (cleaned_frame df)) as (H1 & H2 & _).
  now split.
Qed.

(** X10. A table cleaned with duplicates dropped has no duplicate left:
    the duplicate count of the summary is zero and the rule for
    duplicate rows reports nothing. *)
Theorem no_duplicates_after_cleaning (df : DataFrame) :
  dup_count (safe_clean_dataframe df true) = 0%nat
  /\ duplicate_issues (safe_clean_dataframe df true) = [].
Proof.
  rewrite safe_clean_drop. unfold duplicate_issues, dup_count.
  rewrite duplicated_drop. now split.
Qed.

Lemma first_row_unmarked df :
  empty df = false -> (count_true (duplicated df) < nrows df)%nat.
Proof.
  intros E. unfold duplicated. rewrite E.
  pose proof (rows_length df) as Hl.
  unfold empty in E. apply orb_false_iff in E. destruct E as [En _].
  apply Nat.eqb_neq in En.
  destruct (rows df) as [|r rs]; simpl in *; [lia|].
  unfold count_true. simpl.
  pose proof (count_true_le (dup_mask [r] rs)) as Hc.
  unfold count_true in Hc. rewrite dup_mask_length in Hc. lia.
Qed.

(** X11. Cleaning never empties a table: a table with a row still has a
    row afterwards, and the first row is never counted as a duplicate. *)
Theorem cleaning_keeps_a_row (df : DataFrame) (drop : bool) :
  (0 < nrows df)%nat ->
  (0 < nrows (safe_clean_dataframe df drop))%nat
  /\ (dup_count df < nrows df \/ columns df = [])%nat.
Proof.
  intros Hn. split.
  - destruct drop.
    + rewrite safe_clean_drop.
      pose proof (drop_duplicates_nrows (cleaned_frame df)) as Hd.
      assert (Hc : nrows (cleaned_frame df) = nrows df) by reflexivity.
      destruct (empty (cleaned_frame df)) eqn:E.
      * unfold drop_duplicates. rewrite E. lia.
      * pose proof (first_row_unmarked _ E). lia.
    + rewrite safe_clean_no_drop. exact Hn.
  - destruct (empty df) eqn:E.
    + right. unfold empty in E. apply orb_true_iff in E.
      destruct E as [E|E]; [apply Nat.eqb_eq in E; lia|].
      apply Nat.eqb_eq in E. now destruct (columns df).
    + left. now apply first_row_unmarked.
Qed.
End CleanAndCount.

(** ** More on the rules *)

Section RuleFacts.
Context {RT : Runtime}.

Lemma take_positions_incl {A : Type} (xs : list A) ps : forall ys,
  take_positions xs ps = Some ys -> incl ys xs.
Proof.
  induction ps as [|p ps IH]; simpl; intros ys H.
  - injection H as <-. apply incl_nil_l.
  - destruct (nth_error xs p) as [x|] eqn:Ex; [|discriminate].
    destruct (take_positions xs ps) as [zs|]; [|discriminate].
    injection H as <-. apply incl_cons.
    + eapply nth_error_In; eauto.
    + now apply IH.
Qed.

(** What [sample] returns is drawn from the population. *)
Lemma sample_incl {A : Type} (xs : list A) n rs (w w' : World) ys :
  sample xs n rs w = (Ok ys, w') -> incl ys xs.
Proof.
  unfold sample. destruct (List.length xs <? n)%nat; [discriminate|].
  destruct rs as [z|]; cbv beta iota zeta.
  - destruct (take_positions xs _) eqn:E; [|discriminate].
    intros H. injection H as <- _. eapply take_positions_incl; eauto.
  - destruct (rng_permutation _ _) as [perm g].
    destruct (take_positions xs _) eqn:E; [|discriminate].
    intros H. injection H as <- _. eapply take_positions_incl; eauto.
Qed.

Lemma nodup_two {A : Type} (dec : forall x y : A, {x = y} + {x <> y}) l :
  (1 < List.length (nodup dec l))%nat ->
  exists a b, In a l /\ In b l /\ a <> b.
Proof.
  intros H. pose proof (NoDup_nodup dec l) as Hnd.
  destruct (nodup dec l) as [|a [|b t]] eqn:E; simpl in H; try lia.
  exists a, b. repeat split.
  - apply (nodup_In dec). rewrite E. now left.
  - apply (nodup_In dec). rewrite E. right. now left.
  - inversion Hnd as [|? ? Hn _]; subst. intros ->. apply Hn. now left.
Qed.

Lemma dropna_present s : present (values (dropna s)) = present (values s).
Proof.
  unfold dropna. simpl. induction (values s) as [|[v|] cs IH]; simpl;
    [reflexivity | now rewrite IH | exact IH].
Qed.

Lemma infer_mixed_types_true sel n (w w' : World) :
  infer_mixed_types sel n w = (Ok true, w') ->
  exists s u v,
    sel = SelSeries s
    /\ In (Some u) (values s) /\ In (Some v) (values s)
    /\ type_name u <> type_name v.
Proof.
  unfold infer_mixed_types. destruct sel as [s|k cols].
  - rewrite dropna_present.
    destruct (List.length (present (values s)) =? 0)%nat;
      [unfold ret; intros H; discriminate|].
    unfold bind.
    destruct (sample (present (values s)) _ (Some SEED) w)
      as [[picked|e] w1] eqn:Es; [|discriminate].
    unfold ret. intros H. injection H as H _.
    apply Nat.ltb_lt in H. apply nodup_two in H.
    destruct H as (a & b & Ha & Hb & Hab).
    apply in_map_iff in Ha. destruct Ha as (u & <- & Hu).
    apply in_map_iff in Hb. destruct Hb as (v & <- & Hv).
    apply sample_incl in Es.
    exists s, u, v. repeat split; try (apply present_in); auto.
  - destruct (List.length (frame_dropna k cols) =? 0)%nat;
      [unfold ret; intros H; discriminate|].
    unfold bind. destruct (sample _ _ _ w) as [[picked|e] w1];
      unfold raise; discriminate.
Qed.

(** X12. A column listed by the mixed-types rule is the only one of its
    name and holds two cells that are not null and of different Python
    types; the rule itself always returns. *)
Theorem mixed_columns_hold_two_types (df : DataFrame) (w : World) :
  exists cols w',
    mixed_columns df w = (Ok cols, w')
    /\ incl cols (labels df)
    /\ Forall
         (fun col =>
            exists s u v,
              getitem df col = SelSeries s
              /\ In (Some u) (values s) /\ In (Some v) (values s)
              /\ type_name u <> type_name v) cols.
Proof.
  destruct (mixed_loop df w (labels df) [] w) as (w' & E).
  eexists. exists w'. split; [exact E|]. simpl. split.
  - intros col Hin. apply filter_In in Hin. tauto.
  - apply Forall_forall. intros col Hin. apply filter_In in Hin.
    destruct Hin as [_ Hin].
    destruct (infer_mixed_types (getitem df col) DEFAULT_SAMPLE_SIZE w)
      as [[[|]|e] w1] eqn:Ei; simpl in Hin; try discriminate.
    destruct (infer_mixed_types_true _ _ _ _ Ei)
      as (s & u & v & Hs & Hu & Hv & Hne).
    exists s, u, v. auto.
Qed.

(** *** Columns the detectors pass over *)

Lemma for_each_skip {A B : Type} (body : B -> A -> M B) xs :
  forall acc (w : World),
    Forall (fun x => forall a w0, body a x w0 = (Ok a, w0)) xs ->
    for_each xs acc body w = (Ok acc, w).
Proof.
  induction xs as [|x xs IH]; intros acc w H; simpl; [reflexivity|].
  inversion H as [|? ? Hx Hxs]; subst. unfold bind. rewrite Hx.
  now apply IH.
Qed.

Lemma email_body_skips df acc col (w : World) :
  scanned looks_like_email_column (fun _ => false) df col = false ->
  email_body df acc col w = (Ok acc, w).
Proof.
  unfold scanned, email_body. rewrite andb_true_r.
  destruct (looks_like_email_column col); cbn [negb andb];
    [|reflexivity].
  destruct (getitem df col) as [s|k cols]; cbv beta iota zeta;
    intros H; apply negb_false_iff in H; now rewrite H.
Qed.

Lemma date_body_skips df acc col (w : World) :
  scanned looks_like_date_column is_datetime64_any_dtype df col = false ->
  date_body df acc col w = (Ok acc, w).
Proof.
  unfold scanned, date_body.
  destruct (looks_like_date_column col); cbn [negb andb];
    [|reflexivity].
  destruct (getitem df col) as [s|k cols]; cbv beta iota zeta.
  - destruct (List.length (values (dropna s)) =? 0)%nat; cbn [negb andb];
      [reflexivity|].
    intros H. apply negb_false_iff in H. now rewrite H.
  - destruct (List.length (frame_dropna k cols) =? 0)%nat;
      cbn [negb andb]; [reflexivity|].
    unfold is_datetime64_any_dtype. discriminate.
Qed.

Lemma numeric_body_skips df acc col (w : World) :
  scanned looks_like_numeric_column is_numeric_dtype df col = false ->
  numeric_body df acc col w = (Ok acc, w).
Proof.
  unfold scanned, numeric_body.
  destruct (looks_like_numeric_column col); cbn [negb andb];
    [|reflexivity].
  destruct (getitem df col) as [s|k cols]; cbv beta iota zeta.
  - destruct (List.length (values (dropna s)) =? 0)%nat; cbn [negb andb];
      [reflexivity|].
    intros H. apply negb_false_iff in H. now rewrite H.
  - destruct (List.length (frame_dropna k cols) =? 0)%nat;
      cbn [negb andb]; [reflexivity|].
    unfold is_numeric_dtype. discriminate.
Qed.

(** X13. A detector that finds no column to look into reports nothing,
    draws no sample and raises nothing, whatever the table: no column
    whose name passes its test has a cell that is not null and a dtype
    other than the one it leaves alone. *)
Theorem detectors_pass_over (df : DataFrame) (w : World) :
  (forallb (fun c => negb (scanned looks_like_email_column
                             (fun _ => false) df c)) (labels df) = true ->
   detect_email_issues df w = (Ok [], w))
  /\ (forallb (fun c => negb (scanned looks_like_date_column
                                is_datetime64_any_dtype df c))
              (labels df) = true ->
      detect_date_parse_issues df w = (Ok [], w))
  /\ (forallb (fun c => negb (scanned looks_like_numeric_column
                                is_numeric_dtype df c))
              (labels df) = true ->
      detect_numeric_as_text_issues df w = (Ok [], w)).
Proof.
  repeat split; intros H; rewrite forallb_forall in H;
    apply for_each_skip; apply Forall_forall; intros c Hc a w0;
    specialize (H c Hc); apply negb_true_iff in H.
  - now apply email_body_skips.
  - now apply date_body_skips.
  - now apply numeric_body_skips.
Qed.
End RuleFacts.

(** ** What the rules report *)

Lemma pick_length_le {A : Type} m : forall xs : list A,
  (List.length (pick m xs) <= List.length xs)%nat.
Proof.
  induction m as [|b m IH]; intros [|x xs]; simpl; try lia.
  specialize (IH xs). destruct b; simpl; lia.
Qed.

Section Reports.
Context {RT : Runtime}.

(** A loop whose body leaves the list alone or appends one entry for the
    current element: the entries appended follow the elements, at most
    one for each. *)
Lemma for_each_emits {A B : Type} (mk : A -> B -> Prop)
      (body : list B -> A -> M (list B)) xs :
  (forall acc x (w : World) acc' w',
      body acc x w = (Ok acc', w') ->
      acc' = acc \/ exists i, acc' = (acc ++ [i])%list /\ mk x i) ->
  forall acc w r w',
    for_each xs acc body w = (Ok r, w') ->
    exists m new,
      r = (acc ++ new)%list /\ Forall2 mk (pick m xs) new.
Proof.
  intros Hb. induction xs as [|x xs IH]; intros acc w r w' H; simpl in H.
  - unfold ret in H. injection H as <- _. exists [], [].
    split; [now rewrite app_nil_r | constructor].
  - unfold bind in H.
    destruct (body acc x w) as [[acc1|e] w1] eqn:Eb; [|discriminate].
    destruct (IH _ _ _ _ H) as (m & new & -> & Hf).
    destruct (Hb _ _ _ _ _ Eb) as [->|(i & -> & Hi)].
    + exists (false :: m), new. split; [reflexivity | exact Hf].
    + exists (true :: m), (i :: new). split.
      * now rewrite <- app_assoc.
      * simpl. now constructor.
Qed.

Ltac emit H :=
  repeat match type of H with
         | ret _ _ = _ => unfold ret in H; injection H as <- _
         | raise _ _ = _ => discriminate H
         | (if ?b then _ else _) _ = _ => destruct b eqn:?
         | (match ?s with SelSeries _ => _ | SelFrame _ _ => _ end) _ = _ =>
             destruct s eqn:?
         | bind _ _ _ = _ => unfold bind in H
         | (let (_, _) := ?m in _) = _ =>
             let r := fresh "r" in destruct m as [[r|?] ?] eqn:?
         | (match ?m with (_, _) => _ end) = _ =>
             let r := fresh "r" in destruct m as [[r|?] ?] eqn:?
         | (Raise _, _) = (Ok _, _) => discriminate H
         end.

Ltac scanned_true :=
  unfold scanned;
  repeat match goal with
         | Hl : negb _ = false |- _ => apply negb_false_iff in Hl; rewrite Hl
         | Hg : getitem _ _ = _ |- _ => rewrite Hg; clear Hg
         | Hn : (_ =? 0)%nat = false |- _ => rewrite Hn; clear Hn
         | Ht : is_datetime64_any_dtype _ = false |- _ => rewrite Ht; clear Ht
         | Ht : is_numeric_dtype _ = false |- _ => rewrite Ht; clear Ht
         end;
  reflexivity.

Lemma email_body_emits df acc col (w : World) acc' w' :
  email_body df acc col w = (Ok acc', w') ->
  acc' = acc
  \/ exists i, acc' = (acc ++ [i])%list
               /\ (scanned looks_like_email_column (fun _ => false)
                           df col = true
                   /\ warns_about "Invalid emails in `" col i).
Proof.
  intros H. unfold email_body in H. emit H; auto.
  right. eexists. split; [reflexivity|]. split; [|split; reflexivity].
  scanned_true.
Qed.

Lemma date_body_emits df acc col (w : World) acc' w' :
  date_body df acc col w = (Ok acc', w') ->
  acc' = acc
  \/ exists i, acc' = (acc ++ [i])%list
               /\ (scanned looks_like_date_column
                           is_datetime64_any_dtype df col = true
                   /\ warns_about "Date parsing issues in `" col i).
Proof.
  intros H. unfold date_body in H. emit H; auto.
  right. eexists. split; [reflexivity|]. split; [|split; reflexivity].
  scanned_true.
Qed.

Lemma numeric_body_emits df acc col (w : World) acc' w' :
  numeric_body df acc col w = (Ok acc', w') ->
  acc' = acc
  \/ exists i, acc' = (acc ++ [i])%list
               /\ (scanned looks_like_numeric_column is_numeric_dtype
                           df col = true
                   /\ warns_about "Numeric-as-text in `" col i).
Proof.
  intros H. unfold numeric_body in H. emit H; auto.
  right. eexists. split; [reflexivity|]. split; [|split; reflexivity].
  scanned_true.
Qed.

(** X14. Each of the three per-column detectors, when it returns, has
    filed at most one issue per column and in the order of the columns:
    its issues pair off with a selection of the labels, each the label
    of a column the detector looks into (the name passes its test, a
    cell is not null, the dtype is not the one it leaves alone) and
    each issue a warning whose title quotes the label. *)
Theorem detector_reports_follow_columns (df : DataFrame) (w : World) :
  (forall found w',
      detect_email_issues df w = (Ok found, w') ->
      exists m,
        Forall2 (fun col i => scanned looks_like_email_column (fun _ => false)
                                      df col = true
                              /\ warns_about "Invalid emails in `" col i)
                (pick m (labels df)) found)
  /\ (forall found w',
         detect_date_parse_issues df w = (Ok found, w') ->
         exists m,
           Forall2 (fun col i =>
                      scanned looks_like_date_column
                              is_datetime64_any_dtype df col = true
                      /\ warns_about "Date parsing issues in `" col i)
                   (pick m (labels df)) found)
  /\ (forall found w',
         detect_numeric_as_text_issues df w = (Ok found, w') ->
         exists m,
           Forall2 (fun col i =>
                      scanned looks_like_numeric_column
                              is_numeric_dtype df col = true
                      /\ warns_about "Numeric-as-text in `" col i)
                   (pick m (labels df)) found).
Proof.
  repeat split; intros found w' H.
  - destruct (for_each_emits _ _ _ (email_body_emits df) _ _ _ _ H)
      as (m & new & -> & Hf). now exists m.
  - destruct (for_each_emits _ _ _ (date_body_emits df) _ _ _ _ H)
      as (m & new & -> & Hf). now exists m.
  - destruct (for_each_emits _ _ _ (numeric_body_emits df) _ _ _ _ H)
      as (m & new & -> & Hf). now exists m.
Qed.

Lemma loop_warnings {A : Type} (P : A -> Issue -> Prop) xs found :
  (forall x i, P x i -> severity i = "warning") ->
  (exists m, Forall2 P (pick m xs) found) ->
  Forall (fun i => severity i = "warning") found
  /\ (List.length found <= List.length xs)%nat.
Proof.
  intros HP (m & Hf). split.
  - induction Hf; constructor; eauto.
  - rewrite <- (Forall2_length Hf). apply pick_length_le.
Qed.
End Reports.

(** *** Grouping by severity *)

Lemma group_fold found : forall g,
  fold_left group_step found g
  = mkGroups
      (critical g ++ filter (is_sev "critical") found)%list
      (warning g ++ filter (is_sev "warning") found)%list
      (info g ++ filter (fun i => negb (is_sev "critical" i)
                                  && negb (is_sev "warning" i)) found)%list.
Proof.
  induction found as [|it found IH]; intros [c wn inf]; simpl.
  - now rewrite !app_nil_r.
  - rewrite IH. unfold group_step, is_sev. cbv zeta. simpl.
    destruct (String.eqb (severity it) "critical") eqn:Ec; simpl.
    + rewrite Ec. simpl.
      assert (String.eqb (severity it) "warning" = false) as ->.
      { apply String.eqb_eq in Ec. now rewrite Ec. }
      simpl. now rewrite <- app_assoc.
    + destruct (String.eqb (severity it) "warning") eqn:Ew; simpl.
      * rewrite Ec, Ew. simpl. now rewrite <- app_assoc.
      * destruct (String.eqb (severity it) "info") eqn:Ei; simpl.
        -- rewrite Ec, Ew. simpl. now rewrite <- app_assoc.
        -- now rewrite <- app_assoc.
Qed.

(** X15. The issues tab files every issue under exactly one heading and
    keeps the order within a heading: "critical" and "warning" hold the
    issues of that severity, and "info" holds all the others, whatever
    their severity says. *)
Theorem group_issues_sorts_by_severity (found : list Issue) :
  critical (group_issues found) = filter (is_sev "critical") found
  /\ warning (group_issues found) = filter (is_sev "warning") found
  /\ info (group_issues found)
     = filter (fun i => negb (is_sev "critical" i)
                        && negb (is_sev "warning" i)) found
  /\ (List.length (critical (group_issues found))
      + List.length (warning (group_issues found))
      + List.length (info (group_issues found)) = List.length found)%nat.
Proof.
  unfold group_issues. rewrite group_fold. simpl.
  repeat split. unfold is_sev.
  induction found as [|it found IH]; simpl; [reflexivity|].
  destruct (String.eqb (severity it) "critical") eqn:Ec; simpl.
  - assert (String.eqb (severity it) "warning" = false) as ->.
    { apply String.eqb_eq in Ec. now rewrite Ec. }
    simpl. lia.
  - destruct (String.eqb (severity it) "warning"); simpl; lia.
Qed.

(** ** The whole run *)

Lemma filter_none {A : Type} (p : A -> bool) l :
  Forall (fun x => p x = false) l -> filter p l = [].
Proof. induction 1 as [|x l Hx _ IH]; simpl; [|rewrite Hx]; auto. Qed.

Lemma filter_all {A : Type} (p : A -> bool) l :
  Forall (fun x => p x = true) l -> filter p l = l.
Proof. induction 1 as [|x l Hx _ IH]; simpl; [|rewrite Hx, IH]; auto. Qed.

Lemma warnings_not sev l :
  sev <> "warning" ->
  Forall (fun i => severity i = "warning") l ->
  Forall (fun i => is_sev sev i = false) l.
Proof.
  intros Hs. apply Forall_impl. intros i Hi. unfold is_sev. rewrite Hi.
  apply String.eqb_neq. congruence.
Qed.

Section WholeRun.
Context {RT : Runtime}.

Lemma pk_issues_info rows :
  Forall (fun i => severity i = "info") (pk_issues rows)
  /\ (List.length (pk_issues rows) <= 1)%nat.
Proof.
  unfold pk_issues. destruct (pk_candidates rows); simpl;
    split; repeat constructor.
Qed.

Lemma duplicate_issues_warning df :
  Forall (fun i => severity i = "warning") (duplicate_issues df)
  /\ (List.length (duplicate_issues df) <= 1)%nat.
Proof.
  unfold duplicate_issues. destruct (0 <? dup_count df)%nat; simpl;
    split; repeat constructor.
Qed.

Lemma high_null_issues_warning rows :
  Forall (fun i => severity i = "warning") (high_null_issues rows)
  /\ (List.length (high_null_issues rows) <= 1)%nat.
Proof.
  unfold high_null_issues. destruct (high_null_cols rows); simpl;
    split; repeat constructor.
Qed.

Lemma mixed_issues_critical cols :
  Forall (fun i => severity i = "critical") (mixed_issues cols)
  /\ (List.length (mixed_issues cols) <= 1)%nat.
Proof.
  unfold mixed_issues. destruct cols; simpl; split; repeat constructor.
Qed.

Lemma email_loop_warnings df (w : World) found w' :
  detect_email_issues df w = (Ok found, w') ->
  Forall (fun i => severity i = "warning") found
  /\ (List.length found <= List.length (labels df))%nat.
Proof.
  intros H.
  destruct (for_each_emits _ _ _ (email_body_emits df) _ _ _ _ H)
    as (m & new & -> & Hf).
  eapply loop_warnings; [|exists m; exact Hf].
  intros x i [_ [Hs _]]. exact Hs.
Qed.

Lemma date_loop_warnings df (w : World) found w' :
  detect_date_parse_issues df w = (Ok found, w') ->
  Forall (fun i => severity i = "warning") found
  /\ (List.length found <= List.length (labels df))%nat.
Proof.
  intros H.
  destruct (for_each_emits _ _ _ (date_body_emits df) _ _ _ _ H)
    as (m & new & -> & Hf).
  eapply loop_warnings; [|exists m; exact Hf].
  intros x i [_ [Hs _]]. exact Hs.
Qed.

Lemma numeric_loop_warnings df (w : World) found w' :
  detect_numeric_as_text_issues df w = (Ok found, w') ->
  Forall (fun i => severity i = "warning") found
  /\ (List.length found <= List.length (labels df))%nat.
Proof.
  intros H.
  destruct (for_each_emits _ _ _ (numeric_body_emits df) _ _ _ _ H)
    as (m & new & -> & Hf).
  eapply loop_warnings; [|exists m; exact Hf].
  intros x i [_ [Hs _]]. exact Hs.
Qed.

(** The list [detect_issues] returns, part by part. *)
Lemma detect_issues_split df rows (w : World) found w' :
  detect_issues df rows w = (Ok found, w') ->
  exists mc before after,
    fst (mixed_columns df w) = Ok mc
    /\ found = (pk_issues rows ++ before ++ mixed_issues mc ++ after)%list
    /\ Forall (fun i => severity i = "warning") before
    /\ Forall (fun i => severity i = "warning") after
    /\ (List.length before <= 2)%nat
    /\ (List.length after <= 3 * List.length (columns df))%nat.
Proof.
  unfold detect_issues, bind. intros H.
  destruct (mixed_columns df w) as [[mc|e] w1]; [|discriminate].
  destruct (detect_email_issues df w1) as [[em|e] w2] eqn:Ee;
    [|discriminate].
  destruct (detect_date_parse_issues df w2) as [[dt|e] w3] eqn:Ed;
    [|discriminate].
  destruct (detect_numeric_as_text_issues df w3) as [[nm|e] w4] eqn:En;
    [|discriminate].
  unfold ret in H. injection H as <- _.
  exists mc, (duplicate_issues df ++ high_null_issues rows)%list,
    (em ++ dt ++ nm)%list.
  destruct (email_loop_warnings _ _ _ _ Ee) as [He Le].
  destruct (date_loop_warnings _ _ _ _ Ed) as [Hd Ld].
  destruct (numeric_loop_warnings _ _ _ _ En) as [Hn Ln].
  destruct (duplicate_issues_warning df) as [D1 D2].
  destruct (high_null_issues_warning rows) as [N1 N2].
  split; [reflexivity|]. split; [now rewrite <- !app_assoc|].
  split; [now apply Forall_app|].
  split; [repeat (apply Forall_app; split); assumption|].
  rewrite !length_app.
  assert (List.length (labels df) = List.length (columns df))
    by apply length_map.
  lia.
Qed.

(** X16. Under the headings of the issues tab a list that
    [detect_issues] returned has, as "info", the primary-key issue or
    nothing; as "critical", the mixed-types issue or nothing; and every
    other issue as "warning". It holds at most four issues and three
    more per column. *)
Theorem issue_counts
        (df : DataFrame) (profile_rows : list ProfileRow)
        (w w' : World) (found : list Issue) :
  detect_issues df profile_rows w = (Ok found, w') ->
  info (group_issues found) = pk_issues profile_rows
  /\ (exists mixed_cols,
        fst (mixed_columns df w) = Ok mixed_cols
        /\ critical (group_issues found) = mixed_issues mixed_cols)
  /\ (List.length (info (group_issues found)) <= 1)%nat
  /\ (List.length (critical (group_issues found)) <= 1)%nat
  /\ Forall (fun i => In (severity i) ["critical"; "warning"; "info"])
            found
  /\ (List.length found <= 4 + 3 * List.length (columns df))%nat.
Proof.
  intros H.
  destruct (detect_issues_split _ _ _ _ _ H)
    as (mc & before & after & Hmc & -> & Hb & Ha & Lb & La).
  destruct (pk_issues_info profile_rows) as [P1 P2].
  destruct (mixed_issues_critical mc) as [M1 M2].
  unfold group_issues. rewrite group_fold. cbn [critical warning info].
  cbn [app]. rewrite !filter_app.
  assert (Hpi : filter (fun i => negb (is_sev "critical" i)
                                 && negb (is_sev "warning" i))
                       (pk_issues profile_rows) = pk_issues profile_rows).
  { apply filter_all. eapply Forall_impl; [|exact P1].
    intros i Hi. unfold is_sev. now rewrite Hi. }
  assert (Hwi : forall l, Forall (fun i => severity i = "warning") l ->
                filter (fun i => negb (is_sev "critical" i)
                                 && negb (is_sev "warning" i)) l = []).
  { intros l Hl. apply filter_none. eapply Forall_impl; [|exact Hl].
    intros i Hi. unfold is_sev. now rewrite Hi. }
  assert (Hmi : filter (fun i => negb (is_sev "critical" i)
                                 && negb (is_sev "warning" i))
                       (mixed_issues mc) = []).
  { apply filter_none. eapply Forall_impl; [|exact M1].
    intros i Hi. unfold is_sev. now rewrite Hi. }
  assert (Hpc : filter (is_sev "critical") (pk_issues profile_rows) = []).
  { apply filter_none. eapply Forall_impl; [|exact P1].
    intros i Hi. unfold is_sev. now rewrite Hi. }
  assert (Hwc : forall l, Forall (fun i => severity i = "warning") l ->
                filter (is_sev "critical") l = []).
  { intros l Hl. apply filter_none, warnings_not; [discriminate|exact Hl]. }
  assert (Hmm : filter (is_sev "critical") (mixed_issues mc)
                = mixed_issues mc).
  { apply filter_all. eapply Forall_impl; [|exact M1].
    intros i Hi. unfold is_sev. now rewrite Hi. }
  rewrite Hpi, (Hwi _ Hb), (Hwi _ Ha), Hmi, Hpc, (Hwc _ Hb), (Hwc _ Ha),
    Hmm, !app_nil_r. cbn [app].
  split; [reflexivity|]. split; [exists mc; auto|].
  split; [exact P2|]. split; [exact M2|]. split.
  - repeat (apply Forall_app; split);
      (eapply Forall_impl; [|eassumption]); intros i Hi; rewrite Hi;
      simpl; auto.
  - rewrite !length_app. lia.
Qed.

(** *** [run_inspection] *)

(** X17. On a table in which two columns share a label the run ends with
    [TypeError] from the profile, before any rule is tried: nothing is
    drawn and the world is as it was. *)
Theorem inspection_needs_distinct_labels (df : DataFrame) (w : World) :
  ~ NoDup (labels df) -> run_inspection df w = (Raise TypeError, w).
Proof.
  intros H. unfold run_inspection, bind, lift.
  now rewrite (profile_of_shared_label df H).
Qed.

Lemma count_isna_le (cs : list cell) :
  (count_true (map isna cs) <= List.length cs)%nat.
Proof. rewrite <- (length_map isna cs). apply count_true_le. Qed.

Lemma missing_cells_le df :
  well_formed df ->
  (missing_cells df <= nrows df * List.length (columns df))%nat.
Proof.
  unfold well_formed, missing_cells. generalize (nrows df). intros n.
  induction (columns df) as [|c cols IH]; simpl; intros H; [lia|].
  inversion H as [|? ? Hc Hcs]; subst.
  specialize (IH Hcs). pose proof (count_isna_le (values (snd c))). lia.
Qed.

Lemma duplicated_le df : (count_true (duplicated df) <= nrows df)%nat.
Proof.
  destruct (empty df) eqn:E.
  - unfold duplicated. rewrite E. unfold count_true. simpl. lia.
  - rewrite <- (duplicated_length df E). apply count_true_le.
Qed.

(** X18. A report the run returns is about a table whose labels are
    pairwise distinct; its profile has one record per column in the
    order of the columns, its counts are those of the table, the
    duplicate rows are at most the rows, and on a well-formed table the
    missing cells are at most rows times columns. *)
Theorem report_describes_the_table
        (df : DataFrame) (w w' : World) (r : Report) :
  run_inspection df w = (Ok r, w') ->
  NoDup (labels df)
  /\ map column (profile r) = labels df
  /\ rows_total (dataset r) = nrows df
  /\ columns_total (dataset r) = List.length (profile r)
  /\ (duplicate_rows_total (dataset r) <= rows_total (dataset r))%nat
  /\ (well_formed df ->
      (missing_cells_total (dataset r)
       <= rows_total (dataset r) * columns_total (dataset r))%nat)
  /\ detect_issues df (profile r) w = (Ok (issues r), w').
Proof.
  intros H.
  assert (Hnd : NoDup (labels df)).
  { destruct (distinct_or_not (labels df)) as [Y|N]; [exact Y|].
    unfold run_inspection, bind, lift in H.
    rewrite (profile_of_shared_label df N) in H. discriminate. }
  split; [exact Hnd|].
  destruct (profile_of_distinct_labels df Hnd) as (rows & Hp & Hc & _).
  unfold run_inspection, bind, lift in H. rewrite Hp in H.
  destruct (detect_issues df rows w) as [[found|e] w1] eqn:Ed;
    [|discriminate].
  unfold ret in H. injection H as <- <-. cbn.
  split; [exact Hc|]. split; [reflexivity|].
  split.
  { rewrite <- (length_map column rows), Hc. unfold labels.
    now rewrite length_map. }
  split; [apply duplicated_le|].
  split; [apply missing_cells_le | exact Ed].
Qed.
End WholeRun.

(** ** The derivative matcher accepts every word of the language *)

Lemma app_empty (s t : string) : s ++ t = "" -> s = "" /\ t = "".
Proof. destruct s; simpl; [auto | discriminate]. Qed.

Lemma nullable_complete r s : Matches r s -> s = "" -> nullable r = true.
Proof.
  induction 1; simpl; intros E; try discriminate; try reflexivity.
  - apply app_empty in E. destruct E as [-> ->].
    now rewrite IHMatches1, IHMatches2.
  - now rewrite IHMatches.
  - rewrite IHMatches by assumption. apply orb_true_r.
Qed.

Lemma mk_seq_complete r1 r2 s :
  Matches (Seq r1 r2) s -> Matches (mk_seq r1 r2) s.
Proof.
  intros H. inversion H as [| |? ? s1 s2 H1 H2| | | |]; subst.
  destruct r1; simpl;
    try (now destruct (matches_void _ H1));
    destruct r2; simpl;
    try (now destruct (matches_void _ H2));
    try exact H.
  all: inversion H1; subst; exact H2.
Qed.

Lemma mk_alt_complete r1 r2 s :
  Matches (Alt r1 r2) s -> Matches (mk_alt r1 r2) s.
Proof.
  intros H.
  inversion H as [| | |? ? ? H1|? ? ? H2| |]; subst.
  - destruct r1; simpl;
      try (now destruct (matches_void _ H1));
      destruct r2; simpl; try exact H1; exact H.
  - destruct r1; simpl; try exact H2;
      destruct r2; simpl;
      try (now destruct (matches_void _ H2)); exact H.
Qed.

Lemma deriv_complete r s' :
  Matches r s' -> forall a s, s' = String a s -> Matches (deriv a r) s.
Proof.
  induction 1 as [|c b Hb|r1 r2 s1 s2 H1 IH1 H2 IH2|r1 r2 s0 H1 IH1
                  |r1 r2 s0 H2 IH2|r|r b s1 s2 H1 IH1 H2 IH2];
    intros a s E; simpl.
  - discriminate.
  - injection E as <- <-. rewrite Hb. constructor.
  - destruct s1 as [|c s1'].
    + simpl in E. subst s2.
      rewrite (nullable_complete _ _ H1 eq_refl).
      apply mk_alt_complete, MAltR. now apply IH2.
    + simpl in E. injection E as -> <-.
      assert (Hs : Matches (mk_seq (deriv a r1) r2) (s1' ++ s2)).
      { apply mk_seq_complete. constructor; [now apply IH1 | exact H2]. }
      destruct (nullable r1); [|exact Hs].
      now apply mk_alt_complete, MAltL.
  - apply mk_alt_complete, MAltL. now apply IH1.
  - apply mk_alt_complete, MAltR. now apply IH2.
  - discriminate.
  - simpl in E. injection E as -> <-.
    apply mk_seq_complete. constructor; [now apply IH1 | exact H2].
Qed.

Lemma fullmatch_complete s : forall r, Matches r s -> fullmatch r s = true.
Proof.
  induction s as [|a s IH]; simpl; intros r H.
  - eapply nullable_complete; eauto.
  - apply IH. eapply deriv_complete; eauto.
Qed.

Lemma all_in_star c s : all_in c s = true -> Matches (Star (Class c)) s.
Proof.
  induction s as [|a s IH]; simpl; intros H; [constructor|].
  apply andb_true_iff in H. destruct H as [Ha Hs].
  change (String a s) with (String a "" ++ s).
  apply MStarS; [now constructor | now apply IH].
Qed.

Lemma all_in_atleast c n : forall s,
  (n <= String.length s)%nat -> all_in c s = true ->
  Matches (AtLeast n (Class c)) s.
Proof.
  induction n as [|n IH]; intros s Hl H; simpl.
  - now apply all_in_star.
  - destruct s as [|a s]; simpl in Hl; [lia|].
    simpl in H. apply andb_true_iff in H. destruct H as [Ha Hs].
    change (String a s) with (String a "" ++ s).
    constructor; [now constructor | apply IH; [lia | exact Hs]].
Qed.

Lemma atleast_length c n : forall s,
  Matches (AtLeast n (Class c)) s -> (n <= String.length s)%nat.
Proof.
  induction n as [|n IH]; simpl; intros s H; [lia|].
  inversion H as [| |? ? s1 s2 H1 H2| | | |]; subst.
  inversion H1; subst. simpl. specialize (IH _ H2). lia.
Qed.

Lemma chop_newline_snoc s :
  chop_newline (s ++ String newline "") = Some s.
Proof.
  induction s as [|a s IH]; [reflexivity|].
  change (String a s ++ String newline "")
    with (String a (s ++ String newline "")).
  cbn [chop_newline]. rewrite IH.
  destruct (s ++ String newline "") eqn:E; [|reflexivity].
  destruct s; discriminate.
Qed.

Lemma plus_class c s :
  Matches (Plus (Class c)) s <-> s <> "" /\ all_in c s = true.
Proof.
  unfold Plus. split.
  - intros H. inversion H as [| |? ? s1 s2 H1 H2| | | |]; subst.
    inversion H1; subst. split; [discriminate|].
    simpl. rewrite H3. simpl. now apply star_class_all.
  - intros [Hne H]. destruct s as [|a s]; [congruence|].
    simpl in H. apply andb_true_iff in H. destruct H as [Ha Hs].
    change (String a s) with (String a "" ++ s).
    constructor; [now constructor | now apply all_in_star].
Qed.

Lemma class_single c s : Matches (Class [Chr c]) s <-> s = String c "".
Proof.
  split.
  - intros H. inversion H as [|? a Ha| | | | |]; subst.
    unfold in_cls in Ha. simpl in Ha. rewrite orb_false_r in Ha.
    apply Ascii.eqb_eq in Ha. now subst.
  - intros ->. constructor. unfold in_cls. simpl.
    now rewrite Ascii.eqb_refl.
Qed.

Lemma email_language w : Matches EMAIL_REGEX w <-> address w.
Proof.
  unfold EMAIL_REGEX, address. fold LOCAL. fold DOMAIN. split.
  - intros H.
    inversion H as [| |? ? loc t1 Hloc H1| | | |]; subst; clear H.
    inversion H1 as [| |? ? at_ t2 Hat H2| | | |]; subst; clear H1.
    inversion H2 as [| |? ? dom t3 Hdom H3| | | |]; subst; clear H2.
    inversion H3 as [| |? ? dot tld Hdot Htld| | | |]; subst; clear H3.
    apply class_single in Hat, Hdot. subst.
    apply plus_class in Hloc, Hdom.
    exists loc, dom, tld. split; [reflexivity|].
    destruct Hloc, Hdom. repeat split; auto.
    + exact (atleast_length letters 2 _ Htld).
    + exact (atleast_class_all letters 2 _ Htld).
  - intros (loc & dom & tld & -> & Hl1 & Hl2 & Hd1 & Hd2 & Ht1 & Ht2).
    constructor; [now apply plus_class|].
    change ("@" ++ dom ++ "." ++ tld) with ("@" ++ (dom ++ "." ++ tld)).
    constructor; [now apply class_single|].
    constructor; [now apply plus_class|].
    change ("." ++ tld) with ("." ++ tld).
    constructor; [now apply class_single|].
    now apply (all_in_atleast letters 2).
Qed.

(** X19. [EMAIL_REGEX] accepts exactly the addresses made of a local part,
    "@", a domain, "." and two letters or more, each part of its class and
    not empty, and such an address followed by one line feed. *)
Theorem email_pattern_accepts (w : string) :
  match_anchored EMAIL_REGEX w = true
  <-> address w \/ exists w', w = w' ++ String newline "" /\ address w'.
Proof.
  unfold match_anchored. split.
  - intros H. apply orb_true_iff in H. destruct H as [H|H].
    + left. now apply email_language, fullmatch_sound.
    + destruct (chop_newline w) as [w'|] eqn:E; [|discriminate].
      right. exists w'. split; [now apply chop_newline_app|].
      now apply email_language, fullmatch_sound.
  - intros [H|(w' & -> & H)]; apply orb_true_iff.
    + left. now apply fullmatch_complete, email_language.
    + right. rewrite chop_newline_snoc.
      now apply fullmatch_complete, email_language.
Qed.

(** ** Name tests and text clean-up of the detectors *)

Lemma eqb_endswith s : PyStr.endswith s s = true.
Proof.
  destruct s; [reflexivity|]. cbn [PyStr.endswith].
  now rewrite String.eqb_refl.
Qed.

Lemma endswith_tail c suf : forall s,
  PyStr.endswith s (String c suf) = true -> PyStr.endswith s suf = true.
Proof.
  induction s as [|a s IH]; simpl; intros H.
  - discriminate.
  - apply orb_true_iff in H. apply orb_true_iff. right.
    destruct H as [H|H].
    + apply andb_true_iff in H. destruct H as [_ H].
      apply String.eqb_eq in H. subst. apply eqb_endswith.
    + now apply IH.
Qed.

Lemma prefix_app a b : forall s,
  prefix (a ++ b) s = true -> prefix a s = true.
Proof.
  induction a as [|c a IH]; intros s H; [now destruct s|].
  destruct s as [|d s]; simpl in *; [discriminate|].
  destruct (ascii_dec c d); [now apply IH | discriminate].
Qed.

Lemma contains_app a b : forall s,
  PyStr.contains (a ++ b) s = true -> PyStr.contains a s = true.
Proof.
  induction s as [|d s IH]; intros H.
  - cbn [PyStr.contains] in *. rewrite orb_false_r in *.
    now apply prefix_app in H.
  - cbn [PyStr.contains] in *. apply orb_true_iff in H.
    apply orb_true_iff. destruct H as [H|H].
    + left. now apply prefix_app in H.
    + right. now apply IH.
Qed.

Section NameTests.
Context {RT : Runtime}.

(** X20. Two of the name tests are decided by fewer keywords than they
    list: a name that ends in "_mail" ends in "mail", and a name that
    contains "datetime" contains "date". *)
Theorem name_tests_have_spare_keywords (col_name : string) :
  let name := str_lower (PyStr.strip col_name) in
  looks_like_email_column col_name
  = (PyStr.contains "email" name || PyStr.endswith name "mail")
  /\ looks_like_date_column col_name
     = existsb (fun k => PyStr.contains k name)
               ["date"; "fecha"; "timestamp"; "created"; "updated"].
Proof.
  intros name. unfold looks_like_email_column, looks_like_date_column.
  fold name. cbv zeta. split.
  - destruct (PyStr.contains "email" name); [reflexivity|]. simpl.
    destruct (PyStr.endswith name "_mail") eqn:E; [|reflexivity].
    apply endswith_tail in E. now rewrite E.
  - cbn [existsb].
    destruct (PyStr.contains "date" name) eqn:Ed; [reflexivity|].
    destruct (PyStr.contains "datetime" name) eqn:Et; [|reflexivity].
    apply (contains_app "date" "time") in Et. congruence.
Qed.
End NameTests.

(** *** The separators of a date *)

Lemma any_byte_all s : all_in [Rng (ascii_of_N 0) (ascii_of_N 255)] s = true.
Proof.
  induction s as [|a s IH]; [reflexivity|].
  cbn [all_in]. rewrite IH, andb_true_r.
  destruct a as [[] [] [] [] [] [] [] []]; reflexivity.
Qed.

Lemma existsb_string_app p s t :
  existsb p (list_ascii_of_string (s ++ t))
  = existsb p (list_ascii_of_string s) || existsb p (list_ascii_of_string t).
Proof. induction s; simpl; [reflexivity | now rewrite IHs, orb_assoc]. Qed.

Lemma existsb_split p : forall s,
  existsb p (list_ascii_of_string s) = true ->
  exists s1 a s2, s = s1 ++ String a s2 /\ p a = true.
Proof.
  induction s as [|a s IH]; simpl; intros H; [discriminate|].
  destruct (p a) eqn:E.
  - exists "", a, s. auto.
  - destruct (IH H) as (s1 & b & s2 & -> & Hb).
    exists (String a s1), b, s2. auto.
Qed.

(** X21. A text counts as date-like exactly when one of its bytes is
    "-", "/", ":" or ".". *)
Theorem date_separator_search (s : string) :
  search DATE_SEPARATOR s
  = existsb (fun a => in_cls a [Chr "-"; Chr "/"; Chr ":"; Chr "."])
            (list_ascii_of_string s).
Proof.
  unfold search, DATE_SEPARATOR, any_byte.
  destruct (existsb _ (list_ascii_of_string s)) eqn:E.
  - apply fullmatch_complete.
    destruct (existsb_split _ _ E) as (s1 & a & s2 & -> & Ha).
    constructor; [apply all_in_star, any_byte_all|].
    change (String a s2) with (String a "" ++ s2).
    constructor; [now constructor | apply all_in_star, any_byte_all].
  - apply not_true_is_false. intros H. apply fullmatch_sound in H.
    inversion H as [| |? ? s1 t1 _ H1| | | |]; subst.
    inversion H1 as [| |? ? s2 s3 H2 _| | | |]; subst.
    inversion H2 as [|? a Ha| | | | |]; subst.
    rewrite !existsb_string_app in E.
    cbn [list_ascii_of_string existsb] in E. cbv beta in E.
    rewrite Ha in E. cbn [orb] in E. rewrite orb_true_r in E.
    discriminate.
Qed.

(** *** The clean-up before [to_numeric] *)

Lemma remove_char c : forall s,
  PyStr.remove_all (String c "") s
  = string_of_list_ascii
      (filter (fun a => negb (Ascii.eqb a c)) (list_ascii_of_string s)).
Proof.
  unfold PyStr.remove_all. induction s as [|a s IH]; [reflexivity|].
  cbn [PyStr.remove_from prefix String.length Nat.sub list_ascii_of_string
       filter].
  destruct (ascii_dec c a) as [->|Hn].
  - rewrite Ascii.eqb_refl. cbn [negb]. destruct s; exact IH.
  - assert (Ascii.eqb a c = false) as -> by (apply Ascii.eqb_neq; congruence).
    cbn [negb string_of_list_ascii]. now rewrite IH.
Qed.

Lemma remove_absent old c : forall s,
  forallb (fun a => negb (Ascii.eqb a c)) (list_ascii_of_string s) = true ->
  PyStr.remove_all (String c old) s = s.
Proof.
  unfold PyStr.remove_all. induction s as [|a s IH]; [reflexivity|].
  cbn [list_ascii_of_string forallb PyStr.remove_from prefix].
  intros H. apply andb_true_iff in H. destruct H as [Ha Hs].
  apply negb_true_iff, Ascii.eqb_neq in Ha.
  destruct (ascii_dec c a) as [->|Hn]; [congruence|].
  now rewrite IH.
Qed.

Lemma replace_char_map a b s :
  PyStr.replace_char a b s
  = string_of_list_ascii
      (map (fun c => if Ascii.eqb c a then b else c)
           (list_ascii_of_string s)).
Proof. induction s as [|c s IH]; simpl; [reflexivity | now rewrite IH]. Qed.

Lemma filter_filter {A : Type} (p q : A -> bool) l :
  filter p (filter q l) = filter (fun x => q x && p x) l.
Proof.
  induction l as [|x l IH]; simpl; [reflexivity|].
  destruct (q x); simpl; [destruct (p x)|]; now rewrite IH.
Qed.

Lemma ascii_without s c :
  is_ascii s = true -> (128 <=? N_of_ascii c)%N = true ->
  forallb (fun a => negb (Ascii.eqb a c)) (list_ascii_of_string s) = true.
Proof.
  unfold is_ascii. intros H Hc. rewrite forallb_forall in *.
  intros a Ha. specialize (H a Ha). apply negb_true_iff, Ascii.eqb_neq.
  intros ->. apply N.ltb_lt in H. apply N.leb_le in Hc. lia.
Qed.

(** X22. On a text of ASCII the clean-up before [to_numeric] drops every
    "$", "%", blank and "." and turns every "," into ".", byte by byte. *)
Theorem numeric_cleanup_ascii (x : string) :
  is_ascii x = true ->
  numeric_cleanup x
  = string_of_list_ascii
      (map comma_to_dot
           (filter (fun c => negb (dropped c)) (list_ascii_of_string x))).
Proof.
  intros H. unfold numeric_cleanup, currency_symbols. cbv zeta.
  cbn [fold_left].
  change "€" with (String (ascii_of_N 226)
                     (String (ascii_of_N 130) (String (ascii_of_N 172) ""))).
  change "£" with (String (ascii_of_N 194) (String (ascii_of_N 163) "")).
  rewrite (remove_absent
             (String (ascii_of_N 130) (String (ascii_of_N 172) ""))
             (ascii_of_N 226) x)
    by (apply ascii_without; [exact H | reflexivity]).
  rewrite (remove_char "$").
  assert (Hk : is_ascii (string_of_list_ascii
                           (filter (fun a => negb (Ascii.eqb a "$"))
                                   (list_ascii_of_string x))) = true).
  { unfold is_ascii in *. rewrite list_ascii_of_string_of_list_ascii.
    rewrite forallb_forall in *. intros a Ha. apply filter_In in Ha.
    now apply H. }
  rewrite (remove_absent (String (ascii_of_N 163) "") (ascii_of_N 194) _)
    by (apply ascii_without; [exact Hk | reflexivity]).
  rewrite !remove_char, replace_char_map.
  rewrite !list_ascii_of_string_of_list_ascii, !filter_filter.
  f_equal. f_equal. apply filter_ext. intros a. unfold dropped.
  cbn [existsb]. rewrite orb_false_r, !negb_orb, !andb_assoc.
  reflexivity.
Qed.

(** ** Tables at the edge *)

Lemma getitem_column df col s :
  getitem df col = SelSeries s -> exists c, In c (columns df) /\ snd c = s.
Proof.
  intros H.
  destruct (getitem_cases df col) as [(c & E & _ & G)|[_ G]];
    rewrite G in H; [|discriminate].
  injection H as <-. exists c. split; [|reflexivity].
  assert (Hin : In c (named col (columns df))) by (rewrite E; now left).
  unfold named in Hin. apply filter_In in Hin. tauto.
Qed.

Lemma getitem_frame df col n cols :
  getitem df col = SelFrame n cols -> n = nrows df.
Proof.
  intros H.
  destruct (getitem_cases df col) as [(c & E & _ & G)|[_ G]];
    rewrite G in H; [discriminate|].
  now injection H as <- _.
Qed.

Lemma nodup_map_inj {A B : Type} (f : A -> B) l x y :
  NoDup (map f l) -> In x l -> In y l -> f x = f y -> x = y.
Proof.
  induction l as [|a l IH]; simpl; intros Hnd Hx Hy E; [contradiction|].
  inversion Hnd as [|? ? Hn Hnd']; subst.
  destruct Hx as [->|Hx], Hy as [->|Hy]; auto.
  - exfalso. apply Hn. rewrite E. now apply in_map.
  - exfalso. apply Hn. rewrite <- E. now apply in_map.
Qed.

Section Edge.
Context {RT : Runtime}.

(** What the selection of a label is in a table without rows. *)
Lemma no_rows_selection df col :
  nrows df = 0%nat -> well_formed df ->
  match getitem df col with
  | SelSeries s => values s = []
  | SelFrame n _ => n = 0%nat
  end.
Proof.
  intros Hn Hwf. destruct (getitem df col) as [s|n cols] eqn:G.
  - destruct (getitem_column _ _ _ G) as (c & Hin & <-).
    unfold well_formed in Hwf. rewrite Forall_forall in Hwf.
    specialize (Hwf c Hin). rewrite Hn in Hwf.
    now apply length_zero_iff_nil.
  - rewrite <- Hn. eapply getitem_frame; eauto.
Qed.

Lemma no_rows_mixed df acc col (w : World) :
  nrows df = 0%nat -> well_formed df ->
  mixed_body df acc col w = (Ok acc, w).
Proof.
  intros Hn Hwf. pose proof (no_rows_selection df col Hn Hwf) as Hs.
  unfold mixed_body, try_except, bind, infer_mixed_types.
  destruct (getitem df col) as [s|n cols].
  - unfold dropna. rewrite Hs. reflexivity.
  - subst n. reflexivity.
Qed.

Lemma no_rows_scanned looks typed df col :
  nrows df = 0%nat -> well_formed df ->
  scanned looks typed df col = false.
Proof.
  intros Hn Hwf. pose proof (no_rows_selection df col Hn Hwf) as Hs.
  unfold scanned. destruct (getitem df col) as [s|n cols].
  - unfold dropna. rewrite Hs. cbn. now rewrite andb_false_r.
  - subst n. cbn. now rewrite andb_false_r.
Qed.

(** X23. On a table without rows the rules find nothing and draw
    nothing: every null rate of its profile is [nan], which passes
    neither threshold, and every detector skips every column. *)
Theorem no_rows_no_issues
        (df : DataFrame) (profile_rows : list ProfileRow) (w : World) :
  nrows df = 0%nat -> well_formed df ->
  build_column_profile df = Ok profile_rows ->
  detect_issues df profile_rows w = (Ok [], w).
Proof.
  intros Hn Hwf Hp.
  assert (Hnan : Forall (fun r => null_pct r = Float.nan) profile_rows).
  { apply profile_rows_of in Hp. subst profile_rows.
    rewrite Forall_map. unfold well_formed in Hwf. rewrite Hn in Hwf.
    eapply Forall_impl; [|exact Hwf]. intros c Hc. cbv beta in Hc.
    apply length_zero_iff_nil in Hc. unfold row_of. cbn [null_pct].
    unfold null_rate. now rewrite Hc. }
  assert (Hpk : pk_issues profile_rows = []).
  { unfold pk_issues, pk_candidates. rewrite filter_none; [reflexivity|].
    eapply Forall_impl; [|exact Hnan]. intros r Hr. cbv beta.
    now rewrite Hr. }
  assert (Hhn : high_null_issues profile_rows = []).
  { unfold high_null_issues, high_null_cols.
    rewrite filter_none; [reflexivity|].
    eapply Forall_impl; [|exact Hnan]. intros r Hr. cbv beta.
    now rewrite Hr. }
  assert (Hdup : duplicate_issues df = []).
  { unfold duplicate_issues, dup_count, duplicated, empty.
    now rewrite Hn. }
  unfold detect_issues, bind. rewrite Hpk, Hhn, Hdup.
  unfold mixed_columns.
  rewrite for_each_skip
    by (apply Forall_forall; intros; now apply no_rows_mixed).
  unfold detect_email_issues, detect_date_parse_issues,
    detect_numeric_as_text_issues.
  rewrite for_each_skip
    by (apply Forall_forall; intros; apply email_body_skips;
        now apply no_rows_scanned).
  rewrite for_each_skip
    by (apply Forall_forall; intros; apply date_body_skips;
        now apply no_rows_scanned).
  rewrite for_each_skip
    by (apply Forall_forall; intros; apply numeric_body_skips;
        now apply no_rows_scanned).
  reflexivity.
Qed.

(** X24. A column with at most one distinct value that is not null is
    never proposed as a primary key. *)
Theorem constant_column_is_no_key
        (df : DataFrame) (profile_rows : list ProfileRow)
        (c : string * Series) :
  build_column_profile df = Ok profile_rows ->
  In c (columns df) -> (nunique (snd c) <= 1)%nat ->
  ~ In (fst c) (pk_candidates profile_rows).
Proof.
  intros Hp Hin Hu Hk.
  assert (Hnd : NoDup (labels df)).
  { destruct (distinct_or_not (labels df)) as [Y|N]; [exact Y|].
    rewrite (profile_of_shared_label df N) in Hp. discriminate. }
  apply profile_rows_of in Hp. subst profile_rows.
  unfold pk_candidates in Hk. apply in_map_iff in Hk.
  destruct Hk as (r & Hr & Hf). apply filter_In in Hf.
  destruct Hf as [Hf Ht]. apply in_map_iff in Hf.
  destruct Hf as (c' & <- & Hin'). cbn [column row_of] in Hr.
  assert (c' = c).
  { eapply nodup_map_inj; eauto. }
  subst c'. cbn [unique_values row_of] in Ht.
  apply andb_true_iff in Ht. destruct Ht as [_ Ht].
  apply Nat.ltb_lt in Ht. lia.
Qed.
End Edge.

(** ** Runs of the further properties *)

(** The smallest and the largest count of the contacts. *)
Lemma min_max_are_cells_witness :
  profile_column contacts_table "n" = Ok counts_record
  /\ getitem contacts_table "n" = SelSeries contacts_counts
  /\ min_val counts_record = Some (VInt 1)
  /\ max_val counts_record = Some (VInt 3)
  /\ In (Some (VInt 1)) (values contacts_counts)
  /\ In (Some (VInt 3)) (values contacts_counts).
Proof.
  assert (Hp : profile_column contacts_table "n" = Ok counts_record)
    by reflexivity.
  split; [exact Hp|].
  destruct (min_max_are_cells contacts_table "n" counts_record Hp)
    as (s & Hg & _ & Hr).
  assert (Hs : s = contacts_counts).
  { assert (G : getitem contacts_table "n" = SelSeries contacts_counts)
      by reflexivity.
    rewrite G in Hg. now injection Hg as <-. }
  subst s. split; [exact Hg|].
  cbn [is_numeric_dtype contacts_counts dtype orb] in Hr.
  destruct Hr as (Hmin & Hmax & _).
  split; [reflexivity|]. split; [reflexivity|].
  split; [apply Hmin | apply Hmax]; reflexivity.
Defined.

(** The contacts stay well formed when cleaned. *)
Lemma clean_keeps_well_formed_witness :
  well_formed contacts_table
  /\ well_formed (safe_clean_dataframe (RT := ref_runtime)
                    contacts_table true).
Proof.
  assert (H : well_formed contacts_table) by (repeat constructor).
  split; [exact H|].
  exact (clean_keeps_well_formed (RT := ref_runtime) contacts_table true H).
Defined.

(** The contacts keep a row when cleaned. *)
Lemma cleaning_keeps_a_row_witness :
  (0 < nrows contacts_table)%nat
  /\ (0 < nrows (safe_clean_dataframe (RT := ref_runtime)
                   contacts_table true))%nat
  /\ (dup_count contacts_table < nrows contacts_table
      \/ columns contacts_table = [])%nat.
Proof.
  assert (H : (0 < nrows contacts_table)%nat) by (simpl; lia).
  split; [exact H|].
  exact (cleaning_keeps_a_row (RT := ref_runtime) contacts_table true H).
Defined.

(** The issues found on the contacts, under their headings. *)
Lemma issue_counts_witness :
  detect_issues (RT := ref_runtime) contacts_table contacts_profile w0
  = (Ok contacts_issues, contacts_world)
  /\ info (group_issues contacts_issues) = pk_issues contacts_profile
  /\ (List.length (critical (group_issues contacts_issues)) <= 1)%nat
  /\ (List.length contacts_issues
      <= 4 + 3 * List.length (columns contacts_table))%nat.
Proof.
  assert (H : detect_issues (RT := ref_runtime)
                contacts_table contacts_profile w0
              = (Ok contacts_issues, contacts_world))
    by (vm_compute; reflexivity).
  split; [exact H|].
  destruct (issue_counts (RT := ref_runtime) contacts_table contacts_profile
              w0 contacts_world contacts_issues H)
    as (Hi & _ & _ & Hc & _ & Hl).
  split; [exact Hi|]. split; [exact Hc | exact Hl].
Defined.

(** Two columns of the name "email": no report. *)
Lemma inspection_needs_distinct_labels_witness :
  ~ NoDup (labels twin_email_table)
  /\ run_inspection (RT := ref_runtime) twin_email_table w0
     = (Raise TypeError, w0).
Proof.
  assert (H : ~ NoDup (labels twin_email_table)).
  { intros N. inversion N as [|? ? Hn _]. apply Hn. now left. }
  split; [exact H|].
  exact (inspection_needs_distinct_labels (RT := ref_runtime)
           twin_email_table w0 H).
Defined.

(** The report on the contacts. *)
Lemma report_describes_the_table_witness :
  run_inspection (RT := ref_runtime) contacts_table w0
  = (Ok contacts_report, contacts_world)
  /\ map column (profile contacts_report) = ["email"; "n"]
  /\ rows_total (dataset contacts_report) = 4%nat
  /\ (duplicate_rows_total (dataset contacts_report) <= 4)%nat.
Proof.
  assert (H : run_inspection (RT := ref_runtime) contacts_table w0
              = (Ok contacts_report, contacts_world))
    by (vm_compute; reflexivity).
  split; [exact H|].
  destruct (report_describes_the_table (RT := ref_runtime) contacts_table
              w0 contacts_world contacts_report H)
    as (_ & Hc & Hr & _ & Hd & _).
  split; [exact Hc|]. split; [exact Hr|].
  rewrite Hr in Hd. exact Hd.
Defined.

(** A price in European notation. *)
Lemma numeric_cleanup_ascii_witness :
  is_ascii price_text = true /\ numeric_cleanup price_text = "1234.56".
Proof.
  split; [reflexivity|].
  rewrite (numeric_cleanup_ascii price_text eq_refl). reflexivity.
Defined.

(** The table without rows has no issue. *)
Lemma no_rows_no_issues_witness :
  (nrows header_only_table = 0%nat
   /\ well_formed header_only_table
   /\ build_column_profile header_only_table = Ok header_profile)
  /\ detect_issues (RT := ref_runtime) header_only_table header_profile w0
     = (Ok [], w0).
Proof.
  assert (Hw : well_formed header_only_table) by (repeat constructor).
  assert (Hp : build_column_profile header_only_table = Ok header_profile)
    by (vm_compute; reflexivity).
  split; [split; [reflexivity | split; [exact Hw | exact Hp]]|].
  exact (no_rows_no_issues (RT := ref_runtime) header_only_table
           header_profile w0 eq_refl Hw Hp).
Defined.

(** A column with one value is no key. *)
Lemma constant_column_is_no_key_witness :
  (build_column_profile upper_na_table = Ok status_profile
   /\ In ("status", text_column ["NA"]) (columns upper_na_table)
   /\ (nunique (text_column ["NA"]) <= 1)%nat)
  /\ ~ In "status" (pk_candidates status_profile).
Proof.
  assert (Hp : build_column_profile upper_na_table = Ok status_profile)
    by (vm_compute; reflexivity).
  assert (Hin : In ("status", text_column ["NA"]) (columns upper_na_table))
    by (now left).
  assert (Hu : (nunique (text_column ["NA"]) <= 1)%nat)
    by (vm_compute; lia).
  split; [split; [exact Hp | split; [exact Hin | exact Hu]]|].
  exact (constant_column_is_no_key upper_na_table status_profile
           ("status", text_column ["NA"]) Hp Hin Hu).
Defined.
